(** * Deteccion-Emociones: the video analysis pipeline

    A shallow embedding of the backend services

      - [app/services/analyzer.py]        (module [Analyzer])
      - [app/services/uploader.py]        (module [Uploader])
      - [app/services/video_processor.py] (module [VideoProcessor])
      - [app/services/youtube_dowload.py] (module [YoutubeDownload])
      - [app/api/youtube.py]              (module [YoutubeApi])

    together with the properties the design document states about them.

    Conventions of the embedding.

      - Python [int] is [Z]. A Python [float] is the rational it denotes
        ([Q]). A float literal is the double nearest to its decimal, and
        the result of a float division, multiplication or [round] is
        rounded to the nearest double ([b64]); doubling a float and
        comparing floats are exact. NaN and the infinities are outside
        the model.
      - A Python exception is the [Raise] case of [outcome]; code that
        cannot raise is a plain function.
      - The answers of the libraries the code calls (PIL, MTCNN, the Keras
        model, OpenCV's capture and JPEG encoder, FFmpeg, Google Cloud
        Storage, the clock) are data of the input: every theorem
        quantifies over them.
      - The local file system is the finite set of the paths that exist. *)

From Stdlib Require Import ZArith QArith Qabs Qround Lia Bool List String Ascii.
From Stdlib Require Import Sorted Qpower Lqa.
From stdpp Require Import base gmap strings list.
Import ListNotations.
Local Open Scope Z_scope.

(** ** Exceptions *)

Inductive exn : Type :=
| FileNotFoundError
| VideoOpenError        (* Exception("No se pudo abrir el video.") *)
| ZeroDivisionError
| ValueError
| IndexError
| LibraryError.         (* anything raised inside an external library *)

Inductive outcome (A : Type) : Type :=
| Return (a : A)
| Raise (e : exn).
Arguments Return {A} a.
Arguments Raise {A} e.

Global Instance outcome_ret : MRet outcome := fun A a => Return a.
Global Instance outcome_bind : MBind outcome := fun A B f m =>
  match m with
  | Return a => f a
  | Raise e => Raise e
  end.

(** [l[i]] on a Python list. *)
Definition index {A} (l : list A) (i : nat) : outcome A :=
  match l !! i with
  | Some a => Return a
  | None => Raise IndexError
  end.

(** ** Floats as rationals *)

Definition Qltb (x y : Q) : bool :=
  match (x ?= y)%Q with Lt => true | _ => false end.

(** [int(x)]: truncation towards zero. *)
Definition int_of_float (x : Q) : Z := Z.quot (Qnum x) (Zpos (Qden x)).

(** [round(x)] with no digits: to the nearest integer, ties to even. *)
Definition round_half_even (x : Q) : Z :=
  let n := Qnum x in
  let d := Zpos (Qden x) in
  let q := n / d in
  let r := n mod d in
  match 2 * r ?= d with
  | Lt => q
  | Gt => q + 1
  | Eq => if Z.even q then q else q + 1
  end.

(** *** Binary64

    A float is the rational it denotes. The results of Python's float
    operations are rounded to the nearest double, ties to the even
    significand. *)

(** [floor(log2 x)] for a positive [x]. *)
Definition ilog2 (x : Q) : Z :=
  let k := Z.log2 (Qnum x) - Z.log2 (Zpos (Qden x)) in
  if Qle_bool (2 ^ k) x then k else k - 1.

(** The exponent of the last place of the doubles next to [x]: 52 places
    below the leading bit, and -1074 in the subnormal range. *)
Definition ulp_exp (x : Q) : Z := Z.max (-1074) (ilog2 (Qabs x) - 52).

(** The double nearest to [x] (for [x] within the range of the finite
    doubles). *)
Definition b64 (x : Q) : Q :=
  let e := ulp_exp x in
  (inject_Z (round_half_even (x / 2 ^ e)) * 2 ^ e)%Q.

(** [x / y] and [x * y] on floats, and on ints for [/]. *)
Definition float_div (x y : Q) : Q := b64 (x / y).
Definition float_mul (x y : Q) : Q := b64 (x * y).

(** [round(x, 2)] on a float: the decimal expansion of [x] is rounded to
    two places, ties to even, and the result is read back as a double. *)
Definition round2 (x : Q) : Q := b64 (round_half_even (x * 100) # 100).

(** ** app/services/analyzer.py *)

Module Analyzer.

Definition CLASS_NAMES : list string :=
  ["angry"; "disgust"; "fear"; "happy"; "neutral"; "sad"; "surprise"]%string.

(** A box [(x, y, w, h)]. *)
Definition Box : Type := Z * Z * Z * Z.

(** One element of the list MTCNN returns: a dict with (possibly) the keys
    ["box"] and ["confidence"], or something that is not a dict. *)
Inductive MtcnnItem : Type :=
| NotADict
| FaceDict (box : option Box) (confidence : option Q).

(** The bytes handed to [analyze_bytes], with what the libraries answer on
    them. [classifier roi] is
    [tf.nn.softmax(model.predict(preprocess_face(roi))[0]).numpy()]. *)
Record FileBytes : Type := {
  decodes : bool;                       (* PIL opens and converts them *)
  rows : Z;                             (* shape of np.array(img) is   *)
  cols : Z;                             (*   (rows, cols, 3)           *)
  mtcnn : option (list MtcnnItem);      (* None: detect_faces raised   *)
  classifier : Box -> option (list Q)   (* None: the model raised      *)
}.

Record Detection : Type := {
  id : Z;
  bbox : list Z;
  emotion : string;
  confidence : Q;
  all_probs : list (string * Q)
}.

Record Analysis : Type := {
  num_faces : Z;
  results : list Detection
}.

Definition read_image_to_rgb (file_bytes : FileBytes) : outcome FileBytes :=
  if decodes file_bytes then Return file_bytes else Raise ValueError.

Definition below_confidence (confidence : option Q) : bool :=
  match confidence with
  | Some c => Qltb c (b64 (85 # 100))   (* "confidence" in det and < 0.85 *)
  | None => false
  end.

Fixpoint keep_boxes (detections : list MtcnnItem) : list Box :=
  match detections with
  | [] => []
  | NotADict :: rest => keep_boxes rest
  | FaceDict None _ :: rest => keep_boxes rest
  | FaceDict (Some (x, y, w, h)) conf :: rest =>
      if below_confidence conf then keep_boxes rest
      else
        let x := Z.max 0 x in
        let y := Z.max 0 y in
        let w := Z.max 1 w in
        let h := Z.max 1 h in
        if (w <? 30) || (h <? 30) then keep_boxes rest
        else (x, y, w, h) :: keep_boxes rest
  end.

Definition detect_faces (img_rgb : FileBytes) : list Box :=
  match mtcnn img_rgb with
  | None => []                          (* except Exception: return [] *)
  | Some detections => keep_boxes detections
  end.

(** Length of [a[start:stop]] on an axis of length [n]. *)
Definition slice_index (n i : Z) : Z :=
  if i <? 0 then Z.max (i + n) 0 else Z.min i n.

Definition slice_len (n start stop : Z) : Z :=
  Z.max 0 (slice_index n stop - slice_index n start).

(** [img_rgb[y:y+h, x:x+w].size] *)
Definition roi_size (img_rgb : FileBytes) (b : Box) : Z :=
  let '(x, y, w, h) := b in
  slice_len (rows img_rgb) y (y + h) * slice_len (cols img_rgb) x (x + w) * 3.

(** [np.argmax]: the first position of the largest entry. *)
Fixpoint argmax_from (best_i : nat) (best : Q) (i : nat) (l : list Q) : nat :=
  match l with
  | [] => best_i
  | p :: rest =>
      if Qltb best p then argmax_from i p (S i) rest
      else argmax_from best_i best (S i) rest
  end.

Definition argmax (l : list Q) : outcome nat :=
  match l with
  | [] => Raise ValueError
  | p :: rest => Return (argmax_from 0 p 1 rest)
  end.

(** [{CLASS_NAMES[j]: float(probs[j]) for j in range(len(CLASS_NAMES))}] *)
Fixpoint probs_dict (names : list string) (j : nat) (probs : list Q)
  : outcome (list (string * Q)) :=
  match names with
  | [] => Return []
  | name :: names' =>
      p ← index probs j;
      tail ← probs_dict names' (S j) probs;
      Return ((name, p) :: tail)
  end.

(** The body of [for i, (x, y, w, h) in enumerate(bboxes)]. *)
Fixpoint classify_faces (img_rgb : FileBytes) (i : nat) (bboxes : list Box)
  : outcome (list Detection) :=
  match bboxes with
  | [] => Return []
  | (x, y, w, h) :: rest =>
      if roi_size img_rgb (x, y, w, h) =? 0 then
        classify_faces img_rgb (S i) rest
      else
        probs ← match classifier img_rgb (x, y, w, h) with
                | Some probs => Return probs
                | None => Raise LibraryError
                end;
        idx ← argmax probs;
        emotion ← index CLASS_NAMES idx;
        confidence ← index probs idx;
        all_probs ← probs_dict CLASS_NAMES 0 probs;
        tail ← classify_faces img_rgb (S i) rest;
        Return ({| id := Z.of_nat i + 1;
                   bbox := [x; y; w; h];
                   emotion := emotion;
                   confidence := confidence;
                   all_probs := all_probs |} :: tail)
  end.

Definition analyze_bytes (file_bytes : FileBytes) : outcome Analysis :=
  img_rgb ← read_image_to_rgb file_bytes;
  let bboxes := detect_faces img_rgb in
  match bboxes with
  | [] => Return {| num_faces := 0; results := [] |}
  | _ =>
      results ← classify_faces img_rgb 0 bboxes;
      Return {| num_faces := Z.of_nat (List.length results);
                results := results |}
  end.

End Analyzer.

(** ** app/services/uploader.py *)

Module Uploader.

(** What [subprocess.run] did: the tool ran and exited with a return code,
    or the call itself raised. A tool that exits 0 has written its output
    file; a failed run leaves the set of existing paths as it was. *)
Inductive ToolRun : Type :=
| Exited (returncode : Z)
| Crashed.

Definition path_exists (fs : gset string) (p : string) : bool :=
  bool_decide (p ∈ fs).

(** [s.replace(old, new)] for a non-empty [old]: occurrences are replaced
    from the left and do not overlap; [skip] counts the characters of a
    matched occurrence still to be dropped. *)
Fixpoint replace_from (old new : string) (skip : nat) (s : string) : string :=
  match s with
  | EmptyString => EmptyString
  | String c s' =>
      match skip with
      | S k => replace_from old new k s'
      | O =>
          if String.prefix old s
          then new ++ replace_from old new (String.length old - 1) s'
          else String c (replace_from old new 0 s')
      end
  end.

Definition replace (s old new : string) : string := replace_from old new 0 s.

(** [os.path.basename] (POSIX): what follows the last slash. *)
Fixpoint basename_from (acc p : string) : string :=
  match p with
  | EmptyString => acc
  | String c p' =>
      if Ascii.eqb c "/" then basename_from EmptyString p'
      else basename_from (acc ++ String c EmptyString) p'
  end.

Definition basename (p : string) : string := basename_from EmptyString p.

(** [gcs] is the signed URL the storage client returns, [None] when the
    client, the transfer or the signing raises. The transfer reads
    [local_path], which has to exist. *)
Definition upload_to_gcs (fs : gset string) (gcs : option string)
    (local_path destination_blob_name : string) : outcome string :=
  if path_exists fs local_path then
    match gcs with
    | Some url => Return url
    | None => Raise LibraryError          (* logged, then re-raised *)
    end
  else Raise FileNotFoundError.

Definition compress_video (fs : gset string) (ffmpeg : ToolRun)
    (input_path output_path : string) : string * gset string :=
  let compressed_path := replace output_path ".mp4" "_compressed.mp4" in
  if negb (path_exists fs input_path) then (output_path, fs)
  else
    match ffmpeg with
    | Exited returncode =>
        if negb (returncode =? 0) then (input_path, fs)
        else (compressed_path, {[compressed_path]} ∪ fs)
    | Crashed => (input_path, fs)
    end.

End Uploader.

(** ** app/services/video_processor.py *)

Module VideoProcessor.
Import Analyzer Uploader.

Definition merge_audio (fs : gset string) (ffmpeg : ToolRun)
    (original_path processed_path : string) : string * gset string :=
  let final_path := replace processed_path ".mp4" "_with_audio.mp4" in
  if negb (path_exists fs original_path) then (processed_path, fs)
  else if negb (path_exists fs processed_path) then (processed_path, fs)
  else
    match ffmpeg with
    | Exited returncode =>
        if negb (returncode =? 0) then (processed_path, fs)
        else (final_path, {[final_path]} ∪ fs)
    | Crashed => (processed_path, fs)
    end.

(** *** Frames *)

(** A frame that [cap.read()] delivered as a three-dimensional array:
    its picture, and what [cv2.imencode('.jpg', frame)] gives for it
    ([None] when the returned flag is false). *)
Record Frame : Type := {
  picture : nat;
  jpeg : option FileBytes
}.

(** One successful [cap.read()]: the loop ends at the first read whose
    flag is false, so a video is the list of the reads before it. *)
Inductive Read : Type :=
| Invalid                 (* frame is None or len(frame.shape) != 3 *)
| Decoded (frame : Frame).

(** What is painted on a frame for one detection: the rectangle, its
    color, and the label (upper-cased emotion and the confidence, which
    the code prints as a percentage with one decimal). *)
Record Overlay : Type := {
  rect : Box;
  color : Z * Z * Z;
  label : string * Q
}.

(** A frame as handed to [out.write]. *)
Record Written : Type := {
  shown : nat;
  overlays : list Overlay
}.

Definition COLORS : list (string * (Z * Z * Z)) :=
  [ ("neutral", (189, 195, 199));
    ("happy", (46, 204, 113));
    ("surprise", (241, 196, 15));
    ("sad", (52, 152, 219));
    ("angry", (231, 76, 60));
    ("disgust", (22, 160, 133));
    ("fear", (142, 68, 173)) ]%string.

(** [d.get(k, default)] *)
Fixpoint dict_get {V} (d : list (string * V)) (k : string) (default : V) : V :=
  match d with
  | [] => default
  | (k', v) :: d' => if String.eqb k' k then v else dict_get d' k default
  end.

(** [k in d] *)
Definition dict_has {V} (d : list (string * V)) (k : string) : bool :=
  existsb (fun kv => String.eqb (fst kv) k) d.

(** [d[k] += 1] for a key that is present. *)
Fixpoint dict_incr (d : list (string * Z)) (k : string) : list (string * Z) :=
  match d with
  | [] => []
  | (k', v) :: d' =>
      if String.eqb k' k then (k', v + 1) :: d' else (k', v) :: dict_incr d' k
  end.

(** [sum(d.values())] *)
Fixpoint sum_values (d : list (string * Z)) : Z :=
  match d with
  | [] => 0
  | (_, v) :: d' => v + sum_values d'
  end.

Definition upper_ascii (c : ascii) : ascii :=
  let n := nat_of_ascii c in
  if ((97 <=? n) && (n <=? 122))%nat then ascii_of_nat (n - 32) else c.

Fixpoint upper (s : string) : string :=
  match s with
  | EmptyString => EmptyString
  | String c s' => String (upper_ascii c) (upper s')
  end.

(** The rectangle, label background and text of one detection. *)
Definition paint (det : Detection) (x y w h : Z) : Overlay :=
  {| rect := (x, y, w, h);
     color := dict_get COLORS (emotion det) (0, 255, 0);
     label := (upper (emotion det), confidence det) |}.

(** [for det in last_detections: ...] of the intermediate frames. *)
Fixpoint draw_persisted (dets : list Detection) (canvas : list Overlay)
  : list Overlay :=
  match dets with
  | [] => canvas
  | det :: rest =>
      match bbox det with
      | [x; y; w; h] => draw_persisted rest (canvas ++ [paint det x y w h])
      | _ => draw_persisted rest canvas     (* not bbox or len(bbox) != 4 *)
      end
  end.

(** [for det in detections: ...] of an analyzed frame: paints and counts. *)
Fixpoint draw_and_count (dets : list Detection) (canvas : list Overlay)
    (emotion_counts : list (string * Z)) : list Overlay * list (string * Z) :=
  match dets with
  | [] => (canvas, emotion_counts)
  | det :: rest =>
      match bbox det with
      | [x; y; w; h] =>
          let canvas := canvas ++ [paint det x y w h] in
          let emotion_counts :=
            if dict_has emotion_counts (emotion det)
            then dict_incr emotion_counts (emotion det)
            else emotion_counts in
          draw_and_count rest canvas emotion_counts
      | _ => draw_and_count rest canvas emotion_counts
      end
  end.

(** *** The frame loop *)

Record LoopState : Type := {
  processed_frames : Z;
  analyzed_frames : Z;
  emotion_counts : list (string * Z);
  last_detections : list Detection;
  out : list Written                      (* the calls of out.write, in order *)
}.

Definition initial_state : LoopState :=
  {| processed_frames := 0;
     analyzed_frames := 0;
     emotion_counts :=
       map (fun e => (e, 0))
           ["angry"; "disgust"; "fear"; "happy"; "neutral"; "sad"; "surprise"]%string;
     last_detections := [];
     out := [] |}.

(** [a % b] *)
Definition py_mod (a b : Z) : outcome Z :=
  if b =? 0 then Raise ZeroDivisionError else Return (a mod b).

(** Lines 141-160: an intermediate frame is painted with the stored
    detections and written. *)
Definition persist_frame (frame : Frame) (st : LoopState) : LoopState :=
  let canvas :=
    match last_detections st with
    | [] => []                                              (* if last_detections: *)
    | dets => draw_persisted dets []
    end in
  {| processed_frames := processed_frames st;
     analyzed_frames := analyzed_frames st;
     emotion_counts := emotion_counts st;
     last_detections := last_detections st;
     out := out st ++ [{| shown := picture frame; overlays := canvas |}] |}.

(** Lines 163-201: the frame is encoded, analyzed, painted with the fresh
    detections and written. *)
Definition analyze_frame (frame : Frame) (st : LoopState) : LoopState :=
  let analyzed_frames := analyzed_frames st + 1 in
  match jpeg frame with
  | None =>                                                 (* if not ret: continue *)
      {| processed_frames := processed_frames st;
         analyzed_frames := analyzed_frames;
         emotion_counts := emotion_counts st;
         last_detections := last_detections st;
         out := out st |}
  | Some buffer =>
      match analyze_bytes buffer with
      | Raise _ =>                                          (* except Exception *)
          {| processed_frames := processed_frames st;
             analyzed_frames := analyzed_frames;
             emotion_counts := emotion_counts st;
             last_detections := last_detections st;
             out := out st ++ [{| shown := picture frame; overlays := [] |}] |}
      | Return result =>
          match results result with
          | [] =>
              {| processed_frames := processed_frames st;
                 analyzed_frames := analyzed_frames;
                 emotion_counts := emotion_counts st;
                 last_detections := last_detections st;
                 out := out st ++ [{| shown := picture frame; overlays := [] |}] |}
          | detections =>
              let '(canvas, counts) :=
                draw_and_count detections [] (emotion_counts st) in
              {| processed_frames := processed_frames st;
                 analyzed_frames := analyzed_frames;
                 emotion_counts := counts;
                 last_detections := detections;
                 out := out st ++ [{| shown := picture frame; overlays := canvas |}] |}
          end
      end
  end.

(** [processed_frames += 1] *)
Definition count_frame (st : LoopState) : LoopState :=
  {| processed_frames := processed_frames st + 1;
     analyzed_frames := analyzed_frames st;
     emotion_counts := emotion_counts st;
     last_detections := last_detections st;
     out := out st |}.

(** One iteration of [while True] after a read whose flag is true. *)
Definition process_frame (frame_interval : Z) (r : Read) (st : LoopState)
  : outcome LoopState :=
  match r with
  | Invalid => Return st                                    (* continue *)
  | Decoded frame =>
      let st := count_frame st in
      m ← py_mod (processed_frames st) frame_interval;
      if negb (m =? 0) then Return (persist_frame frame st)
      else Return (analyze_frame frame st)
  end.

Fixpoint frame_loop (frame_interval : Z) (reads : list Read) (st : LoopState)
  : outcome LoopState :=
  match reads with
  | [] => Return st                                         (* if not ret: break *)
  | r :: rest =>
      st' ← process_frame frame_interval r st;
      frame_loop frame_interval rest st'
  end.

(** *** The run *)

(** An opened [cv2.VideoCapture]. *)
Record Capture : Type := {
  CAP_PROP_FPS : Q;
  reads : list Read
}.

(** Everything outside the program that a run depends on. *)
Record Env : Type := {
  files : gset string;             (* the paths that exist when the run starts *)
  capture : option Capture;        (* None: cap.isOpened() is false            *)
  output_path : string;            (* join(dirname(video_path), "processed_<uuid>.mp4") *)
  writer_creates : bool;           (* the VideoWriter produced its file        *)
  merge_run : ToolRun;
  compress_run : ToolRun;
  gcs : option string;
  elapsed : Q                      (* time.time() - start_time                 *)
}.

Record RunResult : Type := {
  summary : list (string * Q);
  frames_analyzed : Z;
  duration_sec : Q;
  public_url : option string
}.

(** The returned dict, and the effects a caller can observe. *)
Record Run : Type := {
  result : RunResult;
  files_after : gset string;
  video : list Written
}.

(** [cap.get(cv2.CAP_PROP_FPS) or 25] *)
Definition fps_or_default (reported : Q) : Q :=
  if Qeq_bool reported 0 then 25%Q else reported.

Definition frame_interval (fps : Q) : Z := int_of_float (fps * 2).

Definition total_of (emotion_counts : list (string * Z)) : Z :=
  let s := sum_values emotion_counts in
  if s =? 0 then 1 else s.                                  (* sum(...) or 1 *)

Definition summarize (emotion_counts : list (string * Z)) : list (string * Q) :=
  let total := total_of emotion_counts in
  map (fun kv =>
         (fst kv,
          round2 (float_mul (float_div (inject_Z (snd kv)) (inject_Z total)) 100)))
      emotion_counts.

(** The [try: upload ... os.remove ... except Exception] block. *)
Definition upload_and_clean (fs : gset string) (gcs : option string)
    (compressed_path output_with_audio : string) : option string * gset string :=
  let gcs_path := ("processed_videos/" ++ basename compressed_path)%string in
  match upload_to_gcs fs gcs compressed_path gcs_path with
  | Return public_url =>
      if path_exists fs output_with_audio
      then (Some public_url, fs ∖ {[output_with_audio]})
      else (None, fs)                     (* os.remove raised *)
  | Raise _ => (None, fs)
  end.

(** Files on disk once the loop is over and the writer is released. *)
Definition files_after_loop (env : Env) : gset string :=
  if writer_creates env then {[output_path env]} ∪ files env else files env.

(** Lines 209-243: statistics, audio, compression, upload, result. *)
Definition finish (env : Env) (video_path : string) (st : LoopState) : Run :=
  let fs := files_after_loop env in
  let summary := summarize (emotion_counts st) in
  let '(output_with_audio, fs) :=
    merge_audio fs (merge_run env) video_path (output_path env) in
  let '(compressed_path, fs) :=
    compress_video fs (compress_run env) output_with_audio output_with_audio in
  let '(public_url, fs) :=
    upload_and_clean fs (gcs env) compressed_path output_with_audio in
  {| result := {| summary := summary;
                  frames_analyzed := analyzed_frames st;
                  duration_sec := round2 (elapsed env);
                  public_url := public_url |};
     files_after := fs;
     video := out st |}.

Definition process_video (env : Env) (video_path : string) : outcome Run :=
  if negb (path_exists (files env) video_path) then Raise FileNotFoundError
  else
    match capture env with
    | None => Raise VideoOpenError
    | Some cap =>
        let fps := fps_or_default (CAP_PROP_FPS cap) in
        let frame_interval := frame_interval fps in
        (* try: the loop; finally: cap.release(), out.release() *)
        st ← frame_loop frame_interval (reads cap) initial_state;
        Return (finish env video_path st)
    end.

End VideoProcessor.

(** ** Notions used to state the properties *)

Module Observations.
Import Analyzer Uploader VideoProcessor.

(** The frames that pass the validity check of the loop, in order: the
    k-th of them is processed with the counter at k. *)
Fixpoint decoded (reads : list Read) : list Frame :=
  match reads with
  | [] => []
  | Invalid :: rest => decoded rest
  | Decoded frame :: rest => frame :: decoded rest
  end.

(** The detections a fresh analysis of a frame yields: none when the frame
    cannot be encoded or the analysis raises. *)
Definition fresh_detections (frame : Frame) : list Detection :=
  match jpeg frame with
  | None => []
  | Some buffer =>
      match analyze_bytes buffer with
      | Return result => results result
      | Raise _ => []
      end
  end.

(** The frames among [frames] that fall on a multiple of the interval,
    when [count] frames have been processed before them: those are the
    frames the loop analyzes. *)
Fixpoint sampled (frame_interval count : Z) (frames : list Frame) : list Frame :=
  match frames with
  | [] => []
  | frame :: rest =>
      if (count + 1) mod frame_interval =? 0
      then frame :: sampled frame_interval (count + 1) rest
      else sampled frame_interval (count + 1) rest
  end.

(** All the detections that fresh analyses yield along [frames]. *)
Definition detections_met (frame_interval count : Z) (frames : list Frame)
  : list Detection :=
  concat (map fresh_detections (sampled frame_interval count frames)).

(** [sum] of a list of floats. *)
Definition sum_Q (l : list Q) : Q := foldr Qplus 0%Q l.

(** The sampling interval of a run on an opened capture. *)
Definition interval_of (cap : Capture) : Z :=
  frame_interval (fps_or_default (CAP_PROP_FPS cap)).

(** The artifacts of the post-processing chain of a run: what
    [merge_audio] returns ([output_with_audio]) and what [compress_video]
    returns ([compressed_path]), each with the files on disk afterwards. *)
Definition merged (env : Env) (video_path : string) : string * gset string :=
  merge_audio (files_after_loop env) (merge_run env) video_path (output_path env).

Definition compressed (env : Env) (video_path : string) : string * gset string :=
  let '(output_with_audio, fs) := merged env video_path in
  compress_video fs (compress_run env) output_with_audio output_with_audio.

(** The outcome of the upload step of a run. *)
Definition upload_of (env : Env) (video_path : string) : outcome string :=
  let '(compressed_path, fs) := compressed env video_path in
  upload_to_gcs fs (gcs env) compressed_path
    ("processed_videos/" ++ basename compressed_path)%string.

End Observations.

(** ** Sample inputs *)

Module Samples.
Import Analyzer Uploader VideoProcessor.
Local Open Scope string_scope.

(** The NTSC rate 30000/1001 as the binary64 number OpenCV reports. *)
Definition ntsc : Q := 1054476685978981 # 35184372088832.

Definition happy_probs : list Q :=
  [1 # 100; 2 # 100; 2 # 100; 80 # 100; 10 # 100; 3 # 100; 2 # 100]%Q.

(** A picture on which MTCNN reports a confident face that sticks out at
    the top, a tiny box, an unconvincing box and an item that is not a
    dict. *)
Definition portrait : FileBytes :=
  {| decodes := true; rows := 480; cols := 640;
     mtcnn := Some [ FaceDict (Some (100, -5, 80, 90)) (Some (99 # 100)%Q);
                     FaceDict (Some (10, 10, 12, 12)) (Some (99 # 100)%Q);
                     FaceDict (Some (300, 200, 60, 60)) (Some (1 # 2)%Q);
                     NotADict ];
     classifier := fun _ => Some happy_probs |}.

(** A picture without faces. *)
Definition wall : FileBytes :=
  {| decodes := true; rows := 480; cols := 640;
     mtcnn := Some [];
     classifier := fun _ => Some happy_probs |}.

(** The portrait, with a classifier that raises. *)
Definition portrait_model_down : FileBytes :=
  {| decodes := true; rows := 480; cols := 640;
     mtcnn := mtcnn portrait;
     classifier := fun _ => None |}.

Definition face_frame (n : nat) : Frame := {| picture := n; jpeg := Some portrait |}.
Definition wall_frame (n : nat) : Frame := {| picture := n; jpeg := Some wall |}.
Definition failing_frame (n : nat) : Frame :=
  {| picture := n; jpeg := Some portrait_model_down |}.
Definition unencodable_frame (n : nat) : Frame := {| picture := n; jpeg := None |}.

Definition source : string := "/tmp/yt_1a2b3c4d.mp4".

Definition env_of (fps : Q) (reads : list Read) (gcs : option string) : Env :=
  {| files := {[ source ]};
     capture := Some {| CAP_PROP_FPS := fps; reads := reads |};
     output_path := "/tmp/processed_ab12cd34.mp4";
     writer_creates := true;
     merge_run := Exited 0;
     compress_run := Exited 0;
     gcs := gcs;
     elapsed := (12345 # 1000)%Q |}.

Definition signed_url : string := "https://storage.googleapis.com/signed".

(** One frame per second: four frames, faces on the second and third. *)
Definition clip : list Read :=
  [ Decoded (wall_frame 1); Decoded (face_frame 2); Invalid;
    Decoded (face_frame 3); Decoded (wall_frame 4) ].

(** Two frames; the second, which is due for analysis, does not encode. *)
Definition clip_unencodable : list Read :=
  [ Decoded (wall_frame 1); Decoded (unencodable_frame 2) ].

(** Four frames on which the classifier raises. *)
Definition clip_model_down : list Read :=
  [ Decoded (failing_frame 1); Decoded (failing_frame 2);
    Decoded (failing_frame 3); Decoded (failing_frame 4) ].

(** The state of the loop after [reads] (the initial one should the loop
    raise). *)
Definition state_after (frame_interval : Z) (reads : list Read) : LoopState :=
  match frame_loop frame_interval reads initial_state with
  | Return st => st
  | Raise _ => initial_state
  end.

(** A run on [clip] at one frame per second, with a working upload. *)
Definition clip_capture : Capture := {| CAP_PROP_FPS := 1; reads := clip |}.

Definition clip_env : Env := env_of 1 clip (Some signed_url).

Definition clip_run : Run := finish clip_env source (state_after 2 clip).

(** The same video with a classifier that raises. *)
Definition model_down_capture : Capture :=
  {| CAP_PROP_FPS := 1; reads := clip_model_down |}.

Definition model_down_env : Env := env_of 1 clip_model_down (Some signed_url).

(** [clip_unencodable] at one frame per second. *)
Definition unencodable_env : Env :=
  env_of 1 clip_unencodable (Some signed_url).

(** [clip] in a container that reports a quarter of a frame per second. *)
Definition slow_env : Env := env_of (1 # 4) clip (Some signed_url).

(** What [analyze_bytes] returns on the portrait. *)
Definition portrait_analysis : Analysis :=
  {| num_faces := 1;
     results :=
       [ {| id := 1;
            bbox := [100; 0; 80; 90];
            emotion := "happy";
            confidence := (80 # 100)%Q;
            all_probs := zip CLASS_NAMES happy_probs |} ] |}.

End Samples.

(** ** Strings of the request *)

Module Text.

(** [sub in s] *)
Fixpoint contains (s sub : string) : bool :=
  String.prefix sub s ||
  match s with
  | EmptyString => false
  | String _ s' => contains s' sub
  end.

(** [c.isspace()] for a character below 256. *)
Definition is_space (c : ascii) : bool :=
  let n := nat_of_ascii c in
  ((9 <=? n) && (n <=? 13) || (28 <=? n) && (n <=? 32)
   || (n =? 133) || (n =? 160))%nat.

Fixpoint lstrip (s : string) : string :=
  match s with
  | EmptyString => EmptyString
  | String c s' => if is_space c then lstrip s' else s
  end.

Fixpoint rstrip (s : string) : string :=
  match s with
  | EmptyString => EmptyString
  | String c s' =>
      match rstrip s' with
      | EmptyString => if is_space c then EmptyString else String c EmptyString
      | t => String c t
      end
  end.

(** [s.strip()] *)
Definition strip (s : string) : string := rstrip (lstrip s).

End Text.

(** ** app/services/youtube_dowload.py *)

Module YoutubeDownload.
Import Uploader.

(** What [ydl.download([url])] did: it raised, or it came back, having
    written the output file or not. *)
Inductive YdlRun : Type :=
| YdlRaised
| YdlFinished (wrote : bool).

(** The [detail] of an [HTTPException]. *)
Inductive Detail : Type :=
| InvalidUrl                      (* "URL de YouTube inválida" *)
| DownloadError (no_file : bool)  (* f"Error al descargar video: {e}"; [true]
                                     when e is the FileNotFoundError of the
                                     function itself *)
| StrOf (e : exn).                (* str(e) *)

Inductive http (A : Type) : Type :=
| Respond (a : A)
| HTTPException (status_code : Z) (detail : Detail).
Arguments Respond {A} a.
Arguments HTTPException {A} status_code detail.

(** [output_path] is [join(tempfile.gettempdir(), f"yt_{uuid}.mp4")]. *)
Definition download_youtube_video (fs : gset string) (output_path : string)
    (ydl : YdlRun) (url : string) : http string * gset string :=
  match ydl with
  | YdlRaised => (HTTPException 500 (DownloadError false), fs)
  | YdlFinished wrote =>
      let fs := if wrote then {[output_path]} ∪ fs else fs in
      if negb (path_exists fs output_path)
      then (HTTPException 500 (DownloadError true), fs)
      else (Respond output_path, fs)
  end.

End YoutubeDownload.

(** ** app/api/youtube.py *)

Module YoutubeApi.
Import Text Uploader YoutubeDownload.

Record YouTubeRequest : Type := { url : string }.

(** The JSON body of a successful answer. *)
Record Body : Type := {
  status : string;
  public_url : option string;
  summary : list (string * Q);
  frames_analyzed : Z;
  duration_sec : Q;
  message : string
}.

(** What a request meets outside the program: the temporary path chosen
    for the download, what yt-dlp does, and the environment of the run
    (its [files] are those on disk before the download). *)
Record Server : Type := {
  download_path : string;
  ydl : YdlRun;
  env : VideoProcessor.Env
}.

(** The environment of [process_video] once the download is over. *)
Definition after_download (env : VideoProcessor.Env) (fs : gset string)
  : VideoProcessor.Env :=
  {| VideoProcessor.files := fs;
     VideoProcessor.capture := VideoProcessor.capture env;
     VideoProcessor.output_path := VideoProcessor.output_path env;
     VideoProcessor.writer_creates := VideoProcessor.writer_creates env;
     VideoProcessor.merge_run := VideoProcessor.merge_run env;
     VideoProcessor.compress_run := VideoProcessor.compress_run env;
     VideoProcessor.gcs := VideoProcessor.gcs env;
     VideoProcessor.elapsed := VideoProcessor.elapsed env |}.

(** The test of the URL, with Python's precedence of [not], [and], [or]. *)
Definition invalid_url (url : string) : bool :=
  negb (String.prefix "http" url)
  || (negb (contains url "youtube.com") && negb (contains url "youtu.be")).

Definition analyze_youtube_video (srv : Server) (request : YouTubeRequest)
  : http Body :=
  let url := strip (url request) in
  if invalid_url url then HTTPException 400 InvalidUrl
  else
    match download_youtube_video (VideoProcessor.files (env srv))
            (download_path srv) (ydl srv) url with
    | (HTTPException status_code detail, _) =>
        HTTPException status_code detail          (* except HTTPException: raise *)
    | (Respond video_path, fs) =>
        match VideoProcessor.process_video (after_download (env srv) fs) video_path with
        | Raise e => HTTPException 500 (StrOf e)  (* except Exception *)
        | Return run =>
            let result := VideoProcessor.result run in
            Respond {| status := "done";
                       public_url := VideoProcessor.public_url result;
                       summary := VideoProcessor.summary result;
                       frames_analyzed := VideoProcessor.frames_analyzed result;
                       duration_sec := VideoProcessor.duration_sec result;
                       message := "Video procesado y subido correctamente a GCS." |}
        end
    end.

End YoutubeApi.

(** ** Further sample inputs *)

Module MoreSamples.
Import Analyzer Uploader VideoProcessor YoutubeDownload YoutubeApi Samples.
Local Open Scope string_scope.

(** A picture with three faces; the first box starts beyond the right
    edge of the picture and comes with no confidence. *)
Definition group_photo : FileBytes :=
  {| decodes := true; rows := 480; cols := 640;
     mtcnn := Some [ FaceDict (Some (700, 10, 40, 40)) None;
                     FaceDict (Some (100, 50, 80, 90)) (Some (95 # 100)%Q);
                     FaceDict (Some (600, 400, 80, 100)) (Some (9 # 10)%Q) ];
     classifier := fun _ => Some happy_probs |}.

(** What [analyze_bytes] returns on it. *)
Definition group_analysis : Analysis :=
  {| num_faces := 2;
     results :=
       [ {| id := 2;
            bbox := [100; 50; 80; 90];
            emotion := "happy";
            confidence := (80 # 100)%Q;
            all_probs := zip CLASS_NAMES happy_probs |};
         {| id := 3;
            bbox := [600; 400; 80; 100];
            emotion := "happy";
            confidence := (80 # 100)%Q;
            all_probs := zip CLASS_NAMES happy_probs |} ] |}.

(** Scores with the maximum at two classes. *)
Definition tied_probs : list Q :=
  [10 # 100; 30 # 100; 30 # 100; 10 # 100; 10 # 100; 5 # 100; 5 # 100]%Q.

Definition tied_portrait : FileBytes :=
  {| decodes := true; rows := 480; cols := 640;
     mtcnn := mtcnn portrait;
     classifier := fun _ => Some tied_probs |}.

Definition tied_analysis : Analysis :=
  {| num_faces := 1;
     results :=
       [ {| id := 1;
            bbox := [100; 0; 80; 90];
            emotion := "disgust";
            confidence := (30 # 100)%Q;
            all_probs := zip CLASS_NAMES tied_probs |} ] |}.

(** The run on [clip_unencodable]. *)
Definition unencodable_capture : Capture :=
  {| CAP_PROP_FPS := 1; reads := clip_unencodable |}.

Definition unencodable_run : Run :=
  finish unencodable_env source (state_after 2 clip_unencodable).

(** The disk once the writer has produced its file. *)
Definition disk_after_loop : gset string :=
  {[ output_path clip_env ]} ∪ files clip_env.

(** A request for a video whose container reports a quarter of a frame
    per second; nothing is on disk before the download. *)
Definition slow_server : Server :=
  {| download_path := source;
     ydl := YdlFinished true;
     env := after_download slow_env ∅ |}.

Definition youtube_request : YouTubeRequest :=
  {| url := "  https://youtu.be/dQw4w9WgXcQ " |}.

End MoreSamples.

(** * Properties *)

(** ** The exception monad and the arithmetic on floats *)

Lemma bind_Return {A B} (m : outcome A) (f : A -> outcome B) (b : B) :
  (m ≫= f) = Return b -> exists a, m = Return a /\ f a = Return b.
Proof.
  destruct m as [a|e]; simpl; intros H; [eauto | discriminate].
Qed.

Ltac bind_inv H :=
  let a := fresh "a" in
  let Ha := fresh "Ha" in
  apply bind_Return in H; destruct H as (a & Ha & H).

Lemma index_Return {A} (l : list A) (i : nat) (a : A) :
  index l i = Return a <-> l !! i = Some a.
Proof.
  unfold index. destruct (l !! i); split; congruence.
Qed.

Lemma Qltb_lt x y : Qltb x y = true <-> (x < y)%Q.
Proof.
  unfold Qltb. rewrite Qlt_alt. destruct (x ?= y)%Q; split; congruence.
Qed.

Lemma Qltb_ge x y : Qltb x y = false <-> (y <= x)%Q.
Proof.
  rewrite <- not_true_iff_false, Qltb_lt. split.
  - apply Qnot_lt_le.
  - apply Qle_not_lt.
Qed.

(** [int] of a non-negative float is its floor. *)
Lemma int_of_float_Qfloor (x : Q) :
  (0 <= x)%Q -> int_of_float x = Qfloor x.
Proof.
  intros Hx. unfold int_of_float. destruct x as [n d]. cbn [Qnum Qden Qfloor].
  assert (Hn : 0 <= n).
  { unfold Qle in Hx. simpl in Hx. lia. }
  apply Z.quot_div_nonneg; lia.
Qed.

Lemma int_of_float_floor (x : Q) :
  (0 <= x)%Q ->
  (inject_Z (int_of_float x) <= x)%Q /\ (x < inject_Z (int_of_float x) + 1)%Q.
Proof.
  intros Hx. rewrite (int_of_float_Qfloor x Hx). split.
  - apply Qfloor_le.
  - eapply Qlt_le_trans; [apply Qlt_floor|].
    rewrite inject_Z_plus. apply Qle_refl.
Qed.

(** Rounding moves a number by at most one half ... *)
Lemma round_half_even_close (y : Q) :
  (Qabs (inject_Z (round_half_even y) - y) <= 1 # 2)%Q.
Proof.
  destruct y as [n d]. unfold round_half_even. cbn [Qnum Qden].
  pose proof (Z.div_mod n (Z.pos d) ltac:(lia)) as Hdm.
  pose proof (Z.mod_pos_bound n (Z.pos d) ltac:(lia)) as Hr.
  set (q := n / Z.pos d) in *. set (r := n mod Z.pos d) in *.
  assert (Hgoal : forall z, 2 * Z.abs (z * Z.pos d - n) <= Z.pos d ->
                            (Qabs (inject_Z z - (n # d)) <= 1 # 2)%Q).
  { intros z Hz. unfold Qminus, Qplus, Qopp, inject_Z, Qabs, Qle.
    cbn [Qnum Qden]. 
    replace (z * Z.pos d + - n * 1) with (z * Z.pos d - n) by lia.
    rewrite Pos.mul_1_l. lia. }
  apply Hgoal.
  destruct (Z.compare_spec (2 * r) (Z.pos d)) as [He|Hl|Hg].
  - destruct (Z.even q); nia.
  - nia.
  - nia.
Qed.

(** Rounding keeps a number between the integers that enclose it. *)
Lemma round_half_even_bounds (y : Q) (a b : Z) :
  (inject_Z a <= y)%Q -> (y <= inject_Z b)%Q ->
  a <= round_half_even y <= b.
Proof.
  destruct y as [n d]. unfold Qle, inject_Z, round_half_even. cbn [Qnum Qden].
  rewrite !Z.mul_1_r. intros Ha Hb.
  pose proof (Z.div_mod n (Z.pos d) ltac:(lia)) as Hdm.
  pose proof (Z.mod_pos_bound n (Z.pos d) ltac:(lia)) as Hr.
  set (q := n / Z.pos d) in *. set (r := n mod Z.pos d) in *.
  destruct (Z.compare_spec (2 * r) (Z.pos d)) as [He|Hl|Hg];
    [destruct (Z.even q)| |]; nia.
Qed.

(** *** Binary64 *)

Lemma pow2_pos (e : Z) : (0 < 2 ^ e)%Q.
Proof. apply Qpower_0_lt. reflexivity. Qed.

Lemma pow2_Z (e : Z) : 0 <= e -> (inject_Z (2 ^ e) == 2 ^ e)%Q.
Proof. intros He. rewrite Zpower_Qpower by exact He. reflexivity. Qed.

Lemma pow2_plus (a b : Z) : (2 ^ (a + b) == 2 ^ a * 2 ^ b)%Q.
Proof. apply Qpower_plus. discriminate. Qed.

Lemma pow2_lt_inv (a b : Z) : (2 ^ a < 2 ^ b)%Q -> a < b.
Proof.
  intros H. destruct (Z_lt_le_dec a b) as [Hlt|Hle]; [exact Hlt|].
  exfalso. apply (Qlt_not_le _ _ H).
  apply Qpower_le_compat_l; [exact Hle | discriminate].
Qed.

(** [ilog2] is the position of the leading bit. *)
Lemma ilog2_spec (x : Q) :
  (0 < x)%Q -> (2 ^ ilog2 x <= x)%Q /\ (x < 2 ^ (ilog2 x + 1))%Q.
Proof.
  intros Hx. unfold ilog2.
  destruct x as [n d]. cbn [Qnum Qden].
  assert (Hn : 0 < n) by (unfold Qlt in Hx; cbn in Hx; lia).
  destruct (Z.log2_spec n Hn) as [Hn1 Hn2].
  destruct (Z.log2_spec (Z.pos d) ltac:(lia)) as [Hd1 Hd2].
  pose proof (Z.log2_nonneg n) as Ha.
  pose proof (Z.log2_nonneg (Z.pos d)) as Hb.
  set (a := Z.log2 n) in *. set (b := Z.log2 (Z.pos d)) in *.
  assert (Hd : (0 < inject_Z (Z.pos d))%Q) by reflexivity.
  assert (Hq : (n # d == inject_Z n / inject_Z (Z.pos d))%Q)
    by apply Qmake_Qdiv.
  assert (Hlow : (2 ^ (a - b - 1) <= n # d)%Q).
  { rewrite Hq. apply Qle_shift_div_l; [exact Hd|].
    apply Qle_trans with (2 ^ (a - b - 1) * 2 ^ (b + 1))%Q.
    - apply Qmult_le_l; [apply pow2_pos|].
      rewrite <- pow2_Z by lia. rewrite <- Zle_Qle.
      replace (b + 1) with (Z.succ b) by lia. lia.
    - rewrite <- pow2_plus. replace (a - b - 1 + (b + 1)) with a by lia.
      rewrite <- pow2_Z by lia. rewrite <- Zle_Qle. exact Hn1. }
  assert (Hhigh : (n # d < 2 ^ (a - b + 1))%Q).
  { rewrite Hq. apply Qlt_shift_div_r; [exact Hd|].
    apply Qlt_le_trans with (2 ^ (a - b + 1) * 2 ^ b)%Q.
    - rewrite <- pow2_plus. replace (a - b + 1 + b) with (Z.succ a) by lia.
      rewrite <- pow2_Z by lia. rewrite <- Zlt_Qlt. exact Hn2.
    - apply Qmult_le_l; [apply pow2_pos|].
      rewrite <- pow2_Z by lia. rewrite <- Zle_Qle. exact Hd1. }
  destruct (Qle_bool (2 ^ (a - b)) (n # d)) eqn:E.
  - split; [apply Qle_bool_iff; exact E | exact Hhigh].
  - split; [exact Hlow|].
    replace (a - b - 1 + 1) with (a - b) by lia.
    apply Qnot_le_lt. intros H. apply Qle_bool_iff in H. congruence.
Qed.

Lemma ilog2_zero (x : Q) : (x == 0)%Q -> ilog2 x <= -1.
Proof.
  intros Hx. unfold ilog2. destruct x as [n d].
  assert (n = 0) by (unfold Qeq in Hx; cbn in Hx; lia). subst n.
  cbn [Qnum Qden]. change (Z.log2 0) with 0.
  pose proof (Z.log2_nonneg (Z.pos d)).
  destruct (Qle_bool _ _) eqn:E; [|lia].
  apply Qle_bool_iff in E. exfalso.
  apply (Qlt_not_le _ _ (pow2_pos (0 - Z.log2 (Z.pos d)))).
  eapply Qle_trans; [exact E|]. rewrite Hx. apply Qle_refl.
Qed.

(** Below [2 ^ (k + 1)] the last place is at [k - 52] or lower. *)
Lemma ulp_exp_le (x : Q) (k : Z) :
  (0 <= x)%Q -> (x < 2 ^ (k + 1))%Q -> -1 <= k -> ulp_exp x <= k - 52.
Proof.
  intros H0 Hk Hk1. unfold ulp_exp.
  assert (Habs : Qabs x = x).
  { destruct x as [n d]. unfold Qabs. f_equal. apply Z.abs_eq.
    unfold Qle in H0. cbn in H0. lia. }
  rewrite Habs.
  assert (ilog2 x <= k); [|lia].
  destruct (Qle_lt_or_eq _ _ H0) as [Hpos|Hz].
  - destruct (ilog2_spec x Hpos) as [Hlo _].
    assert (ilog2 x < k + 1); [|lia].
    apply pow2_lt_inv. eapply Qle_lt_trans; eassumption.
  - pose proof (ilog2_zero x ltac:(symmetry; exact Hz)). lia.
Qed.

Lemma b64_eq (x : Q) :
  (b64 x - x ==
   (inject_Z (round_half_even (x / 2 ^ ulp_exp x)) - x / 2 ^ ulp_exp x)
   * 2 ^ ulp_exp x)%Q.
Proof.
  unfold b64. cbv zeta. field.
  apply Qpower_not_0. discriminate.
Qed.

(** The nearest double is within half a unit of the last place. *)
Lemma b64_close (x : Q) :
  (Qabs (b64 x - x) <= (1 # 2) * 2 ^ ulp_exp x)%Q.
Proof.
  rewrite b64_eq, Qabs_Qmult.
  rewrite (Qabs_pos (2 ^ ulp_exp x)) by (apply Qlt_le_weak, pow2_pos).
  apply Qmult_le_compat_r; [apply round_half_even_close|].
  apply Qlt_le_weak, pow2_pos.
Qed.

Lemma b64_close_below (x : Q) (k : Z) :
  (0 <= x)%Q -> (x < 2 ^ (k + 1))%Q -> -1 <= k ->
  (Qabs (b64 x - x) <= 2 ^ (k - 53))%Q.
Proof.
  intros H0 Hk Hk1.
  eapply Qle_trans; [apply b64_close|].
  pose proof (ulp_exp_le x k H0 Hk Hk1) as He.
  apply Qle_trans with ((1 # 2) * 2 ^ (k - 52))%Q.
  - apply Qmult_le_l; [reflexivity|].
    apply Qpower_le_compat_l; [exact He | discriminate].
  - replace (k - 52) with (1 + (k - 53)) by lia.
    rewrite pow2_plus. change (2 ^ 1)%Q with 2%Q.
    rewrite Qmult_assoc.
    setoid_replace ((1 # 2) * 2)%Q with 1%Q using relation Qeq by reflexivity.
    rewrite Qmult_1_l. apply Qle_refl.
Qed.

(** A double between 0 and an integer below [2 ^ 53] stays there. *)
Lemma b64_between (x : Q) (B : Z) :
  (0 <= x)%Q -> (x <= inject_Z B)%Q -> B < 2 ^ 53 ->
  (0 <= b64 x)%Q /\ (b64 x <= inject_Z B)%Q.
Proof.
  intros H0 HB Hlt.
  assert (He : ulp_exp x <= 0).
  { change 0 with (52 - 52). apply ulp_exp_le; [exact H0| |lia].
    eapply Qle_lt_trans; [exact HB|].
    change (52 + 1) with 53. rewrite <- pow2_Z by lia.
    rewrite <- Zlt_Qlt. exact Hlt. }
  set (e := ulp_exp x) in *.
  assert (Hinv : (2 ^ (- e) * 2 ^ e == 1)%Q).
  { rewrite <- pow2_plus. replace (- e + e) with 0 by lia. reflexivity. }
  assert (Hdiv : (x / 2 ^ e == x * 2 ^ (- e))%Q).
  { unfold Qdiv. rewrite Qpower_opp. reflexivity. }
  destruct (round_half_even_bounds (x / 2 ^ e) 0 (B * 2 ^ (- e))) as [Hlo Hhi].
  - rewrite Hdiv. apply Qmult_le_0_compat; [exact H0|].
    apply Qlt_le_weak, pow2_pos.
  - rewrite Hdiv, inject_Z_mult, pow2_Z by lia.
    apply Qmult_le_compat_r; [exact HB|]. apply Qlt_le_weak, pow2_pos.
  - unfold b64. fold e. split.
    + apply Qmult_le_0_compat; [|apply Qlt_le_weak, pow2_pos].
      change 0%Q with (inject_Z 0). rewrite <- Zle_Qle. exact Hlo.
    + apply Qle_trans with (inject_Z (B * 2 ^ (- e)) * 2 ^ e)%Q.
      * apply Qmult_le_compat_r; [|apply Qlt_le_weak, pow2_pos].
        rewrite <- Zle_Qle. exact Hhi.
      * rewrite inject_Z_mult, pow2_Z by lia.
        rewrite <- Qmult_assoc, Hinv, Qmult_1_r. apply Qle_refl.
Qed.

(** The float of the literal [0.85]. *)
Lemma float_085 :
  (b64 (85 # 100) == 7656119366529843 # 9007199254740992)%Q.
Proof. vm_compute. reflexivity. Qed.

Lemma float_085_below :
  (7656119366529843 # 9007199254740992 < 85 # 100)%Q /\
  ((85 # 100) - (7656119366529843 # 9007199254740992)
   < 1 # 10000000000000000)%Q.
Proof. split; vm_compute; reflexivity. Qed.

Lemma Qabs_bounds (x y : Q) : (Qabs x <= y)%Q <-> (- y <= x)%Q /\ (x <= y)%Q.
Proof. apply Qabs_Qle_condition. Qed.

(** Rounding a double between 0 and 100 to two decimals: the result is
    the double next to a number of hundredths that is within 0.005. *)
Lemma round2_cents (x : Q) :
  (0 <= x)%Q -> (x <= 100)%Q ->
  0 <= round_half_even (x * 100) <= 10000 /\
  (Qabs ((round_half_even (x * 100) # 100) - x) <= 1 # 200)%Q /\
  (Qabs (round2 x - (round_half_even (x * 100) # 100))
   <= 1 # 140737488355328)%Q /\
  (0 <= round2 x)%Q /\ (round2 x <= 100)%Q.
Proof.
  intros H0 H100.
  pose proof (round_half_even_close (x * 100)) as Hc.
  destruct (round_half_even_bounds (x * 100) 0 10000) as [Hlo Hhi].
  { change (inject_Z 0) with 0%Q. lra. }
  { change (inject_Z 10000) with 10000%Q. lra. }
  unfold round2. set (n := round_half_even (x * 100)) in *.
  assert (En : (n # 100 == inject_Z n * (1 # 100))%Q).
  { unfold Qeq, Qmult, inject_Z. cbn [Qnum Qden]. lia. }
  assert (Hn0 : (0 <= inject_Z n)%Q)
    by (change 0%Q with (inject_Z 0); rewrite <- Zle_Qle; exact Hlo).
  assert (Hn1 : (inject_Z n <= 10000)%Q)
    by (change 10000%Q with (inject_Z 10000); rewrite <- Zle_Qle; exact Hhi).
  assert (Hc0 : (0 <= n # 100)%Q) by (rewrite En; lra).
  assert (Hc1 : (n # 100 <= 100)%Q) by (rewrite En; lra).
  split; [lia|]. split.
  { apply Qabs_bounds in Hc. apply Qabs_bounds. rewrite En. lra. }
  split.
  { pose proof (b64_close_below (n # 100) 6 Hc0) as Hb.
    change (2 ^ (6 + 1))%Q with 128%Q in Hb.
    change (2 ^ (6 - 53))%Q with (1 # 140737488355328)%Q in Hb.
    apply Hb; [lra | lia]. }
  apply (b64_between (n # 100) 100 Hc0); [exact Hc1 | reflexivity].
Qed.

(** One value of the summary. For a count [v] out of a total [t], the
    float [round((v / t) * 100, 2)] is the double next to a number of
    hundredths that is within 0.005 of the exact percentage, up to the
    error of the two float operations. *)
Lemma percentage_close (v t : Z) :
  0 <= v <= t -> 0 < t ->
  exists n : Z,
    0 <= n <= 10000 /\
    (Qabs (round2 (float_mul (float_div (inject_Z v) (inject_Z t)) 100)
           - (n # 100)) <= 1 # 1000000000000)%Q /\
    (Qabs ((n # 100) - inject_Z v / inject_Z t * 100)
     <= (1 # 200) + (1 # 1000000000000))%Q /\
    (0 <= round2 (float_mul (float_div (inject_Z v) (inject_Z t)) 100))%Q /\
    (round2 (float_mul (float_div (inject_Z v) (inject_Z t)) 100) <= 100)%Q.
Proof.
  intros Hv Ht.
  assert (Ht' : (0 < inject_Z t)%Q)
    by (change 0%Q with (inject_Z 0); rewrite <- Zlt_Qlt; exact Ht).
  assert (Hx0 : (0 <= inject_Z v / inject_Z t)%Q).
  { apply Qle_shift_div_l; [exact Ht'|]. rewrite Qmult_0_l.
    change 0%Q with (inject_Z 0). rewrite <- Zle_Qle. lia. }
  assert (Hx1 : (inject_Z v / inject_Z t <= 1)%Q).
  { apply Qle_shift_div_r; [exact Ht'|]. rewrite Qmult_1_l.
    rewrite <- Zle_Qle. lia. }
  unfold float_mul, float_div.
  set (x := (inject_Z v / inject_Z t)%Q) in *.
  destruct (b64_between x 1 Hx0 Hx1 ltac:(reflexivity)) as [Hq0 Hq1].
  change (inject_Z 1) with 1%Q in Hq1.
  pose proof (b64_close_below x 0 Hx0) as Hq.
  change (2 ^ (0 + 1))%Q with 2%Q in Hq.
  change (2 ^ (0 - 53))%Q with (1 # 9007199254740992)%Q in Hq.
  specialize (Hq ltac:(lra) ltac:(lia)).
  set (q := b64 x) in *.
  assert (Hy0 : (0 <= q * 100)%Q) by lra.
  assert (Hy1 : (q * 100 <= inject_Z 100)%Q)
    by (change (inject_Z 100) with 100%Q; lra).
  destruct (b64_between (q * 100) 100 Hy0 Hy1 ltac:(reflexivity)) as [Hp0 Hp1].
  change (inject_Z 100) with 100%Q in Hp1, Hy1.
  pose proof (b64_close_below (q * 100) 6 Hy0) as Hp.
  change (2 ^ (6 + 1))%Q with 128%Q in Hp.
  change (2 ^ (6 - 53))%Q with (1 # 140737488355328)%Q in Hp.
  specialize (Hp ltac:(lra) ltac:(lia)).
  set (p := b64 (q * 100)) in *.
  destruct (round2_cents p Hp0 Hp1) as (Hn & Hc & Hr & Hr0 & Hr1).
  exists (round_half_even (p * 100)).
  split; [exact Hn|].
  apply Qabs_bounds in Hq, Hp, Hc, Hr.
  split; [apply Qabs_bounds; lra|].
  split; [apply Qabs_bounds; lra|].
  split; assumption.
Qed.

(** Counting the multiples of [n] up to [p + 1]. *)
Lemma sampled_div (p n : Z) :
  0 < n -> 
  (p + 1) / n = p / n + (if (p + 1) mod n =? 0 then 1 else 0).
Proof.
  intros Hn.
  pose proof (Z.div_mod p n ltac:(lia)) as Hp.
  pose proof (Z.mod_pos_bound p n Hn) as Hr.
  pose proof (Z.div_mod (p+1) n ltac:(lia)) as Hp1.
  pose proof (Z.mod_pos_bound (p+1) n Hn) as Hr1.
  destruct ((p + 1) mod n =? 0) eqn:E.
  - apply Z.eqb_eq in E. nia.
  - apply Z.eqb_neq in E. nia.
Qed.

(** ** analyzer.py *)

Module AnalyzerFacts.
Import Analyzer.

(** Every box [detect_faces] keeps comes from a detector item that passes
    both thresholds, with its origin clamped. *)
Lemma keep_boxes_origin (detections : list MtcnnItem) (b : Box) :
  In b (keep_boxes detections) ->
  exists x y w h conf,
    In (FaceDict (Some (x, y, w, h)) conf) detections /\
    below_confidence conf = false /\
    30 <= w /\ 30 <= h /\
    b = (Z.max 0 x, Z.max 0 y, w, h).
Proof.
  induction detections as [|det rest IH]; simpl; [tauto|].
  destruct det as [|[[[[x y] w] h]|] conf].
  - intros Hb. destruct (IH Hb) as (x & y & w & h & c & Hin & ?).
    exists x, y, w, h, c. tauto.
  - destruct (below_confidence conf) eqn:Hc.
    + intros Hb. destruct (IH Hb) as (x' & y' & w' & h' & c & Hin & ?).
      exists x', y', w', h', c. tauto.
    + destruct ((Z.max 1 w <? 30) || (Z.max 1 h <? 30)) eqn:Hs.
      * intros Hb. destruct (IH Hb) as (x' & y' & w' & h' & c & Hin & ?).
        exists x', y', w', h', c. tauto.
      * apply orb_false_elim in Hs. destruct Hs as [Hw Hh].
        apply Z.ltb_ge in Hw, Hh.
        intros [Hb|Hb].
        -- exists x, y, w, h, conf. subst b.
           replace (Z.max 1 w) with w by lia.
           replace (Z.max 1 h) with h by lia.
           repeat split; auto; lia.
        -- destruct (IH Hb) as (x' & y' & w' & h' & c & Hin & ?).
           exists x', y', w', h', c. tauto.
  - intros Hb. destruct (IH Hb) as (x & y & w & h & c & Hin & ?).
    exists x, y, w, h, c. tauto.
Qed.

Lemma below_confidence_false (conf : option Q) :
  below_confidence conf = false <->
  (forall c, conf = Some c -> (7656119366529843 # 9007199254740992 <= c)%Q).
Proof.
  destruct conf as [c|]; cbn [below_confidence].
  - rewrite Qltb_ge, float_085. split.
    + intros H c' [= <-]. exact H.
    + intros H. apply H. reflexivity.
  - split; [intros _ c; discriminate | reflexivity].
Qed.

(** [np.argmax] returns a position that holds a largest entry, and no
    earlier position holds one as large. *)
Lemma argmax_from_spec (l : list Q) (pre : list Q) (best : Q) (best_i : nat) :
  pre !! best_i = Some best ->
  Forall (fun p => (p <= best)%Q) pre ->
  (forall j q, (j < best_i)%nat -> pre !! j = Some q -> (q < best)%Q) ->
  let k := argmax_from best_i best (List.length pre) l in
  exists m, (pre ++ l) !! k = Some m /\
            Forall (fun p => (p <= m)%Q) (pre ++ l) /\
            (forall j q, (j < k)%nat -> (pre ++ l) !! j = Some q -> (q < m)%Q).
Proof.
  revert pre best best_i.
  induction l as [|p rest IH]; intros pre best best_i Hbest Hmax Hfirst; simpl.
  - rewrite app_nil_r. eauto.
  - destruct (Qltb best p) eqn:Hlt.
    + apply Qltb_lt in Hlt.
      specialize (IH (pre ++ [p]) p (List.length pre)).
      rewrite length_app, Nat.add_1_r in IH. simpl in IH.
      rewrite <- app_assoc in IH. simpl in IH. apply IH.
      * rewrite lookup_app_r by lia. rewrite Nat.sub_diag. reflexivity.
      * apply Forall_app. split.
        -- eapply Forall_impl; [exact Hmax|]. simpl. intros q Hq.
           apply Qlt_le_weak. eapply Qle_lt_trans; eauto.
        -- constructor; [apply Qle_refl | constructor].
      * intros j q Hj Hq. rewrite lookup_app_l in Hq by lia.
        rewrite Forall_forall in Hmax.
        eapply Qle_lt_trans; [|exact Hlt]. apply Hmax.
        eapply list_elem_of_lookup_2; eauto.
    + apply Qltb_ge in Hlt.
      specialize (IH (pre ++ [p]) best best_i).
      rewrite length_app, Nat.add_1_r in IH. simpl in IH.
      rewrite <- app_assoc in IH. simpl in IH. apply IH.
      * apply lookup_lt_Some in Hbest as Hlen.
        rewrite lookup_app_l by lia. exact Hbest.
      * apply Forall_app. split; [exact Hmax|].
        constructor; [exact Hlt | constructor].
      * intros j q Hj Hq. apply lookup_lt_Some in Hbest as Hlen.
        rewrite lookup_app_l in Hq by lia. eauto.
Qed.

Lemma argmax_spec (probs : list Q) (idx : nat) :
  argmax probs = Return idx ->
  exists m, probs !! idx = Some m /\
            Forall (fun p => (p <= m)%Q) probs /\
            (forall j q, (j < idx)%nat -> probs !! j = Some q -> (q < m)%Q).
Proof.
  destruct probs as [|p rest]; simpl; [discriminate|].
  intros [= <-].
  apply (argmax_from_spec rest [p] p 0%nat).
  - reflexivity.
  - constructor; [apply Qle_refl | constructor].
  - intros j q Hj. lia.
Qed.

(** The dict comprehension pairs the names with the entries of [probs]
    from position [j] on. *)
Lemma probs_dict_spec (names : list string) (j : nat) (probs : list Q)
    (d : list (string * Q)) :
  probs_dict names j probs = Return d ->
  d = zip names (drop j probs) /\ map fst d = names.
Proof.
  revert j d. induction names as [|name names IH]; intros j d; simpl.
  - intros [= <-]. split; reflexivity.
  - intros H. bind_inv H. bind_inv H. injection H as <-.
    apply index_Return in Ha. apply IH in Ha0 as [-> Hfst].
    rewrite (drop_S _ _ _ Ha). simpl. rewrite Hfst. split; reflexivity.
Qed.

(** What the loop over the boxes appends, when no face raises. *)
Lemma classify_faces_spec (img_rgb : FileBytes) (bboxes : list Box) (i : nat)
    (ds : list Detection) :
  classify_faces img_rgb i bboxes = Return ds ->
  Forall (fun d =>
    exists x y w h probs idx,
      In (x, y, w, h) bboxes /\
      bbox d = [x; y; w; h] /\
      classifier img_rgb (x, y, w, h) = Some probs /\
      argmax probs = Return idx /\
      CLASS_NAMES !! idx = Some (emotion d) /\
      probs !! idx = Some (confidence d) /\
      probs_dict CLASS_NAMES 0 probs = Return (all_probs d)) ds.
Proof.
  revert i ds.
  induction bboxes as [|[[[x y] w] h] rest IH]; intros i ds;
    cbn [classify_faces].
  - intros [= <-]. constructor.
  - destruct (roi_size img_rgb (x, y, w, h) =? 0).
    + intros H. apply IH in H. eapply Forall_impl; [exact H|]. cbv beta.
      intros d (x' & y' & w' & h' & probs & idx & Hin & Hd).
      exists x', y', w', h', probs, idx. split; [right; exact Hin | exact Hd].
    + destruct (classifier img_rgb (x, y, w, h)) as [probs|] eqn:Hcl;
        [|discriminate].
      intros H.
      bind_inv H. rename a into probs', Ha into Hp. injection Hp as <-.
      bind_inv H. rename a into idx, Ha into Hidx.
      bind_inv H. rename a into e, Ha into He.
      bind_inv H. rename a into c, Ha into Hc.
      bind_inv H. rename a into ap, Ha into Hap.
      bind_inv H. rename a into tail, Ha into Htail.
      injection H as <-.
      apply index_Return in He, Hc.
      constructor.
      * exists x, y, w, h, probs, idx.
        cbn [bbox emotion confidence all_probs].
        split; [left; reflexivity | tauto].
      * apply IH in Htail. eapply Forall_impl; [exact Htail|]. cbv beta.
        intros d (x' & y' & w' & h' & probs' & idx' & Hin & Hd).
        exists x', y', w', h', probs', idx'.
        split; [right; exact Hin | exact Hd].
Qed.

Lemma analyze_bytes_results (file_bytes : FileBytes) (res : Analysis) :
  analyze_bytes file_bytes = Return res ->
  num_faces res = Z.of_nat (List.length (results res)) /\
  exists i, classify_faces file_bytes i (detect_faces file_bytes)
            = Return (results res).
Proof.
  unfold analyze_bytes, read_image_to_rgb.
  destruct (decodes file_bytes); simpl; [|discriminate].
  destruct (detect_faces file_bytes) as [|b bs] eqn:Hdet.
  - intros [= <-]. simpl. split; [reflexivity|]. exists 0%nat. reflexivity.
  - intros H. bind_inv H. injection H as <-. simpl.
    split; [reflexivity|]. exists 0%nat. exact Ha.
Qed.

(** With a classifier that raises on every face, [analyze_bytes] raises or
    finds nothing. *)
Lemma classify_faces_model_down (img_rgb : FileBytes) (bboxes : list Box)
    (i : nat) (ds : list Detection) :
  (forall roi, classifier img_rgb roi = None) ->
  classify_faces img_rgb i bboxes = Return ds -> ds = [].
Proof.
  intros Hdown. revert i.
  induction bboxes as [|[[[x y] w] h] rest IH]; intros i;
    cbn [classify_faces].
  - intros [= <-]. reflexivity.
  - destruct (roi_size img_rgb (x, y, w, h) =? 0); [apply IH|].
    rewrite Hdown. discriminate.
Qed.

Lemma analyze_bytes_model_down (file_bytes : FileBytes) (res : Analysis) :
  (forall roi, classifier file_bytes roi = None) ->
  analyze_bytes file_bytes = Return res -> results res = [].
Proof.
  intros Hdown H. apply analyze_bytes_results in H as [_ [i H]].
  exact (classify_faces_model_down _ _ _ _ Hdown H).
Qed.

(** C4. Every detection in the results of an analyzed image comes from a
    detector box whose confidence, when the detector reports one, is at
    least 0.85 and whose width and height are at least 30 pixels: a box
    below one of the thresholds is never surfaced. The origin of a surfaced
    box is the detector's origin clamped at zero, so it is non-negative.
    The 0.85 of the comparison is the float of that literal, the double
    7656119366529843 / 2^53, which lies below the decimal by less than
    10^-16; a confidence equal to that double is not below it. *)
Theorem noise_boxes_never_surfaced (file_bytes : FileBytes) (res : Analysis) :
  analyze_bytes file_bytes = Return res ->
  Forall (fun d =>
    exists detections x y w h conf,
      mtcnn file_bytes = Some detections /\
      In (FaceDict (Some (x, y, w, h)) conf) detections /\
      (forall c, conf = Some c ->
                 (7656119366529843 # 9007199254740992 <= c)%Q) /\
      30 <= w /\ 30 <= h /\
      bbox d = [Z.max 0 x; Z.max 0 y; w; h] /\
      0 <= Z.max 0 x /\ 0 <= Z.max 0 y) (results res).
Proof.
  intros H. apply analyze_bytes_results in H as [_ [i H]].
  apply classify_faces_spec in H.
  eapply Forall_impl; [exact H|]. cbv beta.
  intros d (x & y & w & h & probs & idx & Hin & Hbox & _).
  unfold detect_faces in Hin.
  destruct (mtcnn file_bytes) as [detections|] eqn:Hm; [|contradiction].
  apply keep_boxes_origin in Hin
    as (x0 & y0 & w0 & h0 & conf & Hin & Hconf & Hw & Hh & Heq).
  injection Heq as -> -> -> ->.
  exists detections, x0, y0, w0, h0, conf.
  rewrite below_confidence_false in Hconf.
  repeat split; auto; lia.
Qed.

Lemma noise_boxes_never_surfaced_witness :
  analyze_bytes Samples.portrait = Return Samples.portrait_analysis /\
  Forall (fun d =>
    exists detections x y w h conf,
      mtcnn Samples.portrait = Some detections /\
      In (FaceDict (Some (x, y, w, h)) conf) detections /\
      (forall c, conf = Some c ->
                 (7656119366529843 # 9007199254740992 <= c)%Q) /\
      30 <= w /\ 30 <= h /\
      bbox d = [Z.max 0 x; Z.max 0 y; w; h] /\
      0 <= Z.max 0 x /\ 0 <= Z.max 0 y) (results Samples.portrait_analysis).
Proof.
  assert (H : analyze_bytes Samples.portrait = Return Samples.portrait_analysis)
    by (vm_compute; reflexivity).
  split; [exact H|].
  exact (noise_boxes_never_surfaced Samples.portrait Samples.portrait_analysis H).
Defined.

(** C10. A successful [analyze_bytes] returns a record whose [num_faces] is
    the length of [results]; each result's [all_probs] has exactly the seven
    class labels, in order, paired with the seven leading entries of the
    softmax vector of the face in its box; [emotion] is the class at the
    arg-max of that vector and [confidence] the entry there, so it is the
    largest value in the vector and in [all_probs], and lies in [0,1] when
    the softmax entries do. *)
Theorem analyze_bytes_record_shape (file_bytes : FileBytes) (res : Analysis) :
  analyze_bytes file_bytes = Return res ->
  num_faces res = Z.of_nat (List.length (results res)) /\
  Forall (fun d =>
    map fst (all_probs d) = CLASS_NAMES /\
    exists x y w h probs idx,
      bbox d = [x; y; w; h] /\
      classifier file_bytes (x, y, w, h) = Some probs /\
      argmax probs = Return idx /\
      CLASS_NAMES !! idx = Some (emotion d) /\
      probs !! idx = Some (confidence d) /\
      Forall (fun p => (p <= confidence d)%Q) probs /\
      all_probs d = zip CLASS_NAMES probs /\
      In (emotion d, confidence d) (all_probs d) /\
      Forall (fun kv => (snd kv <= confidence d)%Q) (all_probs d) /\
      (Forall (fun p => (0 <= p <= 1)%Q) probs ->
       (0 <= confidence d <= 1)%Q)) (results res).
Proof.
  intros H. apply analyze_bytes_results in H as [Hn [i H]].
  split; [exact Hn|].
  apply classify_faces_spec in H.
  eapply Forall_impl; [exact H|]. cbv beta.
  intros d (x & y & w & h & probs & idx & _ & Hbox & Hcl & Hidx & He & Hc & Hap).
  apply probs_dict_spec in Hap as [Hzip Hfst]. rewrite drop_0 in Hzip.
  split; [exact Hfst|].
  exists x, y, w, h, probs, idx.
  destruct (argmax_spec _ _ Hidx) as (m & Hm & Hmax & _).
  rewrite Hc in Hm. injection Hm as <-.
  repeat split; auto.
  - rewrite Hzip. apply list_elem_of_In.
    apply list_elem_of_lookup. exists idx.
    apply lookup_zip_with_Some. eauto.
  - rewrite Hzip. apply Forall_forall. intros [k v] Hkv.
    apply list_elem_of_lookup in Hkv as [j Hj].
    apply lookup_zip_with_Some in Hj as (k' & v' & [= <- <-] & _ & Hv).
    simpl. rewrite Forall_forall in Hmax. apply Hmax.
    eapply list_elem_of_lookup_2; eauto.
  - rewrite Forall_forall in H0. apply H0.
    eapply list_elem_of_lookup_2; eauto.
  - rewrite Forall_forall in H0. apply H0.
    eapply list_elem_of_lookup_2; eauto.
Qed.

Lemma analyze_bytes_record_shape_witness :
  analyze_bytes Samples.portrait = Return Samples.portrait_analysis /\
  num_faces Samples.portrait_analysis
  = Z.of_nat (List.length (results Samples.portrait_analysis)).
Proof.
  assert (H : analyze_bytes Samples.portrait = Return Samples.portrait_analysis)
    by (vm_compute; reflexivity).
  split; [exact H|].
  exact (proj1 (analyze_bytes_record_shape
                  Samples.portrait Samples.portrait_analysis H)).
Defined.

End AnalyzerFacts.

(** ** video_processor.py *)

Module VideoProcessorFacts.
Import Analyzer Uploader VideoProcessor Observations.

(** *** One iteration *)

Lemma process_frame_decoded (n : Z) (frame : Frame) (st : LoopState) :
  n <> 0 ->
  process_frame n (Decoded frame) st =
  Return (if negb ((processed_frames st + 1) mod n =? 0)
          then persist_frame frame (count_frame st)
          else analyze_frame frame (count_frame st)).
Proof.
  intros Hn. unfold process_frame, py_mod.
  apply Z.eqb_neq in Hn. rewrite Hn. cbn.
  destruct ((processed_frames st + 1) mod n =? 0); reflexivity.
Qed.

Lemma process_frame_zero (frame : Frame) (st : LoopState) :
  process_frame 0 (Decoded frame) st = Raise ZeroDivisionError.
Proof. reflexivity. Qed.

Lemma process_frame_total (n : Z) (r : Read) (st : LoopState) :
  n <> 0 -> exists st', process_frame n r st = Return st'.
Proof.
  intros Hn. destruct r as [|frame].
  - exists st. reflexivity.
  - rewrite process_frame_decoded by exact Hn. eauto.
Qed.

Lemma frame_loop_total (n : Z) (reads : list Read) (st : LoopState) :
  n <> 0 -> exists st', frame_loop n reads st = Return st'.
Proof.
  intros Hn. revert st. induction reads as [|r rest IH]; intros st.
  - exists st. reflexivity.
  - cbn [frame_loop]. destruct (process_frame_total n r st Hn) as [st1 H1].
    rewrite H1. cbn. apply IH.
Qed.

Lemma frame_loop_cons (n : Z) (r : Read) (rest : list Read) (st st' : LoopState) :
  frame_loop n (r :: rest) st = Return st' ->
  exists st1, process_frame n r st = Return st1 /\ frame_loop n rest st1 = Return st'.
Proof. cbn [frame_loop]. intros H. bind_inv H. eauto. Qed.

(** A loop that ran over a decoded frame had a non-zero interval. *)
Lemma process_frame_returns (n : Z) (frame : Frame) (st st' : LoopState) :
  process_frame n (Decoded frame) st = Return st' -> n <> 0.
Proof.
  intros H ->. rewrite process_frame_zero in H. discriminate.
Qed.

Lemma analyze_frame_counters (frame : Frame) (st : LoopState) :
  processed_frames (analyze_frame frame st) = processed_frames st /\
  analyzed_frames (analyze_frame frame st) = analyzed_frames st + 1.
Proof.
  unfold analyze_frame.
  destruct (jpeg frame) as [buffer|]; [|split; reflexivity].
  destruct (analyze_bytes buffer) as [res|e]; [|split; reflexivity].
  destruct (results res) as [|d ds]; [split; reflexivity|].
  destruct (draw_and_count (d :: ds) [] (emotion_counts st)).
  split; reflexivity.
Qed.

(** The stored detections after an analyzed frame: the fresh ones when
    there are any, the previous ones otherwise. *)
Lemma analyze_frame_last (frame : Frame) (st : LoopState) :
  last_detections (analyze_frame frame st) =
  match fresh_detections frame with
  | [] => last_detections st
  | detections => detections
  end.
Proof.
  unfold analyze_frame, fresh_detections.
  destruct (jpeg frame) as [buffer|]; [|reflexivity].
  destruct (analyze_bytes buffer) as [res|e]; [|reflexivity].
  destruct (results res) as [|d ds]; [reflexivity|].
  destruct (draw_and_count (d :: ds) [] (emotion_counts st)).
  reflexivity.
Qed.

(** *** The counters of the loop *)

Lemma frame_loop_processed (n : Z) (reads : list Read) (st st' : LoopState) :
  frame_loop n reads st = Return st' ->
  processed_frames st' =
  processed_frames st + Z.of_nat (List.length (decoded reads)).
Proof.
  revert st. induction reads as [|r rest IH]; intros st H.
  - injection H as <-. cbn. lia.
  - apply frame_loop_cons in H as (st1 & H1 & H2).
    apply IH in H2. destruct r as [|frame].
    + injection H1 as <-. exact H2.
    + pose proof (process_frame_returns _ _ _ _ H1) as Hn.
      rewrite process_frame_decoded in H1 by exact Hn. injection H1 as <-.
      rewrite H2. cbn [decoded List.length].
      destruct (negb _).
      * cbn. lia.
      * rewrite (proj1 (analyze_frame_counters _ _)). cbn. lia.
Qed.

(** *** The emotion counters *)

Lemma dict_has_In {V} (d : list (string * V)) (k : string) :
  dict_has d k = true <-> In k (map fst d).
Proof.
  unfold dict_has. rewrite existsb_exists. split.
  - intros ([k' v] & Hin & Heq). apply String.eqb_eq in Heq. simpl in Heq.
    subst k'. apply in_map_iff. exists (k, v). split; [reflexivity | exact Hin].
  - intros Hin. apply in_map_iff in Hin as ([k' v] & Heq & Hin).
    simpl in Heq. subst k'. exists (k, v). split; [exact Hin|].
    apply String.eqb_refl.
Qed.

Lemma dict_incr_keys (d : list (string * Z)) (k : string) :
  map fst (dict_incr d k) = map fst d.
Proof.
  induction d as [|[k' v] d IH]; [reflexivity|]. cbn [dict_incr].
  destruct (String.eqb k' k); cbn [map fst]; [reflexivity|].
  rewrite IH. reflexivity.
Qed.

Lemma dict_incr_sum (d : list (string * Z)) (k : string) :
  In k (map fst d) -> sum_values (dict_incr d k) = sum_values d + 1.
Proof.
  induction d as [|[k' v] d IH]; [intros []|]. cbn [dict_incr map fst In].
  destruct (String.eqb_spec k' k) as [->|Hne]; cbn [sum_values].
  - intros _. lia.
  - intros [Heq|Hin]; [contradiction|]. rewrite (IH Hin). lia.
Qed.

Lemma draw_and_count_keys (dets : list Detection) (canvas : list Overlay)
    (counts : list (string * Z)) :
  map fst (snd (draw_and_count dets canvas counts)) = map fst counts.
Proof.
  revert canvas counts. induction dets as [|d ds IH]; intros canvas counts;
    [reflexivity|].
  cbn [draw_and_count].
  destruct (bbox d) as [|x [|y [|w [|h [|? ?]]]]]; try apply IH.
  rewrite IH. destruct (dict_has counts (emotion d)); [|reflexivity].
  apply dict_incr_keys.
Qed.

(** One increment per face whose label is a key of the counters. *)
Lemma draw_and_count_sum (dets : list Detection) (canvas : list Overlay)
    (counts : list (string * Z)) :
  Forall (fun d => (exists x y w h, bbox d = [x; y; w; h]) /\
                   In (emotion d) (map fst counts)) dets ->
  sum_values (snd (draw_and_count dets canvas counts)) =
  sum_values counts + Z.of_nat (List.length dets).
Proof.
  revert canvas counts. induction dets as [|d ds IH]; intros canvas counts Hwf.
  - cbn. lia.
  - apply Forall_cons_1 in Hwf as [[(x & y & w & h & Hbox) Hkey] Hwf].
    cbn [draw_and_count]. rewrite Hbox.
    apply dict_has_In in Hkey as Hhas. rewrite Hhas.
    rewrite IH.
    + rewrite (dict_incr_sum _ _ Hkey). cbn [List.length]. lia.
    + rewrite dict_incr_keys. exact Hwf.
Qed.

(** The detections [analyze_bytes] returns have a four-entry box and one of
    the seven labels. *)
Lemma analyze_bytes_wellformed (buffer : FileBytes) (res : Analysis) :
  analyze_bytes buffer = Return res ->
  Forall (fun d => (exists x y w h, bbox d = [x; y; w; h]) /\
                   In (emotion d) CLASS_NAMES) (results res).
Proof.
  intros H. apply AnalyzerFacts.analyze_bytes_results in H as [_ [i H]].
  apply AnalyzerFacts.classify_faces_spec in H.
  eapply Forall_impl; [exact H|]. cbv beta.
  intros d (x & y & w & h & probs & idx & _ & Hbox & _ & _ & He & _).
  split; [eauto|].
  apply list_elem_of_In. eapply list_elem_of_lookup_2. exact He.
Qed.

Lemma fresh_detections_wellformed (frame : Frame) :
  Forall (fun d => (exists x y w h, bbox d = [x; y; w; h]) /\
                   In (emotion d) CLASS_NAMES) (fresh_detections frame).
Proof.
  unfold fresh_detections. destruct (jpeg frame) as [buffer|]; [|constructor].
  destruct (analyze_bytes buffer) as [res|e] eqn:H; [|constructor].
  exact (analyze_bytes_wellformed _ _ H).
Qed.

Lemma analyze_frame_counts (frame : Frame) (st : LoopState) :
  map fst (emotion_counts st) = CLASS_NAMES ->
  map fst (emotion_counts (analyze_frame frame st)) = CLASS_NAMES /\
  sum_values (emotion_counts (analyze_frame frame st)) =
  sum_values (emotion_counts st)
  + Z.of_nat (List.length (fresh_detections frame)).
Proof.
  intros Hkeys.
  pose proof (fresh_detections_wellformed frame) as Hwf.
  unfold analyze_frame, fresh_detections in *.
  destruct (jpeg frame) as [buffer|]; [|cbn; split; [exact Hkeys | lia]].
  destruct (analyze_bytes buffer) as [res|e]; [|cbn; split; [exact Hkeys | lia]].
  destruct (results res) as [|d ds] eqn:Hres; [cbn; split; [exact Hkeys | lia]|].
  pose proof (draw_and_count_keys (d :: ds) [] (emotion_counts st)) as Hk.
  pose proof (draw_and_count_sum (d :: ds) [] (emotion_counts st)) as Hs.
  destruct (draw_and_count (d :: ds) [] (emotion_counts st)) as [canvas counts].
  cbn [emotion_counts snd] in *. split.
  - rewrite Hk. exact Hkeys.
  - apply Hs. rewrite Hkeys. exact Hwf.
Qed.

Lemma detections_met_cons (n p : Z) (frame : Frame) (rest : list Frame) :
  detections_met n p (frame :: rest) =
  (if (p + 1) mod n =? 0 then fresh_detections frame else [])
  ++ detections_met n (p + 1) rest.
Proof.
  unfold detections_met. cbn [sampled].
  destruct ((p + 1) mod n =? 0); reflexivity.
Qed.

(** [sampled] picks the frames at the multiples of the interval. *)
Lemma sampled_positions (n p : Z) (frames : list Frame) (f : Frame) :
  In f (sampled n p frames) <->
  exists i, frames !! i = Some f /\ (p + Z.of_nat i + 1) mod n = 0.
Proof.
  revert p. induction frames as [|f0 rest IH]; intros p; cbn [sampled].
  - split; [intros [] | intros (i & Hi & _); discriminate].
  - assert (Hshift : (exists i, rest !! i = Some f /\
                                (p + 1 + Z.of_nat i + 1) mod n = 0) <->
                     (exists i, (f0 :: rest) !! S i = Some f /\
                                (p + Z.of_nat (S i) + 1) mod n = 0)).
    { split; intros (i & Hi & Hm); exists i; (split; [exact Hi|]);
        rewrite <- Hm; f_equal; lia. }
    destruct ((p + 1) mod n =? 0) eqn:E.
    + apply Z.eqb_eq in E. cbn [In]. rewrite IH, Hshift. split.
      * intros [<- | (i & Hi)]; [|eauto].
        exists 0%nat. split; [reflexivity|]. rewrite <- E. f_equal. lia.
      * intros ([|i] & Hi & Hm); [left; injection Hi; auto | right; eauto].
    + apply Z.eqb_neq in E. rewrite IH, Hshift. split.
      * intros (i & Hi); eauto.
      * intros ([|i] & Hi & Hm); [|eauto].
        exfalso. apply E. rewrite <- Hm. f_equal. lia.
Qed.

(** The number of multiples of the interval among the counters 1..N. *)
Lemma sampled_length (n p : Z) (frames : list Frame) :
  0 < n ->
  Z.of_nat (List.length (sampled n p frames)) =
  (p + Z.of_nat (List.length frames)) / n - p / n.
Proof.
  intros Hn. revert p. induction frames as [|f rest IH]; intros p;
    cbn [sampled List.length].
  - rewrite Z.add_0_r. lia.
  - pose proof (sampled_div p n Hn) as Hdiv. specialize (IH (p + 1)).
    replace (p + Z.of_nat (S (List.length rest)))
      with (p + 1 + Z.of_nat (List.length rest)) by lia.
    destruct ((p + 1) mod n =? 0); cbn [List.length]; lia.
Qed.

(** [analyzed_frames] counts the frames on a multiple of the interval. *)
Lemma frame_loop_attempts (n : Z) (reads : list Read) (st st' : LoopState) :
  frame_loop n reads st = Return st' ->
  analyzed_frames st' =
  analyzed_frames st
  + Z.of_nat (List.length (sampled n (processed_frames st) (decoded reads))).
Proof.
  revert st. induction reads as [|r rest IH]; intros st H.
  - injection H as <-. cbn. lia.
  - apply frame_loop_cons in H as (st1 & H1 & H2). destruct r as [|frame].
    + injection H1 as <-. exact (IH _ H2).
    + pose proof (process_frame_returns _ _ _ _ H1) as Hn.
      rewrite process_frame_decoded in H1 by exact Hn. injection H1 as <-.
      rewrite (IH _ H2). cbn [decoded sampled].
      destruct ((processed_frames st + 1) mod n =? 0); cbn [negb].
      * destruct (analyze_frame_counters frame (count_frame st)) as [-> ->].
        cbn [count_frame processed_frames analyzed_frames List.length]. lia.
      * cbn [persist_frame count_frame processed_frames analyzed_frames]. lia.
Qed.

Lemma frame_loop_counts (n : Z) (reads : list Read) (st st' : LoopState) :
  frame_loop n reads st = Return st' ->
  map fst (emotion_counts st) = CLASS_NAMES ->
  map fst (emotion_counts st') = CLASS_NAMES /\
  sum_values (emotion_counts st') =
  sum_values (emotion_counts st)
  + Z.of_nat (List.length
                (detections_met n (processed_frames st) (decoded reads))).
Proof.
  revert st. induction reads as [|r rest IH]; intros st H Hkeys.
  - injection H as <-. cbn. split; [exact Hkeys | lia].
  - apply frame_loop_cons in H as (st1 & H1 & H2). destruct r as [|frame].
    + injection H1 as <-. exact (IH _ H2 Hkeys).
    + pose proof (process_frame_returns _ _ _ _ H1) as Hn.
      rewrite process_frame_decoded in H1 by exact Hn. injection H1 as <-.
      cbn [decoded]. rewrite detections_met_cons, length_app.
      destruct ((processed_frames st + 1) mod n =? 0); cbn [negb] in H2.
      * destruct (analyze_frame_counts frame (count_frame st) Hkeys) as [Hk Hs].
        destruct (IH _ H2 Hk) as [Hk' Hs']. split; [exact Hk'|].
        rewrite Hs', Hs.
        rewrite (proj1 (analyze_frame_counters _ _)). cbn. lia.
      * destruct (IH _ H2 Hkeys) as [Hk' Hs']. split; [exact Hk'|].
        rewrite Hs'. cbn. lia.
Qed.

(** An analysis that raises, on every sampled frame, yields no detection. *)
Lemma detections_met_none (n p : Z) (frames : list Frame) :
  Forall (fun f => fresh_detections f = []) (sampled n p frames) ->
  detections_met n p frames = [].
Proof.
  unfold detections_met.
  induction (sampled n p frames) as [|f rest IH]; intros H; [reflexivity|].
  apply Forall_cons_1 in H as [Hf H]. cbn [map concat].
  rewrite Hf, (IH H). reflexivity.
Qed.

(** While no analyzed frame yields a detection, the counters and the stored
    detections stay as they are, and frames painted with an empty store
    carry no overlay. *)
Lemma analyze_frame_no_faces (frame : Frame) (st : LoopState) :
  fresh_detections frame = [] ->
  emotion_counts (analyze_frame frame st) = emotion_counts st /\
  last_detections (analyze_frame frame st) = last_detections st /\
  (out (analyze_frame frame st) = out st \/
   out (analyze_frame frame st) =
   out st ++ [{| shown := picture frame; overlays := [] |}]).
Proof.
  unfold analyze_frame, fresh_detections.
  destruct (jpeg frame) as [buffer|]; [|cbn; auto].
  destruct (analyze_bytes buffer) as [res|e]; [|cbn; auto].
  intros ->. cbn. auto.
Qed.

Lemma frame_loop_quiet (n : Z) (reads : list Read) (st st' : LoopState) :
  frame_loop n reads st = Return st' ->
  detections_met n (processed_frames st) (decoded reads) = [] ->
  emotion_counts st' = emotion_counts st /\
  last_detections st' = last_detections st /\
  (last_detections st = [] ->
   Forall (fun w => overlays w = []) (out st) ->
   Forall (fun w => overlays w = []) (out st')).
Proof.
  revert st. induction reads as [|r rest IH]; intros st H Hmet.
  - injection H as <-. auto.
  - apply frame_loop_cons in H as (st1 & H1 & H2). destruct r as [|frame].
    + injection H1 as <-. exact (IH _ H2 Hmet).
    + pose proof (process_frame_returns _ _ _ _ H1) as Hn.
      rewrite process_frame_decoded in H1 by exact Hn. injection H1 as <-.
      cbn [decoded] in Hmet. rewrite detections_met_cons in Hmet.
      apply app_eq_nil in Hmet as [Hfresh Hmet].
      destruct ((processed_frames st + 1) mod n =? 0); cbn [negb] in H2.
      * destruct (analyze_frame_no_faces frame (count_frame st) Hfresh)
          as (Hc & Hl & Ho).
        destruct (IH _ H2) as (Hc' & Hl' & Ho').
        { rewrite (proj1 (analyze_frame_counters _ _)). exact Hmet. }
        rewrite Hc', Hl', Hc, Hl. cbn [count_frame emotion_counts last_detections].
        repeat split. intros Hlast Hout. apply Ho'.
        -- rewrite Hl. exact Hlast.
        -- destruct Ho as [-> | ->]; [exact Hout|].
           apply Forall_app. split; [exact Hout|]. repeat constructor.
      * destruct (IH _ H2) as (Hc' & Hl' & Ho').
        { exact Hmet. }
        rewrite Hc', Hl'. cbn [persist_frame count_frame emotion_counts last_detections].
        repeat split. intros Hlast Hout. apply Ho'.
        -- exact Hlast.
        -- cbn [persist_frame count_frame out last_detections].
           rewrite Hlast. apply Forall_app. split; [exact Hout|].
           repeat constructor.
Qed.

(** *** The sink *)

(** When every frame that is due for analysis can be encoded, the sink
    receives the decoded frames, each once, in the order of the reads. *)
Lemma frame_loop_writes_all (n : Z) (reads : list Read) (st st' : LoopState) :
  frame_loop n reads st = Return st' ->
  Forall (fun f => jpeg f <> None)
         (sampled n (processed_frames st) (decoded reads)) ->
  map shown (out st') = map shown (out st) ++ map picture (decoded reads).
Proof.
  revert st. induction reads as [|r rest IH]; intros st H Henc.
  - injection H as <-. cbn. rewrite app_nil_r. reflexivity.
  - apply frame_loop_cons in H as (st1 & H1 & H2). destruct r as [|frame].
    + injection H1 as <-. exact (IH _ H2 Henc).
    + pose proof (process_frame_returns _ _ _ _ H1) as Hn.
      rewrite process_frame_decoded in H1 by exact Hn. injection H1 as <-.
      cbn [decoded sampled map] in *.
      replace (map shown (out st) ++ picture frame :: map picture (decoded rest))
        with ((map shown (out st) ++ [picture frame]) ++ map picture (decoded rest))
        by (rewrite <- app_assoc; reflexivity).
      destruct ((processed_frames st + 1) mod n =? 0); cbn [negb] in *.
      * apply Forall_cons_1 in Henc as [Hf Henc].
        rewrite (IH _ H2).
        2:{ rewrite (proj1 (analyze_frame_counters _ _)). exact Henc. }
        f_equal. unfold analyze_frame.
        destruct (jpeg frame) as [buffer|]; [|contradiction].
        destruct (analyze_bytes buffer) as [res|e];
          [|cbn; rewrite map_app; reflexivity].
        destruct (results res) as [|d ds];
          [cbn; rewrite map_app; reflexivity|].
        destruct (draw_and_count (d :: ds) [] (emotion_counts (count_frame st))).
        cbn. rewrite map_app. reflexivity.
      * rewrite (IH _ H2 Henc). f_equal. cbn. rewrite map_app. reflexivity.
Qed.

(** *** The summary *)

Lemma dict_incr_nonneg (d : list (string * Z)) (k : string) :
  Forall (fun kv => 0 <= snd kv) d -> Forall (fun kv => 0 <= snd kv) (dict_incr d k).
Proof.
  induction 1 as [|[k' v] d Hv Hd IH]; cbn [dict_incr]; [constructor|].
  cbn [snd] in Hv. destruct (String.eqb k' k); constructor; cbn [snd]; auto; lia.
Qed.

Lemma draw_and_count_nonneg (dets : list Detection) (canvas : list Overlay)
    (counts : list (string * Z)) :
  Forall (fun kv => 0 <= snd kv) counts ->
  Forall (fun kv => 0 <= snd kv) (snd (draw_and_count dets canvas counts)).
Proof.
  revert canvas counts. induction dets as [|d ds IH]; intros canvas counts H;
    [exact H|].
  cbn [draw_and_count].
  destruct (bbox d) as [|x [|y [|w [|h [|? ?]]]]]; try (apply IH; exact H).
  apply IH. destruct (dict_has counts (emotion d)); [|exact H].
  apply dict_incr_nonneg. exact H.
Qed.

Lemma frame_loop_nonneg (n : Z) (reads : list Read) (st st' : LoopState) :
  frame_loop n reads st = Return st' ->
  Forall (fun kv => 0 <= snd kv) (emotion_counts st) ->
  Forall (fun kv => 0 <= snd kv) (emotion_counts st').
Proof.
  revert st. induction reads as [|r rest IH]; intros st H Hpos.
  - injection H as <-. exact Hpos.
  - apply frame_loop_cons in H as (st1 & H1 & H2). destruct r as [|frame].
    + injection H1 as <-. exact (IH _ H2 Hpos).
    + pose proof (process_frame_returns _ _ _ _ H1) as Hn.
      rewrite process_frame_decoded in H1 by exact Hn. injection H1 as <-.
      apply (IH _ H2). destruct (negb _); [exact Hpos|].
      unfold analyze_frame.
      destruct (jpeg frame) as [buffer|]; [|exact Hpos].
      destruct (analyze_bytes buffer) as [res|e]; [|exact Hpos].
      destruct (results res) as [|d ds]; [exact Hpos|].
      pose proof (draw_and_count_nonneg (d :: ds) []
                    (emotion_counts (count_frame st)) Hpos) as Hdc.
      destruct (draw_and_count (d :: ds) [] (emotion_counts (count_frame st))).
      exact Hdc.
Qed.

Lemma sum_values_bounds (counts : list (string * Z)) :
  Forall (fun kv => 0 <= snd kv) counts ->
  Forall (fun kv => snd kv <= sum_values counts) counts /\ 0 <= sum_values counts.
Proof.
  induction 1 as [|[k v] d Hv Hd [IHle IH0]]; cbn [sum_values].
  - split; [constructor | lia].
  - cbn [snd] in Hv. split; [|lia]. constructor; [cbn; lia|].
    eapply Forall_impl; [exact IHle|]. cbv beta. intros kv. lia.
Qed.

Lemma frame_loop_counters_nonneg (n : Z) (reads : list Read) (st : LoopState) :
  frame_loop n reads initial_state = Return st ->
  Forall (fun kv => 0 <= snd kv) (emotion_counts st).
Proof.
  intros Hloop. apply (frame_loop_nonneg _ _ _ _ Hloop).
  cbn [initial_state emotion_counts map].
  repeat (apply Forall_cons_2 || apply Forall_nil_2); cbn [snd]; lia.
Qed.

Lemma total_of_bounds (counts : list (string * Z)) :
  Forall (fun kv => 0 <= snd kv) counts ->
  0 < total_of counts /\
  Forall (fun kv => 0 <= snd kv <= total_of counts) counts.
Proof.
  intros Hpos. destruct (sum_values_bounds counts Hpos) as [Hle H0].
  assert (HT : 0 < total_of counts /\ sum_values counts <= total_of counts).
  { unfold total_of. destruct (sum_values counts =? 0) eqn:E.
    - apply Z.eqb_eq in E. lia.
    - apply Z.eqb_neq in E. lia. }
  split; [lia|].
  apply Forall_forall. intros kv Hin. rewrite Forall_forall in Hpos, Hle.
  specialize (Hpos _ Hin). specialize (Hle _ Hin). lia.
Qed.

Lemma summarize_keys (counts : list (string * Z)) :
  map fst (summarize counts) = map fst counts.
Proof.
  unfold summarize. rewrite map_map. reflexivity.
Qed.

Lemma summarize_values (counts : list (string * Z)) :
  map snd (summarize counts) =
  map (fun kv => round2 (float_mul (float_div (inject_Z (snd kv))
                                              (inject_Z (total_of counts))) 100))
      counts.
Proof.
  unfold summarize. rewrite map_map. reflexivity.
Qed.

(** Each value of the summary is the double next to a number of
    hundredths within 0.005 of the exact percentage, up to the error of
    the float division and multiplication. *)
Lemma summarize_close (counts : list (string * Z)) :
  Forall (fun kv => 0 <= snd kv) counts ->
  Forall2 (fun kv cnt =>
             fst kv = fst cnt /\
             exists n : Z,
               0 <= n <= 10000 /\
               (Qabs (snd kv - (n # 100)) <= 1 # 1000000000000)%Q /\
               (Qabs ((n # 100)
                      - inject_Z (snd cnt) / inject_Z (total_of counts) * 100)
                <= (1 # 200) + (1 # 1000000000000))%Q)
          (summarize counts) counts.
Proof.
  intros Hpos. destruct (total_of_bounds counts Hpos) as [HT Hle].
  unfold summarize. set (T := total_of counts) in *. clearbody T. clear Hpos.
  induction counts as [|[k v] rest IH]; cbn [map]; constructor.
  - apply Forall_cons_1 in Hle as [Hv _]. cbn [fst snd] in *.
    split; [reflexivity|].
    destruct (percentage_close v T Hv HT) as (n & Hn & H1 & H2 & _).
    exists n. auto.
  - apply IH. apply Forall_cons_1 in Hle as [_ Hle]. exact Hle.
Qed.

Lemma summarize_between (counts : list (string * Z)) :
  Forall (fun kv => 0 <= snd kv) counts ->
  Forall (fun kv => (0 <= snd kv)%Q /\ (snd kv <= 100)%Q) (summarize counts).
Proof.
  intros Hpos. destruct (total_of_bounds counts Hpos) as [HT Hle].
  unfold summarize. apply Forall_map.
  eapply Forall_impl; [exact Hle|]. cbv beta. intros [k v] Hv.
  cbn [fst snd] in *.
  destruct (percentage_close v (total_of counts) Hv HT) as (n & _ & _ & _ & H).
  exact H.
Qed.

(** The exact percentages add up to 100. *)
Lemma percentages_sum (T : Z) (counts : list (string * Z)) :
  T <> 0 ->
  (sum_Q (map (fun kv => (inject_Z (snd kv) / inject_Z T) * 100) counts)
   == (inject_Z (sum_values counts) / inject_Z T) * 100)%Q.
Proof.
  intros HT.
  assert (HTq : ~ (inject_Z T == 0)%Q).
  { unfold Qeq. simpl. lia. }
  induction counts as [|[k v] rest IH]; cbn [map sum_Q foldr sum_values snd].
  - unfold Qdiv. rewrite Qmult_0_l, Qmult_0_l. reflexivity.
  - fold (sum_Q (map (fun kv : string * Z => (inject_Z (snd kv) / inject_Z T * 100)%Q) rest)).
    rewrite IH, inject_Z_plus. field. exact HTq.
Qed.

(** Numbers that are pairwise within [eps] have sums within the number
    of terms times [eps]. *)
Lemma sums_close (eps : Q) (xs ys : list Q) :
  Forall2 (fun x y => (Qabs (x - y) <= eps)%Q) xs ys ->
  (Qabs (sum_Q xs - sum_Q ys) <= inject_Z (Z.of_nat (List.length xs)) * eps)%Q.
Proof.
  induction 1 as [|x y xs ys Hxy _ IH]; cbn [sum_Q foldr List.length].
  - rewrite Qmult_0_l. discriminate.
  - fold (sum_Q xs). fold (sum_Q ys).
    rewrite Nat2Z.inj_succ. unfold Z.succ. rewrite inject_Z_plus.
    change (inject_Z 1) with 1%Q.
    apply Qabs_bounds in Hxy, IH. apply Qabs_bounds. lra.
Qed.

Lemma summarize_sum (counts : list (string * Z)) :
  Forall (fun kv => 0 <= snd kv) counts ->
  0 < sum_values counts ->
  List.length counts = 7%nat ->
  (Qabs (sum_Q (map snd (summarize counts)) - 100)
   <= (35 # 1000) + (1 # 1000000000))%Q.
Proof.
  intros Hnn Hpos Hlen.
  set (pct := fun kv : string * Z =>
                ((inject_Z (snd kv) / inject_Z (total_of counts)) * 100)%Q).
  assert (Hexact : (sum_Q (map pct counts) == 100)%Q).
  { unfold pct. rewrite percentages_sum.
    - unfold total_of. destruct (sum_values counts =? 0) eqn:E.
      + apply Z.eqb_eq in E. lia.
      + field. unfold Qeq. simpl. lia.
    - unfold total_of. destruct (sum_values counts =? 0) eqn:E; [lia|].
      apply Z.eqb_neq in E. exact E. }
  assert (Hclose : Forall2 (fun x y =>
                      (Qabs (x - y) <= (1 # 200) + (2 # 1000000000000))%Q)
                     (map snd (summarize counts)) (map pct counts)).
  { apply Forall2_fmap. eapply Forall2_impl; [apply summarize_close; exact Hnn|].
    cbv beta. intros kv cnt (_ & n & _ & H1 & H2). fold (pct cnt) in H2.
    apply Qabs_bounds in H1, H2. apply Qabs_bounds. lra. }
  apply sums_close in Hclose.
  rewrite length_map, <- (length_map fst), summarize_keys, length_map, Hlen
    in Hclose.
  rewrite Hexact in Hclose.
  change (inject_Z (Z.of_nat 7)) with 7%Q in Hclose.
  apply Qabs_bounds in Hclose. apply Qabs_bounds. lra.
Qed.

Lemma summarize_initial :
  Forall (fun kv => (snd kv == 0)%Q) (summarize (emotion_counts initial_state)).
Proof.
  repeat (apply Forall_cons_2 || apply Forall_nil_2); vm_compute; reflexivity.
Qed.

(** *** Sampling and the store of detections *)

(** For a rate of at least one frame per second the interval is the floor
    of twice the rate, and at least 2. *)
Lemma frame_interval_floor (fps : Q) :
  (1 <= fps)%Q ->
  frame_interval fps = Qfloor (fps * 2) /\
  (inject_Z (frame_interval fps) <= fps * 2 < inject_Z (frame_interval fps) + 1)%Q /\
  2 <= frame_interval fps.
Proof.
  intros Hfps. unfold frame_interval.
  assert (H2 : (2 <= fps * 2)%Q).
  { setoid_replace (2 : Q) with (1 * 2)%Q using relation Qeq by reflexivity.
    apply Qmult_le_compat_r; [exact Hfps | discriminate]. }
  assert (H0 : (0 <= fps * 2)%Q).
  { eapply Qle_trans; [|exact H2]. discriminate. }
  destruct (int_of_float_floor (fps * 2) H0) as [Hlo Hhi].
  split; [exact (int_of_float_Qfloor _ H0)|].
  split; [split; assumption|].
  assert (Hlt : (inject_Z 2 < inject_Z (int_of_float (fps * 2) + 1))%Q).
  { rewrite inject_Z_plus. eapply Qle_lt_trans; [|exact Hhi]. exact H2. }
  rewrite <- Zlt_Qlt in Hlt. lia.
Qed.

(** The stored detections are painted as they are: one overlay per
    detection, with its box, its label and its confidence. *)
Lemma draw_persisted_verbatim (dets : list Detection) (canvas : list Overlay) :
  Forall (fun d => exists x y w h, bbox d = [x; y; w; h]) dets ->
  exists painted,
    draw_persisted dets canvas = canvas ++ painted /\
    Forall2 (fun d o => exists x y w h, bbox d = [x; y; w; h] /\
                                        o = paint d x y w h) dets painted.
Proof.
  revert canvas. induction dets as [|d ds IH]; intros canvas Hwf.
  - exists []. rewrite app_nil_r. split; [reflexivity | constructor].
  - apply Forall_cons_1 in Hwf as [(x & y & w & h & Hbox) Hwf].
    cbn [draw_persisted]. rewrite Hbox.
    destruct (IH (canvas ++ [paint d x y w h]) Hwf) as (painted & Heq & Hall).
    exists (paint d x y w h :: painted). split.
    + rewrite Heq, <- app_assoc. reflexivity.
    + constructor; [|exact Hall]. exists x, y, w, h. split; [exact Hbox | reflexivity].
Qed.

(** The stored detections always come from [analyze_bytes]. *)
Lemma frame_loop_last_wellformed (n : Z) (reads : list Read) (st st' : LoopState) :
  frame_loop n reads st = Return st' ->
  Forall (fun d => exists x y w h, bbox d = [x; y; w; h]) (last_detections st) ->
  Forall (fun d => exists x y w h, bbox d = [x; y; w; h]) (last_detections st').
Proof.
  revert st. induction reads as [|r rest IH]; intros st H Hwf.
  - injection H as <-. exact Hwf.
  - apply frame_loop_cons in H as (st1 & H1 & H2). destruct r as [|frame].
    + injection H1 as <-. exact (IH _ H2 Hwf).
    + pose proof (process_frame_returns _ _ _ _ H1) as Hn.
      rewrite process_frame_decoded in H1 by exact Hn. injection H1 as <-.
      apply (IH _ H2). destruct (negb _); [exact Hwf|].
      rewrite analyze_frame_last.
      pose proof (fresh_detections_wellformed frame) as Hfresh.
      destruct (fresh_detections frame) as [|d ds]; [exact Hwf|].
      eapply Forall_impl; [exact Hfresh|]. cbv beta. tauto.
Qed.

Lemma persist_frame_eq (frame : Frame) (st : LoopState) :
  persist_frame frame st =
  {| processed_frames := processed_frames st;
     analyzed_frames := analyzed_frames st;
     emotion_counts := emotion_counts st;
     last_detections := last_detections st;
     out := out st ++ [{| shown := picture frame;
                          overlays := draw_persisted (last_detections st) [] |}] |}.
Proof.
  unfold persist_frame. destruct (last_detections st); reflexivity.
Qed.

(** C1, as the code has it. For a frame rate of at least 1 the sampling
    interval is max(1, floor(rate * 2)): twice the rate truncated to an
    integer, not rounded, which is at least 2. The frame read after any
    prefix of the video gets the 1-based counter of the decoded frames; it
    goes through the analysis branch (the analysis counter advances,
    [analyze_bytes] runs on its JPEG encoding and the store takes the fresh
    detections, if any) exactly when that counter is a multiple of the
    interval; every other frame leaves the analysis counter, the emotion
    counters and the store alone and is written with one overlay per
    stored detection, carrying that detection's box, label and
    confidence. *)
Theorem sampling_follows_truncated_interval (fps : Q) (pre : list Read)
    (frame : Frame) :
  (1 <= fps)%Q ->
  let n := frame_interval fps in
  n = Z.max 1 (Qfloor (fps * 2)) /\
  (inject_Z n <= fps * 2 < inject_Z n + 1)%Q /\
  2 <= n /\
  exists st st',
    frame_loop n pre initial_state = Return st /\
    process_frame n (Decoded frame) st = Return st' /\
    processed_frames st' = Z.of_nat (List.length (decoded pre)) + 1 /\
    (analyzed_frames st' = analyzed_frames st + 1 <->
     processed_frames st' mod n = 0) /\
    (processed_frames st' mod n = 0 ->
     st' = analyze_frame frame (count_frame st) /\
     last_detections st' =
     match fresh_detections frame with
     | [] => last_detections st
     | detections => detections
     end) /\
    (processed_frames st' mod n <> 0 ->
     exists painted,
       st' = {| processed_frames := processed_frames st + 1;
                analyzed_frames := analyzed_frames st;
                emotion_counts := emotion_counts st;
                last_detections := last_detections st;
                out := out st ++ [{| shown := picture frame;
                                     overlays := painted |}] |} /\
       Forall2 (fun d o => exists x y w h, bbox d = [x; y; w; h] /\
                                           o = paint d x y w h)
               (last_detections st) painted).
Proof.
  intros Hfps n.
  destruct (frame_interval_floor fps Hfps) as (Hint & Hfloor & Hn2).
  split; [unfold n; rewrite <- Hint; lia|].
  split; [exact Hfloor|]. split; [exact Hn2|].
  assert (Hn : n <> 0) by (unfold n; lia).
  destruct (frame_loop_total n pre initial_state Hn) as [st Hst].
  exists st. eexists. split; [exact Hst|].
  split; [apply process_frame_decoded; exact Hn|].
  pose proof (frame_loop_processed _ _ _ _ Hst) as Hcount.
  cbn [initial_state processed_frames] in Hcount.
  destruct ((processed_frames st + 1) mod n =? 0) eqn:E; cbn [negb].
  - apply Z.eqb_eq in E.
    destruct (analyze_frame_counters frame (count_frame st)) as [Hp Ha].
    cbn [count_frame processed_frames analyzed_frames] in Hp, Ha.
    rewrite Hp, Ha. split; [lia|]. split; [tauto|].
    split; [intros _; split; [reflexivity|];
            rewrite analyze_frame_last; reflexivity
           | intros Hne; contradiction].
  - apply Z.eqb_neq in E. rewrite persist_frame_eq.
    cbn [count_frame processed_frames analyzed_frames emotion_counts
         last_detections out].
    split; [lia|]. split; [split; [lia | intros H0; contradiction]|].
    split; [intros H0; contradiction|]. intros _.
    assert (Hwf : Forall (fun d => exists x y w h, bbox d = [x; y; w; h])
                         (last_detections st)).
    { apply (frame_loop_last_wellformed _ _ _ _ Hst). constructor. }
    destruct (draw_persisted_verbatim _ [] Hwf) as (painted & Heq & Hall).
    exists painted. rewrite Heq. split; [reflexivity | exact Hall].
Qed.

(** C1 as stated fails: at the NTSC rate the code samples every 59 frames,
    where rounding would give 60. *)
Lemma ntsc_interval_is_not_rounded :
  (1 <= Samples.ntsc)%Q /\
  frame_interval Samples.ntsc
  <> Z.max 1 (round_half_even (Samples.ntsc * 2)).
Proof.
  split.
  - unfold Qle. cbn. lia.
  - vm_compute. discriminate.
Qed.

Lemma sampling_follows_truncated_interval_witness :
  (1 <= Samples.ntsc)%Q /\
  (inject_Z (frame_interval Samples.ntsc) <= Samples.ntsc * 2
   < inject_Z (frame_interval Samples.ntsc) + 1)%Q /\
  2 <= frame_interval Samples.ntsc.
Proof.
  assert (H : (1 <= Samples.ntsc)%Q) by (unfold Qle; cbn; lia).
  split; [exact H|].
  destruct (sampling_follows_truncated_interval
              Samples.ntsc Samples.clip (Samples.face_frame 5) H)
    as (_ & Hfloor & Hmin & _).
  split; assumption.
Defined.

(** C2. In any iteration of a run the store of detections either stays as
    it is or takes the non-empty result of the analysis of the current
    frame, which then is a frame on a multiple of the interval; an analyzed
    frame without faces leaves it as it is. As long as no analyzed frame
    has produced a detection the store is empty, and an intermediate frame
    is written with no overlay. *)
Theorem store_overwritten_only_by_faces (n : Z) (pre : list Read) (r : Read)
    (st st' : LoopState) :
  frame_loop n pre initial_state = Return st ->
  process_frame n r st = Return st' ->
  (last_detections st' = last_detections st \/
   exists frame buffer res,
     r = Decoded frame /\
     (processed_frames st + 1) mod n = 0 /\
     jpeg frame = Some buffer /\
     analyze_bytes buffer = Return res /\
     results res <> [] /\
     last_detections st' = results res) /\
  (forall frame,
     r = Decoded frame ->
     (processed_frames st + 1) mod n = 0 ->
     fresh_detections frame = [] ->
     last_detections st' = last_detections st) /\
  (detections_met n 0 (decoded pre) = [] ->
   last_detections st = [] /\
   forall frame,
     r = Decoded frame ->
     (processed_frames st + 1) mod n <> 0 ->
     out st' = out st ++ [{| shown := picture frame; overlays := [] |}]).
Proof.
  intros Hpre Hstep.
  assert (Hquiet : detections_met n 0 (decoded pre) = [] ->
                   last_detections st = []).
  { intros Hmet.
    destruct (frame_loop_quiet n pre initial_state st Hpre Hmet) as (_ & Hl & _).
    exact Hl. }
  destruct r as [|frame].
  - injection Hstep as <-. split; [left; reflexivity|].
    split; [intros frame; discriminate|].
    intros Hmet. split; [exact (Hquiet Hmet) | intros frame; discriminate].
  - pose proof (process_frame_returns _ _ _ _ Hstep) as Hn.
    rewrite process_frame_decoded in Hstep by exact Hn. injection Hstep as <-.
    destruct ((processed_frames st + 1) mod n =? 0) eqn:E; cbn [negb].
    + apply Z.eqb_eq in E. rewrite analyze_frame_last.
      cbn [count_frame last_detections].
      split; [|split].
      * unfold fresh_detections.
        destruct (jpeg frame) as [buffer|] eqn:Hj; [|left; reflexivity].
        destruct (analyze_bytes buffer) as [res|e] eqn:Ha; [|left; reflexivity].
        destruct (results res) as [|d ds] eqn:Hr; [left; reflexivity|].
        right. exists frame, buffer, res. rewrite Hr.
        repeat split; auto; discriminate.
      * intros frame' [= <-] _ ->. reflexivity.
      * intros Hmet. split; [exact (Hquiet Hmet)|].
        intros frame' _ Hne. contradiction.
    + apply Z.eqb_neq in E. split; [left; reflexivity|].
      split; [intros frame' _ H0; contradiction|].
      intros Hmet. split; [exact (Hquiet Hmet)|].
      intros frame' [= <-] _. unfold persist_frame.
      cbn [count_frame last_detections out]. rewrite (Hquiet Hmet). reflexivity.
Qed.

Lemma store_overwritten_only_by_faces_witness :
  frame_loop 2 [Decoded (Samples.wall_frame 1)] initial_state
  = Return (Samples.state_after 2 [Decoded (Samples.wall_frame 1)]) /\
  process_frame 2 (Decoded (Samples.face_frame 2))
    (Samples.state_after 2 [Decoded (Samples.wall_frame 1)])
  = Return (Samples.state_after 2 [Decoded (Samples.wall_frame 1);
                                   Decoded (Samples.face_frame 2)]) /\
  last_detections (Samples.state_after 2 [Decoded (Samples.wall_frame 1)]) = [].
Proof.
  assert (H1 : frame_loop 2 [Decoded (Samples.wall_frame 1)] initial_state
               = Return (Samples.state_after 2 [Decoded (Samples.wall_frame 1)]))
    by (vm_compute; reflexivity).
  assert (H2 : process_frame 2 (Decoded (Samples.face_frame 2))
                 (Samples.state_after 2 [Decoded (Samples.wall_frame 1)])
               = Return (Samples.state_after 2 [Decoded (Samples.wall_frame 1);
                                                Decoded (Samples.face_frame 2)]))
    by (vm_compute; reflexivity).
  split; [exact H1|]. split; [exact H2|].
  destruct (store_overwritten_only_by_faces _ _ _ _ _ H1 H2) as (_ & _ & H3).
  exact (proj1 (H3 eq_refl)).
Defined.

(** The sink of a whole run when every frame that is due for analysis can
    be encoded. *)
Lemma process_video_writes_all (env : Env) (video_path : string)
    (cap : Capture) (run : Run) :
  capture env = Some cap ->
  process_video env video_path = Return run ->
  Forall (fun f => jpeg f <> None)
         (sampled (interval_of cap) 0 (decoded (reads cap))) ->
  map shown (video run) = map picture (decoded (reads cap)).
Proof.
  intros Hcap Hrun Henc. unfold process_video in Hrun.
  destruct (negb (path_exists (files env) video_path)); [discriminate|].
  rewrite Hcap in Hrun. bind_inv Hrun. injection Hrun as <-.
  pose proof (frame_loop_writes_all _ _ _ _ Ha Henc) as Hout.
  unfold finish.
  destruct (merge_audio _ _ _ _) as [output_with_audio fs1].
  destruct (compress_video _ _ _ _) as [compressed_path fs2].
  destruct (upload_and_clean _ _ _ _) as [url fs3].
  exact Hout.
Qed.

(** C3 fails on a frame that is due for analysis and cannot be encoded as
    JPEG: of the two decoded frames of the run below only the first
    reaches the sink. *)
Theorem unencodable_frame_is_not_written :
  exists run,
    process_video Samples.unencodable_env Samples.source = Return run /\
    map picture (decoded Samples.clip_unencodable) = [1%nat; 2%nat] /\
    map shown (video run) = [1%nat].
Proof.
  eexists. split; [vm_compute; reflexivity|]. split; reflexivity.
Qed.

(** *** The run as a whole *)

Lemma path_exists_true (fs : gset string) (p : string) :
  path_exists fs p = true <-> p ∈ fs.
Proof. unfold path_exists. apply bool_decide_eq_true. Qed.

Lemma path_exists_false (fs : gset string) (p : string) :
  path_exists fs p = false <-> p ∉ fs.
Proof. unfold path_exists. apply bool_decide_eq_false. Qed.

Lemma process_video_missing_source (env : Env) (video_path : string) :
  video_path ∉ files env ->
  process_video env video_path = Raise FileNotFoundError.
Proof.
  intros H. apply path_exists_false in H. unfold process_video.
  rewrite H. reflexivity.
Qed.

Lemma process_video_unopened (env : Env) (video_path : string) :
  video_path ∈ files env ->
  capture env = None ->
  process_video env video_path = Raise VideoOpenError.
Proof.
  intros H Hcap. apply path_exists_true in H. unfold process_video.
  rewrite H, Hcap. reflexivity.
Qed.

Lemma process_video_opened (env : Env) (video_path : string) (cap : Capture) :
  video_path ∈ files env ->
  capture env = Some cap ->
  process_video env video_path =
  st ← frame_loop (interval_of cap) (reads cap) initial_state;
  Return (finish env video_path st).
Proof.
  intros H Hcap. apply path_exists_true in H. unfold process_video.
  rewrite H, Hcap. reflexivity.
Qed.

Lemma process_video_inv (env : Env) (video_path : string) (run : Run) :
  process_video env video_path = Return run ->
  exists cap st,
    video_path ∈ files env /\
    capture env = Some cap /\
    frame_loop (interval_of cap) (reads cap) initial_state = Return st /\
    run = finish env video_path st.
Proof.
  intros H. unfold process_video in H.
  destruct (path_exists (files env) video_path) eqn:Hp; [|discriminate].
  apply path_exists_true in Hp. cbn [negb] in H.
  destruct (capture env) as [cap|]; [|discriminate].
  bind_inv H. injection H as <-. exists cap, a. auto.
Qed.

(** A run whose source opens and whose interval is not zero returns. *)
Lemma process_video_returns (env : Env) (video_path : string) (cap : Capture) :
  video_path ∈ files env ->
  capture env = Some cap ->
  interval_of cap <> 0 ->
  exists st,
    frame_loop (interval_of cap) (reads cap) initial_state = Return st /\
    process_video env video_path = Return (finish env video_path st).
Proof.
  intros H Hcap Hn.
  destruct (frame_loop_total _ (reads cap) initial_state Hn) as [st Hst].
  exists st. split; [exact Hst|].
  rewrite (process_video_opened _ _ _ H Hcap), Hst. reflexivity.
Qed.

Lemma finish_fields (env : Env) (video_path : string) (st : LoopState) :
  let run := finish env video_path st in
  summary (result run) = summarize (emotion_counts st) /\
  frames_analyzed (result run) = analyzed_frames st /\
  duration_sec (result run) = round2 (elapsed env) /\
  video run = out st /\
  (public_url (result run), files_after run) =
  upload_and_clean (snd (compressed env video_path)) (gcs env)
                   (fst (compressed env video_path))
                   (fst (merged env video_path)).
Proof.
  unfold finish, compressed, merged.
  destruct (merge_audio _ _ _ _) as [output_with_audio fs1].
  destruct (compress_video _ _ _ _) as [compressed_path fs2].
  cbn [fst snd].
  destruct (upload_and_clean _ _ _ _) as [url fs3].
  repeat split.
Qed.

(** C5. At the end of a run the summary has the seven labels as keys, in
    the order of the counters; each value is the float
    [round((count / total) * 100, 2)], where [total] is the sum of the
    counts, or 1 when that sum is 0. In figures: each value is within
    10^-12 of a number of hundredths [n / 100] (the value is the double
    next to it), and [n / 100] is within 0.005 + 10^-12 of the exact
    percentage of the label. The counts add up to the number of detections
    that the analyzed frames yielded. When there was a detection the
    values add up to 100 within 0.035 + 10^-9 (seven roundings of at most
    0.005 each, and the float errors); when there was none every value
    is 0. *)
Theorem summary_percentages (env : Env) (video_path : string) (cap : Capture)
    (run : Run) :
  capture env = Some cap ->
  process_video env video_path = Return run ->
  let seen := detections_met (interval_of cap) 0 (decoded (reads cap)) in
  exists st,
    frame_loop (interval_of cap) (reads cap) initial_state = Return st /\
    map fst (emotion_counts st) = CLASS_NAMES /\
    sum_values (emotion_counts st) = Z.of_nat (List.length seen) /\
    summary (result run) =
      map (fun kv =>
             (fst kv,
              round2 (float_mul
                        (float_div
                           (inject_Z (snd kv))
                           (inject_Z (if sum_values (emotion_counts st) =? 0
                                      then 1 else sum_values (emotion_counts st))))
                        100)))
          (emotion_counts st) /\
    map fst (summary (result run)) =
      ["angry"; "disgust"; "fear"; "happy"; "neutral"; "sad"; "surprise"]%string /\
    Forall2 (fun kv cnt =>
               fst kv = fst cnt /\
               exists n : Z,
                 0 <= n <= 10000 /\
                 (Qabs (snd kv - (n # 100)) <= 1 # 1000000000000)%Q /\
                 (Qabs ((n # 100)
                        - inject_Z (snd cnt)
                          / inject_Z (if sum_values (emotion_counts st) =? 0
                                      then 1 else sum_values (emotion_counts st))
                          * 100)
                  <= (1 # 200) + (1 # 1000000000000))%Q)
            (summary (result run)) (emotion_counts st) /\
    (seen <> [] ->
     (Qabs (sum_Q (map snd (summary (result run))) - 100)
      <= (35 # 1000) + (1 # 1000000000))%Q) /\
    (seen = [] ->
     Forall (fun kv => (snd kv == 0)%Q) (summary (result run))).
Proof.
  intros Hcap Hrun seen.
  apply process_video_inv in Hrun as (cap' & st & _ & Hcap' & Hloop & ->).
  rewrite Hcap in Hcap'. injection Hcap' as <-.
  exists st. split; [exact Hloop|].
  destruct (frame_loop_counts _ _ _ _ Hloop eq_refl) as [Hkeys Hsum].
  cbn [initial_state processed_frames emotion_counts] in Hsum.
  change (sum_values _) with 0 in Hsum at 2. rewrite Z.add_0_l in Hsum.
  fold seen in Hsum.
  pose proof (frame_loop_counters_nonneg _ _ _ Hloop) as Hnn.
  destruct (finish_fields env video_path st) as (Hs & _).
  rewrite Hs. split; [exact Hkeys|]. split; [exact Hsum|].
  split; [reflexivity|].
  split; [rewrite summarize_keys; exact Hkeys|].
  split; [exact (summarize_close _ Hnn)|].
  split.
  - intros Hseen. apply summarize_sum.
    + exact Hnn.
    + rewrite Hsum. destruct seen; [contradiction | cbn [List.length]; lia].
    + rewrite <- (length_map fst), Hkeys. reflexivity.
  - intros Hseen.
    destruct (frame_loop_quiet _ _ _ _ Hloop Hseen) as (-> & _).
    apply summarize_initial.
Qed.

Lemma summary_percentages_witness :
  capture Samples.clip_env = Some Samples.clip_capture /\
  process_video Samples.clip_env Samples.source = Return Samples.clip_run /\
  map fst (summary (result Samples.clip_run)) =
    ["angry"; "disgust"; "fear"; "happy"; "neutral"; "sad"; "surprise"]%string /\
  (Qabs (sum_Q (map snd (summary (result Samples.clip_run))) - 100)
   <= (35 # 1000) + (1 # 1000000000))%Q.
Proof.
  assert (H1 : capture Samples.clip_env = Some Samples.clip_capture)
    by reflexivity.
  assert (H2 : process_video Samples.clip_env Samples.source
               = Return Samples.clip_run)
    by (vm_compute; reflexivity).
  split; [exact H1|]. split; [exact H2|].
  destruct (summary_percentages _ _ _ _ H1 H2)
    as (st & _ & _ & _ & _ & Hkeys & _ & H & _).
  split; [exact Hkeys|].
  apply H. vm_compute. discriminate.
Defined.

(** C6. Take a run whose source opens and whose sampling interval is not
    zero. If on every frame that is analyzed the analysis raises, or the
    classifier raises on whatever face it is given, the run returns its
    result all the same: [frames_analyzed] is the number of frames on a
    multiple of the interval (for a positive interval, the number of
    decoded frames divided by it), each of them an analysis that was
    attempted; no frame of the output carries an overlay; the store of
    detections is empty at the end; and the summary has the seven labels,
    each with the value 0. *)
Theorem failing_classifier_still_completes (env : Env) (video_path : string)
    (cap : Capture) :
  video_path ∈ files env ->
  capture env = Some cap ->
  interval_of cap <> 0 ->
  Forall (fun frame =>
            forall buffer, jpeg frame = Some buffer ->
              (exists e, analyze_bytes buffer = Raise e) \/
              (forall roi, classifier buffer roi = None))
         (sampled (interval_of cap) 0 (decoded (reads cap))) ->
  exists run st,
    process_video env video_path = Return run /\
    frame_loop (interval_of cap) (reads cap) initial_state = Return st /\
    frames_analyzed (result run) =
      Z.of_nat (List.length (sampled (interval_of cap) 0 (decoded (reads cap)))) /\
    (0 < interval_of cap ->
     frames_analyzed (result run) =
       Z.of_nat (List.length (decoded (reads cap))) / interval_of cap) /\
    last_detections st = [] /\
    Forall (fun w => overlays w = []) (video run) /\
    map fst (summary (result run)) =
      ["angry"; "disgust"; "fear"; "happy"; "neutral"; "sad"; "surprise"]%string /\
    Forall (fun kv => (snd kv == 0)%Q) (summary (result run)).
Proof.
  intros Hsrc Hcap Hn Hraise.
  destruct (process_video_returns env video_path cap Hsrc Hcap Hn)
    as (st & Hloop & Hrun).
  exists (finish env video_path st), st.
  split; [exact Hrun|]. split; [exact Hloop|].
  destruct (finish_fields env video_path st) as (Hs & Hf & _ & Hv & _).
  rewrite Hs, Hf, Hv.
  pose proof (frame_loop_attempts _ _ _ _ Hloop) as Han.
  cbn [initial_state processed_frames analyzed_frames] in Han.
  rewrite Z.add_0_l in Han.
  split; [exact Han|]. split.
  { intros Hpos. rewrite Han.
    rewrite (sampled_length _ 0 _ Hpos), Z.add_0_l, Z.div_0_l by lia. lia. }
  assert (Hmet : detections_met (interval_of cap) 0 (decoded (reads cap)) = []).
  { apply detections_met_none. eapply Forall_impl; [exact Hraise|]. cbv beta.
    intros frame Hf'. unfold fresh_detections.
    destruct (jpeg frame) as [buffer|]; [|reflexivity].
    destruct (Hf' buffer eq_refl) as [[e ->] | Hdown]; [reflexivity|].
    destruct (analyze_bytes buffer) as [res|e] eqn:Hres; [|reflexivity].
    exact (AnalyzerFacts.analyze_bytes_model_down _ _ Hdown Hres). }
  destruct (frame_loop_quiet _ _ _ _ Hloop Hmet) as (Hc & Hl & Ho).
  split; [exact Hl|]. split; [|split].
  - apply Ho; [reflexivity | constructor].
  - rewrite Hc, summarize_keys. reflexivity.
  - rewrite Hc. apply summarize_initial.
Qed.

Lemma failing_classifier_still_completes_witness :
  (Samples.source ∈ files Samples.model_down_env) /\
  capture Samples.model_down_env = Some Samples.model_down_capture /\
  interval_of Samples.model_down_capture <> 0 /\
  Forall (fun frame =>
            forall buffer, jpeg frame = Some buffer ->
              (exists e, analyze_bytes buffer = Raise e) \/
              (forall roi, classifier buffer roi = None))
         (sampled (interval_of Samples.model_down_capture) 0
                  (decoded (reads Samples.model_down_capture))) /\
  exists run,
    process_video Samples.model_down_env Samples.source = Return run /\
    frames_analyzed (result run) = 2 /\
    map fst (summary (result run)) =
      ["angry"; "disgust"; "fear"; "happy"; "neutral"; "sad"; "surprise"]%string /\
    Forall (fun kv => (snd kv == 0)%Q) (summary (result run)).
Proof.
  assert (H1 : Samples.source ∈ files Samples.model_down_env)
    by (apply path_exists_true; vm_compute; reflexivity).
  assert (H2 : capture Samples.model_down_env = Some Samples.model_down_capture)
    by reflexivity.
  assert (H3 : interval_of Samples.model_down_capture <> 0)
    by (vm_compute; discriminate).
  assert (H4 : Forall (fun frame =>
                         forall buffer, jpeg frame = Some buffer ->
                           (exists e, analyze_bytes buffer = Raise e) \/
                           (forall roi, classifier buffer roi = None))
                 (sampled (interval_of Samples.model_down_capture) 0
                          (decoded (reads Samples.model_down_capture))))
    by (repeat (apply Forall_cons_2 || apply Forall_nil_2);
        intros buffer [= <-]; left; eexists; vm_compute; reflexivity).
  split; [exact H1|]. split; [exact H2|]. split; [exact H3|]. split; [exact H4|].
  destruct (failing_classifier_still_completes _ _ _ H1 H2 H3 H4)
    as (run & st & Hrun & _ & Hn & _ & _ & _ & Hkeys & Hzero).
  exists run. split; [exact Hrun|]. split; [rewrite Hn; reflexivity|].
  split; [exact Hkeys | exact Hzero].
Defined.

(** *** Post-processing *)

Lemma merge_audio_grows (fs : gset string) (ffmpeg : ToolRun)
    (original_path processed_path : string) :
  fs ⊆ snd (merge_audio fs ffmpeg original_path processed_path).
Proof.
  unfold merge_audio.
  destruct (negb (path_exists fs original_path)); [done|].
  destruct (negb (path_exists fs processed_path)); [done|].
  destruct ffmpeg as [rc|]; [|done].
  destruct (negb (rc =? 0)); cbn [snd]; set_solver.
Qed.

Lemma compress_video_grows (fs : gset string) (ffmpeg : ToolRun)
    (input_path output_path : string) :
  fs ⊆ snd (compress_video fs ffmpeg input_path output_path).
Proof.
  unfold compress_video.
  destruct (negb (path_exists fs input_path)); [done|].
  destruct ffmpeg as [rc|]; [|done].
  destruct (negb (rc =? 0)); cbn [snd]; set_solver.
Qed.

(** If what [compress_video] returns exists, so does what it was given. *)
Lemma compress_video_keeps_input (fs : gset string) (ffmpeg : ToolRun)
    (p : string) :
  fst (compress_video fs ffmpeg p p) ∈ snd (compress_video fs ffmpeg p p) ->
  p ∈ snd (compress_video fs ffmpeg p p).
Proof.
  unfold compress_video.
  destruct (path_exists fs p) eqn:Hp; cbn [negb]; [|cbn; auto].
  apply path_exists_true in Hp.
  destruct ffmpeg as [rc|]; [|cbn; auto].
  destruct (negb (rc =? 0)); cbn [fst snd]; [auto|].
  intros _. set_solver.
Qed.




(** C8 fails on a video that reports less than half a frame per second:
    the source exists and opens, the interval is 0, and the first decoded
    frame ends the run with a division by zero. *)
Theorem slow_video_aborts_the_run :
  (Samples.source ∈ files Samples.slow_env) /\
  is_Some (capture Samples.slow_env) /\
  process_video Samples.slow_env Samples.source = Raise ZeroDivisionError.
Proof.
  split; [|split].
  - apply path_exists_true. vm_compute. reflexivity.
  - eexists. reflexivity.
  - vm_compute. reflexivity.
Qed.

(** With a zero interval the loop survives only a video without a decoded
    frame, and ends with a division by zero otherwise. *)
Lemma frame_loop_zero_invalid (reads : list Read) (st : LoopState) :
  decoded reads = [] -> frame_loop 0 reads st = Return st.
Proof.
  induction reads as [|[|f] rest IH]; intros Hdec;
    [reflexivity | exact (IH Hdec) | discriminate].
Qed.

Lemma frame_loop_zero_raises (reads : list Read) (st : LoopState) (e : exn) :
  frame_loop 0 reads st = Raise e -> e = ZeroDivisionError.
Proof.
  induction reads as [|[|f] rest IH]; intros H.
  - discriminate.
  - exact (IH H).
  - cbn in H. congruence.
Qed.

(** What does end a run early: a missing source, a source that does not
    open, and a zero interval met by a decoded frame. *)
Lemma process_video_raises (env : Env) (video_path : string) (e : exn) :
  process_video env video_path = Raise e ->
  ((video_path ∉ files env) /\ e = FileNotFoundError) \/
  ((video_path ∈ files env) /\ capture env = None /\ e = VideoOpenError) \/
  (exists cap, (video_path ∈ files env) /\ capture env = Some cap /\
               interval_of cap = 0 /\ decoded (reads cap) <> [] /\
               e = ZeroDivisionError).
Proof.
  intros H. destruct (decide (video_path ∈ files env)) as [Hsrc|Hsrc].
  - destruct (capture env) as [cap|] eqn:Hcap.
    + right. right. exists cap.
      destruct (decide (interval_of cap = 0)) as [Hn|Hn].
      * rewrite (process_video_opened _ _ _ Hsrc Hcap), Hn in H.
        split; [exact Hsrc|]. split; [reflexivity|]. split; [exact Hn|].
        split.
        -- intros Hdec.
           rewrite (frame_loop_zero_invalid _ _ Hdec) in H. discriminate.
        -- destruct (frame_loop 0 (reads cap) initial_state) as [st|e'] eqn:Hl;
             [discriminate|].
           apply frame_loop_zero_raises in Hl. cbn in H. congruence.
      * destruct (process_video_returns _ _ _ Hsrc Hcap Hn) as (st & _ & Hret).
        congruence.
    + right. left. rewrite (process_video_unopened _ _ Hsrc Hcap) in H.
      repeat split; congruence.
  - left. rewrite (process_video_missing_source _ _ Hsrc) in H.
    split; congruence.
Qed.

(** C9. The audio stage returns the silent video it was given, and leaves
    the disk alone, when the original or the processed file is missing or
    FFmpeg does not exit with 0 (a non-zero code, or an exception of the
    call). The compression stage, which the run calls with the artifact as
    input and as output, returns that artifact, and leaves the disk alone,
    when the artifact is missing or FFmpeg does not exit with 0; when
    FFmpeg fails on an input that exists it returns the input whatever the
    output path is. Whatever the two stages do, a run that got through its
    frames returns its result. *)
Theorem stages_fall_back_to_their_input (fs : gset string) (ffmpeg : ToolRun)
    (original processed output : string) (env : Env) (video_path : string)
    (cap : Capture) (st : LoopState) :
  ((original ∉ fs) \/ (processed ∉ fs) \/ ffmpeg <> Exited 0 ->
   merge_audio fs ffmpeg original processed = (processed, fs)) /\
  ((processed ∉ fs) \/ ffmpeg <> Exited 0 ->
   compress_video fs ffmpeg processed processed = (processed, fs)) /\
  ((processed ∈ fs) -> ffmpeg <> Exited 0 ->
   compress_video fs ffmpeg processed output = (processed, fs)) /\
  ((video_path ∈ files env) ->
   capture env = Some cap ->
   frame_loop (interval_of cap) (reads cap) initial_state = Return st ->
   exists run,
     process_video env video_path = Return run /\
     video run = out st /\
     frames_analyzed (result run) = analyzed_frames st /\
     summary (result run) = summarize (emotion_counts st)).
Proof.
  split; [|split; [|split]].
  - unfold merge_audio. intros H.
    destruct (path_exists fs original) eqn:Ho; cbn [negb]; [|reflexivity].
    destruct (path_exists fs processed) eqn:Hp; cbn [negb]; [|reflexivity].
    apply path_exists_true in Ho, Hp.
    destruct ffmpeg as [rc|]; [|reflexivity].
    destruct (rc =? 0) eqn:Hrc; cbn [negb]; [|reflexivity].
    apply Z.eqb_eq in Hrc. subst rc.
    destruct H as [H|[H|H]]; contradiction.
  - unfold compress_video. intros H.
    destruct (path_exists fs processed) eqn:Hp; cbn [negb]; [|reflexivity].
    apply path_exists_true in Hp.
    destruct ffmpeg as [rc|]; [|reflexivity].
    destruct (rc =? 0) eqn:Hrc; cbn [negb]; [|reflexivity].
    apply Z.eqb_eq in Hrc. subst rc.
    destruct H as [H|H]; contradiction.
  - unfold compress_video. intros Hp H.
    apply path_exists_true in Hp. rewrite Hp. cbn [negb].
    destruct ffmpeg as [rc|]; [|reflexivity].
    destruct (rc =? 0) eqn:Hrc; cbn [negb]; [|reflexivity].
    apply Z.eqb_eq in Hrc. subst rc. contradiction.
  - intros Hsrc Hcap Hloop. exists (finish env video_path st).
    rewrite (process_video_opened _ _ _ Hsrc Hcap), Hloop.
    destruct (finish_fields env video_path st) as (Hs & Hf & _ & Hv & _).
    auto.
Qed.

Lemma stages_fall_back_to_their_input_witness :
  Exited 1 <> Exited 0 /\
  merge_audio (files Samples.clip_env) (Exited 1) Samples.source
    (output_path Samples.clip_env)
  = (output_path Samples.clip_env, files Samples.clip_env).
Proof.
  assert (H : Exited 1 <> Exited 0) by discriminate.
  split; [exact H|].
  destruct (stages_fall_back_to_their_input
              (files Samples.clip_env) (Exited 1) Samples.source
              (output_path Samples.clip_env) (output_path Samples.clip_env)
              Samples.clip_env Samples.source
              Samples.clip_capture initial_state) as (Hmerge & _).
  apply Hmerge. right. right. exact H.
Defined.

End VideoProcessorFacts.

(** ** analyzer.py: the list of results *)

Module AnalyzerMore.
Import Analyzer.

(** A detector item that passes both thresholds is kept, with its origin
    clamped. *)
Lemma keep_boxes_complete (detections : list MtcnnItem) (x y w h : Z)
    (conf : option Q) :
  In (FaceDict (Some (x, y, w, h)) conf) detections ->
  below_confidence conf = false ->
  30 <= w -> 30 <= h ->
  In (Z.max 0 x, Z.max 0 y, w, h) (keep_boxes detections).
Proof.
  intros Hin Hconf Hw Hh.
  induction detections as [|det rest IH]; [contradiction|].
  cbn [keep_boxes]. destruct Hin as [-> | Hin].
  - rewrite Hconf.
    replace (Z.max 1 w) with w by lia. replace (Z.max 1 h) with h by lia.
    assert (Hs : (w <? 30) || (h <? 30) = false).
    { apply orb_false_intro; apply Z.ltb_ge; lia. }
    rewrite Hs. left. reflexivity.
  - specialize (IH Hin).
    destruct det as [|[[[[x0 y0] w0] h0]|] conf0]; try exact IH.
    destruct (below_confidence conf0); [exact IH|].
    destruct ((Z.max 1 w0 <? 30) || (Z.max 1 h0 <? 30)); [exact IH|].
    right. exact IH.
Qed.

Lemma detect_faces_In (img_rgb : FileBytes) (b : Box) :
  In b (detect_faces img_rgb) <->
  exists detections x y w h conf,
    mtcnn img_rgb = Some detections /\
    In (FaceDict (Some (x, y, w, h)) conf) detections /\
    (forall c, conf = Some c ->
                 (7656119366529843 # 9007199254740992 <= c)%Q) /\
    30 <= w /\ 30 <= h /\
    b = (Z.max 0 x, Z.max 0 y, w, h).
Proof.
  unfold detect_faces. split.
  - destruct (mtcnn img_rgb) as [detections|]; [|intros []].
    intros Hin.
    apply AnalyzerFacts.keep_boxes_origin in Hin
      as (x & y & w & h & conf & Hin & Hconf & Hw & Hh & ->).
    exists detections, x, y, w, h, conf.
    rewrite AnalyzerFacts.below_confidence_false in Hconf. auto 10.
  - intros (detections & x & y & w & h & conf & -> & Hin & Hconf & Hw & Hh & ->).
    apply (keep_boxes_complete detections x y w h conf); auto.
    apply AnalyzerFacts.below_confidence_false. exact Hconf.
Qed.

(** X1. [detect_faces] keeps exactly the detector's dicts that have a box of
    width and height at least 30 and no confidence below 0.85 (the float
    of that literal, 7656119366529843 / 2^53), each with its origin
    clamped at zero; nothing else reaches the list. *)
Theorem detect_faces_keeps_exactly (img_rgb : FileBytes) (b : Box) :
  In b (detect_faces img_rgb) <->
  exists detections x y w h conf,
    mtcnn img_rgb = Some detections /\
    In (FaceDict (Some (x, y, w, h)) conf) detections /\
    (forall c, conf = Some c ->
                 (7656119366529843 # 9007199254740992 <= c)%Q) /\
    30 <= w /\ 30 <= h /\
    b = (Z.max 0 x, Z.max 0 y, w, h).
Proof.
  exact (detect_faces_In img_rgb b).
Qed.

Lemma detect_faces_bounds (img_rgb : FileBytes) (x y w h : Z) :
  In (x, y, w, h) (detect_faces img_rgb) ->
  0 <= x /\ 0 <= y /\ 30 <= w /\ 30 <= h.
Proof.
  intros Hin. apply detect_faces_In in Hin
    as (dets & x0 & y0 & w0 & h0 & conf & _ & _ & _ & Hw & Hh & [= -> -> -> ->]).
  lia.
Qed.

(** X2. The crop of a kept box is empty exactly when the box starts at or
    beyond the bottom or the right edge of the image; a box that only
    sticks out is cropped, not dropped. *)
Theorem kept_box_crop_empty_iff_outside (img_rgb : FileBytes) (x y w h : Z) :
  In (x, y, w, h) (detect_faces img_rgb) ->
  (roi_size img_rgb (x, y, w, h) = 0 <-> rows img_rgb <= y \/ cols img_rgb <= x).
Proof.
  intros Hin. apply detect_faces_bounds in Hin as (Hx & Hy & Hw & Hh).
  unfold roi_size, slice_len, slice_index.
  assert (E1 : (y <? 0) = false) by (apply Z.ltb_ge; lia).
  assert (E2 : (y + h <? 0) = false) by (apply Z.ltb_ge; lia).
  assert (E3 : (x <? 0) = false) by (apply Z.ltb_ge; lia).
  assert (E4 : (x + w <? 0) = false) by (apply Z.ltb_ge; lia).
  rewrite E1, E2, E3, E4. split.
  - intros H. 
    destruct (Z_le_gt_dec (rows img_rgb) y) as [|Hr]; [left; assumption|].
    destruct (Z_le_gt_dec (cols img_rgb) x) as [|Hc]; [right; assumption|].
    exfalso.
    assert (0 < Z.max 0 (Z.min (y + h) (rows img_rgb) - Z.min y (rows img_rgb))) by lia.
    assert (0 < Z.max 0 (Z.min (x + w) (cols img_rgb) - Z.min x (cols img_rgb))) by lia.
    nia.
  - intros [H|H].
    + replace (Z.max 0 (Z.min (y + h) (rows img_rgb) - Z.min y (rows img_rgb)))
        with 0 by lia. lia.
    + replace (Z.max 0 (Z.min (x + w) (cols img_rgb) - Z.min x (cols img_rgb)))
        with 0 by lia. lia.
Qed.

Lemma kept_box_crop_empty_iff_outside_witness :
  In (700, 10, 40, 40) (detect_faces MoreSamples.group_photo) /\
  roi_size MoreSamples.group_photo (700, 10, 40, 40) = 0.
Proof.
  assert (H : In (700, 10, 40, 40) (detect_faces MoreSamples.group_photo))
    by (vm_compute; auto).
  split; [exact H|].
  apply (kept_box_crop_empty_iff_outside _ _ _ _ _ H).
  right. vm_compute. discriminate.
Defined.

Lemma bind_Raise_l {A B} (m : outcome A) (f : A -> outcome B) (e : exn) :
  m = Raise e -> (m ≫= f) = Raise e.
Proof. intros ->. reflexivity. Qed.

Lemma bind_raises {A B} (m : outcome A) (f : A -> outcome B) :
  (forall a, exists e, f a = Raise e) -> exists e, (m ≫= f) = Raise e.
Proof.
  intros H. destruct m as [a|e]; [apply H | exists e; reflexivity].
Qed.

Lemma probs_dict_total (names : list string) (j : nat) (probs : list Q) :
  (j + List.length names <= List.length probs)%nat ->
  exists d, probs_dict names j probs = Return d.
Proof.
  revert j. induction names as [|name names IH]; intros j Hlen;
    cbn [probs_dict].
  - eauto.
  - cbn [List.length] in Hlen.
    destruct (lookup_lt_is_Some_2 probs j ltac:(lia)) as [p Hp].
    unfold index at 1. rewrite Hp. cbn.
    destruct (IH (S j) ltac:(lia)) as [d ->]. cbn. eauto.
Qed.

Lemma probs_dict_short (names : list string) (j : nat) (probs : list Q) :
  (j <= List.length probs)%nat ->
  (List.length probs < j + List.length names)%nat ->
  exists e, probs_dict names j probs = Raise e.
Proof.
  revert j. induction names as [|name names IH]; intros j Hj Hlen;
    cbn [probs_dict List.length] in *.
  - lia.
  - unfold index at 1. destruct (probs !! j) as [p|] eqn:Hp; cbn; [|eauto].
    apply lookup_lt_Some in Hp.
    destruct (IH (S j) ltac:(lia) ltac:(lia)) as [e ->]. cbn. eauto.
Qed.

(** The loop over the boxes, when the classifier answers every non-empty
    crop with seven scores. *)
Lemma classify_faces_returns (img_rgb : FileBytes) (bboxes : list Box) (i : nat) :
  Forall (fun b => roi_size img_rgb b <> 0 ->
                   exists probs, classifier img_rgb b = Some probs /\
                                 List.length probs = 7%nat) bboxes ->
  exists ds,
    classify_faces img_rgb i bboxes = Return ds /\
    Forall2 (fun d b => let '(x, y, w, h) := b in bbox d = [x; y; w; h])
            ds (List.filter (fun b => negb (roi_size img_rgb b =? 0)) bboxes).
Proof.
  revert i. induction bboxes as [|[[[x y] w] h] rest IH]; intros i Hok;
    cbn [classify_faces List.filter].
  - exists []. split; [reflexivity | constructor].
  - apply Forall_cons_1 in Hok as [Hb Hok].
    destruct (roi_size img_rgb (x, y, w, h) =? 0) eqn:Hroi; cbn [negb].
    + apply IH. exact Hok.
    + apply Z.eqb_neq in Hroi. destruct (Hb Hroi) as (probs & -> & Hlen).
      cbn [mbind outcome_bind].
      destruct (argmax probs) as [idx|e] eqn:Hidx.
      2:{ destruct probs; [discriminate Hlen | discriminate Hidx]. }
      destruct (AnalyzerFacts.argmax_spec _ _ Hidx) as (m & Hm & _).
      apply lookup_lt_Some in Hm as Hlt. rewrite Hlen in Hlt.
      destruct (lookup_lt_is_Some_2 CLASS_NAMES idx Hlt) as [name Hname].
      cbn [mbind outcome_bind]. unfold index at 1 2. rewrite Hname, Hm.
      cbn [mbind outcome_bind].
      destruct (probs_dict_total CLASS_NAMES 0 probs) as [ap Hap];
        [rewrite Hlen; cbn; lia|].
      rewrite Hap. cbn [mbind outcome_bind].
      destruct (IH (S i) Hok) as (tail & -> & Htail).
      cbn [mbind outcome_bind]. eexists. split; [reflexivity|].
      constructor; [reflexivity | exact Htail].
Qed.

(** X3. When the image decodes and the classifier answers every non-empty
    crop of a kept box with seven scores, [analyze_bytes] returns one
    detection for each kept box with a non-empty crop, in the detector's
    order and with that box; kept boxes whose crop is empty are passed
    over. *)
Theorem analyze_bytes_one_result_per_crop (file_bytes : FileBytes) :
  decodes file_bytes = true ->
  Forall (fun b => roi_size file_bytes b <> 0 ->
                   exists probs, classifier file_bytes b = Some probs /\
                                 List.length probs = 7%nat)
         (detect_faces file_bytes) ->
  exists res,
    analyze_bytes file_bytes = Return res /\
    Forall2 (fun d b => let '(x, y, w, h) := b in bbox d = [x; y; w; h])
            (results res)
            (List.filter (fun b => negb (roi_size file_bytes b =? 0))
                         (detect_faces file_bytes)).
Proof.
  intros Hdec Hok. unfold analyze_bytes, read_image_to_rgb. rewrite Hdec.
  cbn [mbind outcome_bind].
  destruct (classify_faces_returns file_bytes (detect_faces file_bytes) 0 Hok)
    as (ds & Hds & Hall).
  destruct (detect_faces file_bytes) as [|b bs] eqn:Hdet.
  - eexists. split; [reflexivity|]. cbn. constructor.
  - rewrite Hds. cbn [mbind outcome_bind]. eexists. split; [reflexivity|].
    exact Hall.
Qed.

Lemma analyze_bytes_one_result_per_crop_witness :
  decodes MoreSamples.group_photo = true /\
  analyze_bytes MoreSamples.group_photo = Return MoreSamples.group_analysis /\
  Forall2 (fun d b => let '(x, y, w, h) := b in bbox d = [x; y; w; h])
          (results MoreSamples.group_analysis)
          (List.filter (fun b => negb (roi_size MoreSamples.group_photo b =? 0))
                       (detect_faces MoreSamples.group_photo)).
Proof.
  assert (H1 : decodes MoreSamples.group_photo = true) by reflexivity.
  assert (H2 : Forall (fun b => roi_size MoreSamples.group_photo b <> 0 ->
                         exists probs,
                           classifier MoreSamples.group_photo b = Some probs /\
                           List.length probs = 7%nat)
                      (detect_faces MoreSamples.group_photo)).
  { apply Forall_forall. intros b _ _. exists Samples.happy_probs.
    split; reflexivity. }
  assert (H3 : analyze_bytes MoreSamples.group_photo
               = Return MoreSamples.group_analysis)
    by (vm_compute; reflexivity).
  split; [exact H1|]. split; [exact H3|].
  destruct (analyze_bytes_one_result_per_crop _ H1 H2) as (res & Hres & HF).
  rewrite H3 in Hres. injection Hres as <-. exact HF.
Defined.

(** One face that cannot be classified makes the loop raise. *)
Lemma classify_faces_raises (img_rgb : FileBytes) (bboxes : list Box) (i : nat)
    (b : Box) :
  In b bboxes ->
  roi_size img_rgb b <> 0 ->
  (classifier img_rgb b = None \/
   exists probs, classifier img_rgb b = Some probs /\
                 (List.length probs < 7)%nat) ->
  exists e, classify_faces img_rgb i bboxes = Raise e.
Proof.
  intros Hin Hroi Hbad. revert i.
  induction bboxes as [|[[[x y] w] h] rest IH]; intros i; [contradiction|].
  cbn [classify_faces]. destruct Hin as [<- | Hin].
  - apply Z.eqb_neq in Hroi. rewrite Hroi.
    destruct Hbad as [-> | (probs & -> & Hlen)]; [eexists; reflexivity|].
    cbn [mbind outcome_bind].
    apply bind_raises. intros idx. apply bind_raises. intros name.
    apply bind_raises. intros c.
    destruct (probs_dict_short CLASS_NAMES 0 probs) as [e He];
      [lia | cbn; lia|].
    exists e. rewrite He. reflexivity.
  - destruct (roi_size img_rgb (x, y, w, h) =? 0); [exact (IH Hin (S i))|].
    apply bind_raises. intros probs. apply bind_raises. intros idx.
    apply bind_raises. intros name. apply bind_raises. intros c.
    apply bind_raises. intros ap.
    destruct (IH Hin (S i)) as [e He]. exists e. rewrite He. reflexivity.
Qed.

(** X4. [analyze_bytes] is all or nothing. Bytes that do not decode raise
    [ValueError]; and if the classifier raises, or returns fewer than seven
    scores, on the non-empty crop of one kept box, the whole call raises,
    whatever it answers on the other faces. *)
Theorem analyze_bytes_all_or_nothing (file_bytes : FileBytes) :
  (decodes file_bytes = false -> analyze_bytes file_bytes = Raise ValueError) /\
  (forall b,
     In b (detect_faces file_bytes) ->
     roi_size file_bytes b <> 0 ->
     (classifier file_bytes b = None \/
      exists probs, classifier file_bytes b = Some probs /\
                    (List.length probs < 7)%nat) ->
     exists e, analyze_bytes file_bytes = Raise e).
Proof.
  split.
  - intros Hdec. unfold analyze_bytes, read_image_to_rgb. rewrite Hdec.
    reflexivity.
  - intros b Hin Hroi Hbad. unfold analyze_bytes, read_image_to_rgb.
    destruct (decodes file_bytes); [|eexists; reflexivity].
    cbn [mbind outcome_bind].
    destruct (classify_faces_raises file_bytes _ 0 b Hin Hroi Hbad) as [e He].
    destruct (detect_faces file_bytes) as [|b0 bs]; [contradiction|].
    rewrite He. exists e. reflexivity.
Qed.

(** The identifiers the loop hands out. *)
Lemma classify_faces_ids (img_rgb : FileBytes) (bboxes : list Box) (i : nat)
    (ds : list Detection) :
  classify_faces img_rgb i bboxes = Return ds ->
  Forall (fun d => exists j x y w h,
            bboxes !! j = Some (x, y, w, h) /\
            id d = Z.of_nat (i + j) + 1 /\
            bbox d = [x; y; w; h] /\
            roi_size img_rgb (x, y, w, h) <> 0) ds /\
  StronglySorted Z.lt (map id ds).
Proof.
  revert i ds.
  induction bboxes as [|[[[x y] w] h] rest IH]; intros i ds;
    cbn [classify_faces].
  - intros [= <-]. split; constructor.
  - assert (Hshift : forall ds',
              Forall (fun d => exists j x y w h,
                        rest !! j = Some (x, y, w, h) /\
                        id d = Z.of_nat (S i + j) + 1 /\
                        bbox d = [x; y; w; h] /\
                        roi_size img_rgb (x, y, w, h) <> 0) ds' ->
              Forall (fun d => exists j x0 y0 w0 h0,
                        ((x, y, w, h) :: rest) !! j = Some (x0, y0, w0, h0) /\
                        id d = Z.of_nat (i + j) + 1 /\
                        bbox d = [x0; y0; w0; h0] /\
                        roi_size img_rgb (x0, y0, w0, h0) <> 0) ds').
    { intros ds' H. eapply Forall_impl; [exact H|]. cbv beta.
      intros d (j & x0 & y0 & w0 & h0 & Hj & Hid & Hd).
      exists (S j), x0, y0, w0, h0. split; [exact Hj|].
      split; [rewrite Hid; lia | exact Hd]. }
    destruct (roi_size img_rgb (x, y, w, h) =? 0) eqn:Hroi.
    + intros H. apply IH in H as [Hall Hsorted]. split; [auto | exact Hsorted].
    + destruct (classifier img_rgb (x, y, w, h)) as [probs|]; [|discriminate].
      intros H.
      bind_inv H. bind_inv H. bind_inv H. bind_inv H. bind_inv H. bind_inv H.
      injection H as <-.
      match goal with Ht : classify_faces _ _ _ = Return _ |- _ =>
        apply IH in Ht as [Hall Hsorted] end.
      split.
      * constructor; [|auto].
        exists 0%nat, x, y, w, h. cbn [id bbox]. apply Z.eqb_neq in Hroi.
        repeat split; auto. lia.
      * cbn [map id]. constructor; [exact Hsorted|].
        apply Forall_forall. intros z Hz.
        apply list_elem_of_In, in_map_iff in Hz as (d & <- & Hd).
        rewrite Forall_forall in Hall.
        destruct (Hall d (proj2 (list_elem_of_In _ _) Hd))
          as (j & _ & _ & _ & _ & _ & Hid & _).
        rewrite Hid. lia.
Qed.

(** X5. The [id] of a result is one plus the position of its box in the
    list of kept boxes, the box is the one at that position and its crop is
    not empty; so the ids of a call increase strictly along [results]
    (they are distinct) and skip the positions of the boxes that were
    passed over. *)
Theorem result_ids_are_box_positions (file_bytes : FileBytes) (res : Analysis) :
  analyze_bytes file_bytes = Return res ->
  Forall (fun d => exists j x y w h,
            detect_faces file_bytes !! j = Some (x, y, w, h) /\
            id d = Z.of_nat j + 1 /\
            bbox d = [x; y; w; h] /\
            roi_size file_bytes (x, y, w, h) <> 0) (results res) /\
  StronglySorted Z.lt (map id (results res)) /\
  NoDup (map id (results res)).
Proof.
  intros H. unfold analyze_bytes, read_image_to_rgb in H.
  destruct (decodes file_bytes); [|discriminate]. cbn [mbind outcome_bind] in H.
  assert (Hcl : classify_faces file_bytes 0 (detect_faces file_bytes)
                = Return (results res)).
  { destruct (detect_faces file_bytes) as [|b bs];
      [injection H as <-; reflexivity|].
    bind_inv H. injection H as <-. exact Ha. }
  apply classify_faces_ids in Hcl as [Hall Hsorted].
  split; [exact Hall|]. split; [exact Hsorted|].
  clear Hall. induction Hsorted as [|z zs Hs IH Hlt]; constructor; auto.
  intros Hin. rewrite Forall_forall in Hlt.
  specialize (Hlt z Hin). lia.
Qed.

Lemma result_ids_are_box_positions_witness :
  analyze_bytes MoreSamples.group_photo = Return MoreSamples.group_analysis /\
  StronglySorted Z.lt (map id (results MoreSamples.group_analysis)) /\
  NoDup (map id (results MoreSamples.group_analysis)).
Proof.
  assert (H : analyze_bytes MoreSamples.group_photo
              = Return MoreSamples.group_analysis)
    by (vm_compute; reflexivity).
  split; [exact H|].
  exact (proj2 (result_ids_are_box_positions _ _ H)).
Defined.

(** X6. On a tie the first class wins: every class that comes before the
    predicted one in [CLASS_NAMES] has a strictly smaller probability than
    the reported confidence. *)
Theorem ties_go_to_the_first_class (file_bytes : FileBytes) (res : Analysis) :
  analyze_bytes file_bytes = Return res ->
  Forall (fun d =>
    exists x y w h probs idx,
      bbox d = [x; y; w; h] /\
      classifier file_bytes (x, y, w, h) = Some probs /\
      CLASS_NAMES !! idx = Some (emotion d) /\
      probs !! idx = Some (confidence d) /\
      forall j q, (j < idx)%nat -> probs !! j = Some q ->
                  (q < confidence d)%Q) (results res).
Proof.
  intros H. apply AnalyzerFacts.analyze_bytes_results in H as [_ [i H]].
  apply AnalyzerFacts.classify_faces_spec in H.
  eapply Forall_impl; [exact H|]. cbv beta.
  intros d (x & y & w & h & probs & idx & _ & Hbox & Hcl & Hidx & He & Hc & _).
  exists x, y, w, h, probs, idx.
  destruct (AnalyzerFacts.argmax_spec _ _ Hidx) as (m & Hm & _ & Hfirst).
  rewrite Hc in Hm. injection Hm as <-. auto 10.
Qed.

Lemma ties_go_to_the_first_class_witness :
  analyze_bytes MoreSamples.tied_portrait = Return MoreSamples.tied_analysis /\
  Forall (fun d =>
    exists x y w h probs idx,
      bbox d = [x; y; w; h] /\
      classifier MoreSamples.tied_portrait (x, y, w, h) = Some probs /\
      CLASS_NAMES !! idx = Some (emotion d) /\
      probs !! idx = Some (confidence d) /\
      forall j q, (j < idx)%nat -> probs !! j = Some q ->
                  (q < confidence d)%Q) (results MoreSamples.tied_analysis).
Proof.
  assert (H : analyze_bytes MoreSamples.tied_portrait
              = Return MoreSamples.tied_analysis)
    by (vm_compute; reflexivity).
  split; [exact H|].
  exact (ties_go_to_the_first_class _ _ H).
Defined.

End AnalyzerMore.

(** ** video_processor.py: the sink and the counters *)

Module LoopMore.
Import Analyzer Uploader VideoProcessor Observations VideoProcessorFacts.

(** *** What reaches the sink *)

Lemma frame_loop_sink (n : Z) (reads : list Read) (st st' : LoopState) :
  frame_loop n reads st = Return st' ->
  exists written,
    map shown (out st') = map shown (out st) ++ written /\
    sublist written (map picture (decoded reads)) /\
    (List.length written
     + List.length (List.filter (fun f => match jpeg f with None => true | _ => false end)
                                (sampled n (processed_frames st) (decoded reads)))
     = List.length (decoded reads))%nat.
Proof.
  revert st. induction reads as [|r rest IH]; intros st H.
  - injection H as <-. exists []. rewrite app_nil_r.
    split; [reflexivity|]. split; [constructor | reflexivity].
  - apply frame_loop_cons in H as (st1 & H1 & H2). destruct r as [|frame].
    + injection H1 as <-. exact (IH _ H2).
    + pose proof (process_frame_returns _ _ _ _ H1) as Hn.
      rewrite process_frame_decoded in H1 by exact Hn. injection H1 as <-.
      destruct (IH _ H2) as (written & Hout & Hsub & Hlen). clear IH H2.
      cbn [decoded sampled map List.length].
      destruct ((processed_frames st + 1) mod n =? 0); cbn [negb] in *.
      * rewrite (proj1 (analyze_frame_counters _ _)) in Hlen.
        cbn [count_frame processed_frames] in Hlen.
        unfold analyze_frame in Hout. cbn [List.filter].
        destruct (jpeg frame) as [buffer|].
        -- exists (picture frame :: written). split; [|split].
           ++ rewrite Hout.
              destruct (analyze_bytes buffer) as [res|e];
                [destruct (results res) as [|d ds];
                 [|destruct (draw_and_count (d :: ds) [] _)]|];
                cbn [out count_frame]; rewrite map_app, <- app_assoc; reflexivity.
           ++ apply sublist_skip. exact Hsub.
           ++ cbn [List.length]. lia.
        -- exists written. split; [exact Hout|]. split.
           ++ apply sublist_cons. exact Hsub.
           ++ cbn [List.length]. lia.
      * exists (picture frame :: written). split; [|split].
        -- rewrite Hout. cbn [persist_frame count_frame out].
           rewrite map_app, <- app_assoc. reflexivity.
        -- apply sublist_skip. exact Hsub.
        -- cbn [List.length]. cbn [persist_frame count_frame processed_frames] in Hlen.
           lia.
Qed.

(** X7. Whatever happens to single frames, the output video of a run that
    returns is a subsequence of the decoded frames: no frame is written
    twice or out of order and no invalid read is written. The frames that
    are missing are counted by the analyzed frames that did not encode. *)
Theorem video_is_subsequence_of_decoded (env : Env) (video_path : string)
    (cap : Capture) (run : Run) :
  capture env = Some cap ->
  process_video env video_path = Return run ->
  sublist (map shown (video run)) (map picture (decoded (reads cap))) /\
  (List.length (video run)
   + List.length (List.filter (fun f => match jpeg f with None => true | _ => false end)
                              (sampled (interval_of cap) 0 (decoded (reads cap))))
   = List.length (decoded (reads cap)))%nat.
Proof.
  intros Hcap Hrun.
  apply process_video_inv in Hrun as (cap' & st & _ & Hcap' & Hloop & ->).
  rewrite Hcap in Hcap'. injection Hcap' as <-.
  destruct (finish_fields env video_path st) as (_ & _ & _ & Hv & _).
  rewrite Hv.
  destruct (frame_loop_sink _ _ _ _ Hloop) as (written & Hout & Hsub & Hlen).
  cbn [initial_state out map app processed_frames] in Hout, Hlen.
  rewrite Hout. split; [exact Hsub|].
  rewrite <- (length_map shown), Hout. exact Hlen.
Qed.

Lemma video_is_subsequence_of_decoded_witness :
  capture Samples.unencodable_env = Some MoreSamples.unencodable_capture /\
  process_video Samples.unencodable_env Samples.source
  = Return MoreSamples.unencodable_run /\
  List.length (video MoreSamples.unencodable_run) = 1%nat /\
  sublist (map shown (video MoreSamples.unencodable_run))
          (map picture (decoded (reads MoreSamples.unencodable_capture))).
Proof.
  assert (H1 : capture Samples.unencodable_env
               = Some MoreSamples.unencodable_capture) by reflexivity.
  assert (H2 : process_video Samples.unencodable_env Samples.source
               = Return MoreSamples.unencodable_run)
    by (vm_compute; reflexivity).
  split; [exact H1|]. split; [exact H2|].
  split; [vm_compute; reflexivity|].
  exact (proj1 (video_is_subsequence_of_decoded _ _ _ _ H1 H2)).
Defined.

(** X8. For every run that returns, [frames_analyzed] is the number of
    decoded frames on a multiple of the interval, whatever the analyses
    yield; with a positive interval that is the number of decoded frames
    divided by the interval, rounded down, hence never more than the
    number of decoded frames. *)
Theorem frames_analyzed_counts_multiples (env : Env) (video_path : string)
    (cap : Capture) (run : Run) :
  capture env = Some cap ->
  process_video env video_path = Return run ->
  frames_analyzed (result run) =
    Z.of_nat (List.length (sampled (interval_of cap) 0 (decoded (reads cap)))) /\
  (0 < interval_of cap ->
   frames_analyzed (result run) =
     Z.of_nat (List.length (decoded (reads cap))) / interval_of cap /\
   frames_analyzed (result run) <= Z.of_nat (List.length (decoded (reads cap)))).
Proof.
  intros Hcap Hrun.
  apply process_video_inv in Hrun as (cap' & st & _ & Hcap' & Hloop & ->).
  rewrite Hcap in Hcap'. injection Hcap' as <-.
  destruct (finish_fields env video_path st) as (_ & Hf & _).
  rewrite Hf.
  pose proof (frame_loop_attempts _ _ _ _ Hloop) as Han.
  cbn [initial_state processed_frames analyzed_frames] in Han.
  rewrite Z.add_0_l in Han. split; [exact Han|].
  intros Hpos. rewrite Han.
  rewrite (sampled_length _ 0 _ Hpos), Z.add_0_l, Z.div_0_l, Z.sub_0_r by lia.
  split; [reflexivity|].
  apply Z.div_le_upper_bound; [lia|]. nia.
Qed.

Lemma frames_analyzed_counts_multiples_witness :
  capture Samples.clip_env = Some Samples.clip_capture /\
  process_video Samples.clip_env Samples.source = Return Samples.clip_run /\
  0 < interval_of Samples.clip_capture /\
  frames_analyzed (result Samples.clip_run) =
    Z.of_nat (List.length (decoded (reads Samples.clip_capture)))
    / interval_of Samples.clip_capture.
Proof.
  assert (H1 : capture Samples.clip_env = Some Samples.clip_capture)
    by reflexivity.
  assert (H2 : process_video Samples.clip_env Samples.source
               = Return Samples.clip_run)
    by (vm_compute; reflexivity).
  assert (H3 : 0 < interval_of Samples.clip_capture)
    by (vm_compute; reflexivity).
  split; [exact H1|]. split; [exact H2|]. split; [exact H3|].
  destruct (frames_analyzed_counts_multiples _ _ _ _ H1 H2) as [_ H].
  exact (proj1 (H H3)).
Defined.

(** *** The emotion counters, label by label *)

Lemma dict_get_incr (d : list (string * Z)) (k e : string) :
  dict_get (dict_incr d k) e 0 =
  dict_get d e 0 + (if String.eqb e k && dict_has d k then 1 else 0).
Proof.
  induction d as [|[k' v] d IH]; cbn [dict_incr dict_get dict_has existsb fst].
  - rewrite andb_false_r. reflexivity.
  - fold (dict_has d k).
    destruct (String.eqb k' k) eqn:Hk; cbn [dict_get orb].
    + apply String.eqb_eq in Hk. subst k'.
      destruct (String.eqb k e) eqn:He.
      * rewrite String.eqb_sym, He. reflexivity.
      * rewrite String.eqb_sym, He. cbn. lia.
    + destruct (String.eqb k' e) eqn:He.
      * apply String.eqb_eq in He. subst k'. rewrite Hk. cbn. lia.
      * exact IH.
Qed.

Lemma dict_has_incr (d : list (string * Z)) (k e : string) :
  dict_has (dict_incr d k) e = dict_has d e.
Proof.
  apply eq_true_iff_eq. rewrite !dict_has_In, dict_incr_keys. reflexivity.
Qed.

Lemma draw_and_count_spec (dets : list Detection) (canvas : list Overlay)
    (counts : list (string * Z)) (e : string) :
  fst (draw_and_count dets canvas counts) = draw_persisted dets canvas /\
  map fst (snd (draw_and_count dets canvas counts)) = map fst counts /\
  dict_get (snd (draw_and_count dets canvas counts)) e 0 =
  dict_get counts e 0
  + (if dict_has counts e
     then Z.of_nat (List.length
            (List.filter (fun d => String.eqb (emotion d) e
                                   && (List.length (bbox d) =? 4)%nat) dets))
     else 0).
Proof.
  split; [|split; [apply draw_and_count_keys|]].
  - revert canvas counts. induction dets as [|d ds IH]; intros canvas counts;
      [reflexivity|].
    cbn [draw_and_count draw_persisted].
    destruct (bbox d) as [|x [|y [|w [|h [|? ?]]]]]; apply IH.
  - revert canvas counts. induction dets as [|d ds IH]; intros canvas counts.
    + cbn. destruct (dict_has counts e); lia.
    + cbn [draw_and_count List.filter].
      destruct (bbox d) as [|x [|y [|w [|h [|? ?]]]]] eqn:Hbox;
        cbn [List.length Nat.eqb]; rewrite ?andb_false_r; try apply IH.
      rewrite IH, andb_true_r.
      destruct (dict_has counts (emotion d)) eqn:Hhas.
      * rewrite dict_get_incr, dict_has_incr, Hhas, andb_true_r.
        rewrite (String.eqb_sym e).
        destruct (String.eqb_spec (emotion d) e) as [He|He].
        -- rewrite <- He, Hhas. cbn [List.length]. lia.
        -- destruct (dict_has counts e); lia.
      * destruct (String.eqb_spec (emotion d) e) as [He|He];
          [rewrite <- He, Hhas; reflexivity | reflexivity].
Qed.

(** X9. [draw_and_count] on any list of detections: what it paints is what
    [draw_persisted] paints; the keys of the counters stay as they are; and
    the counter of a label grows by the number of detections that carry
    that label and a four-entry box, provided the label is a key (an
    unknown label and a box of another length are not counted). *)
Theorem draw_and_count_effect (dets : list Detection) (canvas : list Overlay)
    (counts : list (string * Z)) (e : string) :
  fst (draw_and_count dets canvas counts) = draw_persisted dets canvas /\
  map fst (snd (draw_and_count dets canvas counts)) = map fst counts /\
  dict_get (snd (draw_and_count dets canvas counts)) e 0 =
  dict_get counts e 0
  + (if dict_has counts e
     then Z.of_nat (List.length
            (List.filter (fun d => String.eqb (emotion d) e
                                   && (List.length (bbox d) =? 4)%nat) dets))
     else 0).
Proof.
  exact (draw_and_count_spec dets canvas counts e).
Qed.

Lemma analyze_frame_label (frame : Frame) (st : LoopState) (e : string) :
  map fst (emotion_counts st) = CLASS_NAMES ->
  dict_get (emotion_counts (analyze_frame frame st)) e 0 =
  dict_get (emotion_counts st) e 0
  + Z.of_nat (List.length
      (List.filter (fun d => String.eqb (emotion d) e) (fresh_detections frame))).
Proof.
  intros Hkeys.
  pose proof (fresh_detections_wellformed frame) as Hwf.
  unfold analyze_frame, fresh_detections in *.
  destruct (jpeg frame) as [buffer|]; [|cbn; lia].
  destruct (analyze_bytes buffer) as [res|err]; [|cbn; lia].
  destruct (results res) as [|d ds] eqn:Hres; [cbn; lia|].
  destruct (draw_and_count_spec (d :: ds) [] (emotion_counts st) e)
    as (_ & _ & Hget).
  destruct (draw_and_count (d :: ds) [] (emotion_counts st)) as [canvas counts].
  cbn [emotion_counts snd] in *. rewrite Hget. f_equal.
  assert (Hfilter :
    List.filter (fun d0 => String.eqb (emotion d0) e
                           && (List.length (bbox d0) =? 4)%nat) (d :: ds)
    = List.filter (fun d0 => String.eqb (emotion d0) e) (d :: ds)).
  { apply filter_ext_in. intros d0 Hd0.
    rewrite Forall_forall in Hwf.
    destruct (Hwf d0 (proj2 (list_elem_of_In _ _) Hd0))
      as [(x & y & w & h & ->) _].
    cbn. apply andb_true_r. }
  rewrite Hfilter.
  destruct (dict_has (emotion_counts st) e) eqn:Hhas; [reflexivity|].
  destruct (List.filter (fun d0 => String.eqb (emotion d0) e) (d :: ds))
    as [|d0 l] eqn:Hf; [reflexivity|].
  exfalso.
  assert (Hin : In d0 (List.filter (fun d1 => String.eqb (emotion d1) e) (d :: ds)))
    by (rewrite Hf; left; reflexivity).
  apply filter_In in Hin as [Hin He]. apply String.eqb_eq in He.
  rewrite Forall_forall in Hwf.
  destruct (Hwf d0 (proj2 (list_elem_of_In _ _) Hin)) as [_ Hlabel].
  rewrite He, <- Hkeys in Hlabel. apply dict_has_In in Hlabel. congruence.
Qed.

Lemma frame_loop_label (n : Z) (reads : list Read) (st st' : LoopState)
    (e : string) :
  frame_loop n reads st = Return st' ->
  map fst (emotion_counts st) = CLASS_NAMES ->
  dict_get (emotion_counts st') e 0 =
  dict_get (emotion_counts st) e 0
  + Z.of_nat (List.length
      (List.filter (fun d => String.eqb (emotion d) e)
                   (detections_met n (processed_frames st) (decoded reads)))).
Proof.
  revert st. induction reads as [|r rest IH]; intros st H Hkeys.
  - injection H as <-. cbn. lia.
  - apply frame_loop_cons in H as (st1 & H1 & H2). destruct r as [|frame].
    + injection H1 as <-. exact (IH _ H2 Hkeys).
    + pose proof (process_frame_returns _ _ _ _ H1) as Hn.
      rewrite process_frame_decoded in H1 by exact Hn. injection H1 as <-.
      cbn [decoded]. rewrite detections_met_cons, List.filter_app, length_app.
      destruct ((processed_frames st + 1) mod n =? 0); cbn [negb] in H2.
      * destruct (analyze_frame_counts frame (count_frame st) Hkeys) as [Hk _].
        rewrite (IH _ H2 Hk), (analyze_frame_label frame (count_frame st) e Hkeys).
        rewrite (proj1 (analyze_frame_counters _ _)). cbn. lia.
      * rewrite (IH _ H2 Hkeys). cbn. lia.
Qed.

(** X10. At the end of the loop the counter of each label is the number of
    detections with that label that the analyzed frames yielded: one
    increment per face, none for the frames that reuse stored detections. *)
Theorem counters_count_faces_per_label (env : Env) (video_path : string)
    (cap : Capture) (run : Run) (e : string) :
  capture env = Some cap ->
  process_video env video_path = Return run ->
  exists st,
    frame_loop (interval_of cap) (reads cap) initial_state = Return st /\
    summary (result run) = summarize (emotion_counts st) /\
    dict_get (emotion_counts st) e 0 =
    Z.of_nat (List.length
      (List.filter (fun d => String.eqb (emotion d) e)
                   (detections_met (interval_of cap) 0 (decoded (reads cap))))).
Proof.
  intros Hcap Hrun.
  apply process_video_inv in Hrun as (cap' & st & _ & Hcap' & Hloop & ->).
  rewrite Hcap in Hcap'. injection Hcap' as <-.
  exists st. split; [exact Hloop|].
  destruct (finish_fields env video_path st) as (Hs & _).
  split; [exact Hs|].
  rewrite (frame_loop_label _ _ _ _ e Hloop eq_refl).
  cbn [initial_state processed_frames emotion_counts].
  assert (H0 : dict_get (emotion_counts initial_state) e 0 = 0).
  { cbn [initial_state emotion_counts map dict_get].
    repeat (destruct (String.eqb _ e); [reflexivity|]). reflexivity. }
  cbn [initial_state emotion_counts] in H0. rewrite H0. lia.
Qed.

Lemma counters_count_faces_per_label_witness :
  capture Samples.clip_env = Some Samples.clip_capture /\
  process_video Samples.clip_env Samples.source = Return Samples.clip_run /\
  exists st,
    frame_loop (interval_of Samples.clip_capture) (reads Samples.clip_capture)
      initial_state = Return st /\
    dict_get (emotion_counts st) "happy" 0 = 1.
Proof.
  assert (H1 : capture Samples.clip_env = Some Samples.clip_capture)
    by reflexivity.
  assert (H2 : process_video Samples.clip_env Samples.source
               = Return Samples.clip_run)
    by (vm_compute; reflexivity).
  split; [exact H1|]. split; [exact H2|].
  destruct (counters_count_faces_per_label _ _ _ _ "happy"%string H1 H2)
    as (st & Hst & _ & Hcount).
  exists st. split; [exact Hst|].
  rewrite Hcount. vm_compute. reflexivity.
Defined.

End LoopMore.

(** ** video_processor.py: the summary, the interval and the store *)

Module RunMore.
Import Analyzer Uploader VideoProcessor Observations VideoProcessorFacts LoopMore.

(** *** The summary stays within 0 and 100 *)

(** X11. Every value of the summary of a run lies between 0 and 100: the
    counters never go below zero and none exceeds their total. *)
Theorem summary_values_between_0_and_100 (env : Env) (video_path : string)
    (run : Run) :
  process_video env video_path = Return run ->
  Forall (fun kv => (0 <= snd kv)%Q /\ (snd kv <= 100)%Q) (summary (result run)).
Proof.
  intros Hrun.
  apply process_video_inv in Hrun as (cap & st & _ & _ & Hloop & ->).
  destruct (finish_fields env video_path st) as (Hs & _). rewrite Hs.
  apply summarize_between. exact (frame_loop_counters_nonneg _ _ _ Hloop).
Qed.

Lemma summary_values_between_0_and_100_witness :
  process_video Samples.clip_env Samples.source = Return Samples.clip_run /\
  Forall (fun kv => (0 <= snd kv)%Q /\ (snd kv <= 100)%Q)
         (summary (result Samples.clip_run)).
Proof.
  assert (H : process_video Samples.clip_env Samples.source
              = Return Samples.clip_run)
    by (vm_compute; reflexivity).
  split; [exact H|].
  exact (summary_values_between_0_and_100 _ _ _ H).
Defined.

(** *** When a run ends early *)

Lemma int_of_float_zero (x : Q) :
  int_of_float x = 0 <-> (- (1) < x)%Q /\ (x < 1)%Q.
Proof.
  unfold int_of_float. destruct x as [n d]. cbn [Qnum Qden].
  rewrite Z.quot_small_iff by lia.
  unfold Qlt. cbn [Qnum Qden Qopp]. lia.
Qed.

Lemma interval_of_zero (cap : Capture) :
  interval_of cap = 0 <->
  ~ (CAP_PROP_FPS cap == 0)%Q /\
  (- (1 # 2) < CAP_PROP_FPS cap)%Q /\ (CAP_PROP_FPS cap < 1 # 2)%Q.
Proof.
  unfold interval_of, fps_or_default, frame_interval.
  destruct (Qeq_bool (CAP_PROP_FPS cap) 0) eqn:E.
  - apply Qeq_bool_iff in E. split; [discriminate | tauto].
  - apply Qeq_bool_neq in E. rewrite int_of_float_zero.
    destruct (CAP_PROP_FPS cap) as [n d]. unfold Qlt, Qmult. cbn [Qnum Qden Qopp].
    split.
    + intros [H1 H2]. split; [exact E|]. lia.
    + intros (_ & H1 & H2). lia.
Qed.

(** X12. A run ends with [ZeroDivisionError] exactly when the source exists
    and opens, at least one frame decodes, and the reported frame rate is
    not zero but lies strictly between -0.5 and 0.5; a source that exists
    and opens with any other rate, or without a decoded frame, gives a run
    that returns. *)
Theorem zero_division_iff_slow_rate (env : Env) (video_path : string) :
  (process_video env video_path = Raise ZeroDivisionError <->
   (video_path ∈ files env) /\
   exists cap,
     capture env = Some cap /\
     decoded (reads cap) <> [] /\
     ~ (CAP_PROP_FPS cap == 0)%Q /\
     (- (1 # 2) < CAP_PROP_FPS cap)%Q /\ (CAP_PROP_FPS cap < 1 # 2)%Q) /\
  (forall cap,
     (video_path ∈ files env) ->
     capture env = Some cap ->
     (decoded (reads cap) = [] \/ (CAP_PROP_FPS cap == 0)%Q \/
      (CAP_PROP_FPS cap <= - (1 # 2))%Q \/ (1 # 2 <= CAP_PROP_FPS cap)%Q) ->
     exists run, process_video env video_path = Return run).
Proof.
  split; [split|].
  - intros H. apply process_video_raises in H
      as [[_ H] | [(_ & _ & H) | (cap & Hsrc & Hcap & Hn & Hdec & _)]];
      try discriminate.
    split; [exact Hsrc|]. exists cap. apply interval_of_zero in Hn. tauto.
  - intros (Hsrc & cap & Hcap & Hdec & Hrate).
    apply interval_of_zero in Hrate.
    rewrite (process_video_opened _ _ _ Hsrc Hcap), Hrate.
    destruct (frame_loop 0 (reads cap) initial_state) as [st|e] eqn:Hl.
    + exfalso. clear Hcap Hrate. revert Hl Hdec. generalize initial_state.
      induction (reads cap) as [|[|f] rest IH]; intros st0 Hl Hdec.
      * contradiction.
      * exact (IH st0 Hl Hdec).
      * discriminate.
    + apply frame_loop_zero_raises in Hl. subst e. reflexivity.
  - intros cap Hsrc Hcap Hok.
    rewrite (process_video_opened _ _ _ Hsrc Hcap).
    destruct (decide (interval_of cap = 0)) as [Hn|Hn].
    + rewrite Hn. apply interval_of_zero in Hn as (Hne & Hlo & Hhi).
      destruct Hok as [Hdec | [H0 | [Hle | Hge]]].
      * rewrite (frame_loop_zero_invalid _ _ Hdec). eexists. reflexivity.
      * contradiction.
      * exfalso. apply (Qlt_not_le _ _ Hlo). exact Hle.
      * exfalso. apply (Qlt_not_le _ _ Hhi). exact Hge.
    + destruct (frame_loop_total _ (reads cap) initial_state Hn) as [st ->].
      eexists. reflexivity.
Qed.

(** *** The overlay of an analyzed frame is repeated *)

(** X13. When the analysis of a frame yields detections, the frame is
    written with the overlays of those detections, they become the stored
    set, and an intermediate frame that follows is written with the very
    same overlays. *)
Theorem fresh_overlays_are_repeated (frame next : Frame) (st : LoopState) :
  fresh_detections frame <> [] ->
  let st1 := analyze_frame frame st in
  let painted := draw_persisted (fresh_detections frame) [] in
  out st1 = out st ++ [{| shown := picture frame; overlays := painted |}] /\
  last_detections st1 = fresh_detections frame /\
  out (persist_frame next st1) =
    out st1 ++ [{| shown := picture next; overlays := painted |}].
Proof.
  intros Hfresh st1 painted.
  assert (H1 : out st1 = out st ++ [{| shown := picture frame; overlays := painted |}]
               /\ last_detections st1 = fresh_detections frame).
  { unfold st1, painted, analyze_frame, fresh_detections in *.
    destruct (jpeg frame) as [buffer|]; [|contradiction].
    destruct (analyze_bytes buffer) as [res|e]; [|contradiction].
    destruct (results res) as [|d ds]; [contradiction|].
    destruct (draw_and_count_spec (d :: ds) [] (emotion_counts st) EmptyString)
      as (Hfst & _).
    destruct (draw_and_count (d :: ds) [] (emotion_counts st)) as [canvas counts].
    cbn [fst] in Hfst. subst canvas. split; reflexivity. }
  destruct H1 as [Hout Hlast]. split; [exact Hout|]. split; [exact Hlast|].
  rewrite persist_frame_eq. cbn [out]. rewrite Hlast. reflexivity.
Qed.

Lemma fresh_overlays_are_repeated_witness :
  fresh_detections (Samples.face_frame 2) <> [] /\
  last_detections (analyze_frame (Samples.face_frame 2) initial_state)
  = fresh_detections (Samples.face_frame 2) /\
  out (persist_frame (Samples.wall_frame 3)
         (analyze_frame (Samples.face_frame 2) initial_state))
  = out (analyze_frame (Samples.face_frame 2) initial_state)
    ++ [{| shown := picture (Samples.wall_frame 3);
           overlays := draw_persisted
                         (fresh_detections (Samples.face_frame 2)) [] |}].
Proof.
  assert (H : fresh_detections (Samples.face_frame 2) <> [])
    by (vm_compute; discriminate).
  split; [exact H|].
  pose proof (fresh_overlays_are_repeated (Samples.face_frame 2)
                (Samples.wall_frame 3) initial_state H) as P.
  cbv zeta in P. exact (proj2 P).
Defined.

(** *** The store at the end of the loop *)

Lemma frame_loop_store (n : Z) (reads : list Read) (st st' : LoopState) :
  frame_loop n reads st = Return st' ->
  (last_detections st' = last_detections st /\
   Forall (fun f => fresh_detections f = [])
          (sampled n (processed_frames st) (decoded reads))) \/
  (exists before f after,
     sampled n (processed_frames st) (decoded reads) = before ++ f :: after /\
     fresh_detections f <> [] /\
     Forall (fun f' => fresh_detections f' = []) after /\
     last_detections st' = fresh_detections f).
Proof.
  revert st. induction reads as [|r rest IH]; intros st H.
  - injection H as <-. left. split; [reflexivity | constructor].
  - apply frame_loop_cons in H as (st1 & H1 & H2). destruct r as [|frame].
    + injection H1 as <-. exact (IH _ H2).
    + pose proof (process_frame_returns _ _ _ _ H1) as Hn.
      rewrite process_frame_decoded in H1 by exact Hn. injection H1 as <-.
      cbn [decoded sampled]. specialize (IH _ H2).
      destruct ((processed_frames st + 1) mod n =? 0); cbn [negb] in *.
      * rewrite (proj1 (analyze_frame_counters _ _)) in IH.
        cbn [count_frame processed_frames] in IH.
        rewrite analyze_frame_last in IH. cbn [count_frame last_detections] in IH.
        destruct IH as [[Hl Hall] | (before & f & after & Hs & Hf & Hall & Hl)].
        -- destruct (fresh_detections frame) as [|d ds] eqn:Hfresh.
           ++ left. split; [exact Hl|]. constructor; assumption.
           ++ right. exists [], frame, (sampled n (processed_frames st + 1) (decoded rest)).
              split; [reflexivity|]. rewrite Hfresh.
              split; [discriminate|]. split; [exact Hall | exact Hl].
        -- right. exists (frame :: before), f, after.
           rewrite Hs. split; [reflexivity|]. auto.
      * exact IH.
Qed.

(** X14. Last non-empty wins: at the end of a run the store of detections
    is empty if no analyzed frame yielded a detection, and otherwise holds
    the detections of the last analyzed frame that yielded any, whatever
    the analyzed frames after it did. *)
Theorem store_holds_last_faces (n : Z) (reads : list Read) (st : LoopState) :
  frame_loop n reads initial_state = Return st ->
  (last_detections st = [] /\ detections_met n 0 (decoded reads) = []) \/
  (exists before f after,
     sampled n 0 (decoded reads) = before ++ f :: after /\
     fresh_detections f <> [] /\
     Forall (fun f' => fresh_detections f' = []) after /\
     last_detections st = fresh_detections f).
Proof.
  intros H. destruct (frame_loop_store _ _ _ _ H) as [[Hl Hall] | Hex].
  - left. split; [exact Hl|]. apply detections_met_none. exact Hall.
  - right. exact Hex.
Qed.

Lemma store_holds_last_faces_witness :
  frame_loop 2 Samples.clip initial_state
  = Return (Samples.state_after 2 Samples.clip) /\
  last_detections (Samples.state_after 2 Samples.clip)
  = fresh_detections (Samples.face_frame 2).
Proof.
  assert (H : frame_loop 2 Samples.clip initial_state
              = Return (Samples.state_after 2 Samples.clip))
    by (vm_compute; reflexivity).
  split; [exact H|].
  destruct (store_holds_last_faces _ _ _ H)
    as [[_ Hnone] | (before & f & after & _ & _ & _ & Hlast)].
  - vm_compute in Hnone. discriminate.
  - vm_compute. reflexivity.
Defined.

End RunMore.

(** ** The stages after the loop *)

Module StagesMore.
Import Text Analyzer Uploader VideoProcessor Observations VideoProcessorFacts.
Local Set Warnings "-clear-no-such-hyp".

(** *** [str.replace] *)

Lemma prefix_length (p s : string) :
  String.prefix p s = true -> (String.length p <= String.length s)%nat.
Proof.
  revert s. induction p as [|c p IH]; intros s H; cbn [String.length]; [lia|].
  destruct s as [|c' s]; cbn [String.prefix] in H; [discriminate|].
  destruct (Ascii.ascii_dec c c'); [|discriminate].
  cbn [String.length]. apply IH in H. lia.
Qed.

Lemma replace_from_absent (old new s : string) :
  contains s old = false -> replace_from old new 0 s = s.
Proof.
  induction s as [|c s IH]; intros H; [reflexivity|].
  cbn [contains] in H. apply orb_false_elim in H as [Hp Hrest].
  cbn [replace_from]. rewrite Hp, (IH Hrest). reflexivity.
Qed.

Lemma length_append (a b : string) :
  String.length (a ++ b) = (String.length a + String.length b)%nat.
Proof.
  induction a as [|c a IH]; [reflexivity|].
  change (String c a ++ b)%string with (String c (a ++ b)%string).
  cbn [String.length]. rewrite IH. reflexivity.
Qed.

Lemma replace_from_length (old new s : string) (k : nat) :
  (String.length old < String.length new)%nat ->
  (k <= String.length s)%nat ->
  (String.length s - k <= String.length (replace_from old new k s))%nat /\
  (k = 0%nat -> old <> EmptyString -> contains s old = true ->
   String.length s < String.length (replace_from old new 0 s))%nat.
Proof.
  intros Hlen. revert k. induction s as [|c s IH]; intros k Hk.
  - cbn [String.length] in Hk. assert (k = 0%nat) by lia. subst k.
    split; [cbn; lia|]. intros _ Hold H. cbn [contains] in H.
    rewrite orb_false_r in H. destruct old; [contradiction | discriminate].
  - cbn [String.length] in Hk. destruct k as [|k]; cbn [replace_from].
    + destruct (String.prefix old (String c s)) eqn:Hp.
      * apply prefix_length in Hp as Hpl. cbn [String.length] in Hpl.
        assert (Hgrow : old <> EmptyString ->
                  (S (String.length s)
                   < String.length (new ++ replace_from old new (String.length old - 1) s))%nat).
        { intros Hold. rewrite length_append.
          destruct (IH (String.length old - 1)%nat ltac:(lia)) as [Hge _].
          destruct old as [|c0 old0]; [contradiction|].
          cbn [String.length] in *. lia. }
        split.
        -- cbn [String.length]. rewrite length_append.
           destruct (IH (String.length old - 1)%nat ltac:(lia)) as [Hge _]. lia.
        -- intros _ Hold _. cbn [String.length]. exact (Hgrow Hold).
      * destruct (IH 0%nat ltac:(lia)) as [Hge Hgt]. cbn [String.length].
        split; [lia|]. intros _ Hold H. cbn [contains] in H. rewrite Hp in H.
        cbn [orb] in H. specialize (Hgt eq_refl Hold H). lia.
    + destruct (IH k ltac:(lia)) as [Hge _]. split; [cbn [String.length]; lia|].
      intros H0. discriminate.
Qed.

Lemma replace_differs_iff (path suffix : string) :
  (String.length ".mp4" < String.length suffix)%nat ->
  (contains path ".mp4" = false -> replace path ".mp4" suffix = path) /\
  (contains path ".mp4" = true -> replace path ".mp4" suffix <> path).
Proof.
  intros Hlen. split.
  - apply replace_from_absent.
  - intros H.
    destruct (replace_from_length ".mp4" suffix path 0 Hlen ltac:(lia)) as [_ Hgt].
    assert (Hlt : (String.length path < String.length (replace path ".mp4" suffix))%nat).
    { apply Hgt; [reflexivity | discriminate | exact H]. }
    intros Heq. rewrite Heq in Hlt. lia.
Qed.

(** X15. The names of the artifacts. When FFmpeg succeeds on existing
    inputs, the audio stage and the compression stage (called, as the run
    does, with the artifact as input and output) return a path other than
    the one they were given exactly when that path contains ".mp4"; for a
    path without ".mp4" the output name is the input name, the tool is told
    to write over its own input, and the stage returns the path and the
    disk as they were. *)
Theorem stage_output_differs_iff_mp4 (fs : gset string)
    (original processed : string) :
  (original ∈ fs) -> (processed ∈ fs) ->
  (contains processed ".mp4" = true ->
   fst (merge_audio fs (Exited 0) original processed) <> processed /\
   fst (compress_video fs (Exited 0) processed processed) <> processed) /\
  (contains processed ".mp4" = false ->
   merge_audio fs (Exited 0) original processed = (processed, fs) /\
   compress_video fs (Exited 0) processed processed = (processed, fs)).
Proof.
  intros Ho Hp. unfold merge_audio, compress_video.
  apply path_exists_true in Ho as Ho', Hp as Hp'. rewrite Ho', Hp'.
  cbn [negb Z.eqb fst].
  destruct (replace_differs_iff processed "_with_audio.mp4" ltac:(cbn; lia))
    as [Hm0 Hm1].
  destruct (replace_differs_iff processed "_compressed.mp4" ltac:(cbn; lia))
    as [Hc0 Hc1].
  split.
  - intros H. split; [exact (Hm1 H) | exact (Hc1 H)].
  - intros H. rewrite (Hm0 H), (Hc0 H).
    assert (Hfs : {[processed]} ∪ fs = fs) by set_solver.
    rewrite Hfs. split; reflexivity.
Qed.

Lemma stage_output_differs_iff_mp4_witness :
  (Samples.source ∈ MoreSamples.disk_after_loop) /\
  (output_path Samples.clip_env ∈ MoreSamples.disk_after_loop) /\
  fst (merge_audio MoreSamples.disk_after_loop (Exited 0) Samples.source
         (output_path Samples.clip_env))
  <> output_path Samples.clip_env.
Proof.
  assert (H1 : Samples.source ∈ MoreSamples.disk_after_loop)
    by (apply path_exists_true; vm_compute; reflexivity).
  assert (H2 : output_path Samples.clip_env ∈ MoreSamples.disk_after_loop)
    by (apply path_exists_true; vm_compute; reflexivity).
  split; [exact H1|]. split; [exact H2|].
  assert (H3 : Text.contains (output_path Samples.clip_env) ".mp4" = true)
    by (vm_compute; reflexivity).
  destruct (stage_output_differs_iff_mp4 _ _ _ H1 H2) as [H _].
  exact (proj1 (H H3)).
Defined.

(** *** What the stages leave on disk *)

Lemma stages_grow (fs : gset string) (ffmpeg : ToolRun)
    (original processed output : string) :
  let m := merge_audio fs ffmpeg original processed in
  let c := compress_video fs ffmpeg processed output in
  fs ⊆ snd m /\ snd m ⊆ fs ∪ {[fst m]} /\
  ((processed ∈ fs) -> fst m ∈ snd m) /\
  fs ⊆ snd c /\ snd c ⊆ fs ∪ {[fst c]} /\
  ((processed ∈ fs) -> fst c ∈ snd c).
Proof.
  cbv zeta. unfold merge_audio, compress_video.
  destruct (path_exists fs original) eqn:Ho;
    destruct (path_exists fs processed) eqn:Hp; cbn [negb];
    rewrite ?path_exists_true, ?path_exists_false in *;
    destruct ffmpeg as [rc|]; try destruct (negb (rc =? 0));
    cbn [fst snd]; repeat split; set_solver.
Qed.

Lemma finish_upload (env : Env) (video_path : string) (st : LoopState) :
  (public_url (result (finish env video_path st)),
   files_after (finish env video_path st)) =
  match upload_of env video_path with
  | Return url =>
      if path_exists (snd (compressed env video_path)) (fst (merged env video_path))
      then (Some url, snd (compressed env video_path) ∖ {[fst (merged env video_path)]})
      else (None, snd (compressed env video_path))
  | Raise _ => (None, snd (compressed env video_path))
  end.
Proof.
  destruct (finish_fields env video_path st) as (_ & _ & _ & _ & Hup).
  rewrite Hup. unfold upload_and_clean, upload_of.
  destruct (compressed env video_path) as [compressed_path fs2]. reflexivity.
Qed.

(** X17. [public_url] carries a reference exactly when the upload returned
    that reference: the removal of the local file never costs it. *)
Theorem public_url_iff_upload_returned (env : Env) (video_path : string)
    (run : Run) (url : string) :
  process_video env video_path = Return run ->
  (public_url (result run) = Some url <-> upload_of env video_path = Return url).
Proof.
  intros Hrun.
  apply process_video_inv in Hrun as (cap & st & Hsrc & Hcap & Hloop & ->).
  pose proof (finish_upload env video_path st) as Hup.
  destruct (upload_of env video_path) as [url'|e] eqn:Hu.
  - assert (Hin : fst (merged env video_path) ∈ snd (compressed env video_path)).
    { unfold upload_of in Hu. unfold compressed in *.
      destruct (merged env video_path) as [owa fs1]. cbn [fst].
      apply compress_video_keeps_input.
      destruct (compress_video fs1 (compress_run env) owa owa) as [cp fs2].
      cbn [fst snd]. unfold upload_to_gcs in Hu.
      destruct (path_exists fs2 cp) eqn:Hp; [|discriminate].
      apply path_exists_true. exact Hp. }
    apply path_exists_true in Hin. rewrite Hin in Hup.
    injection Hup as -> _. split; congruence.
  - injection Hup as -> _. split; discriminate.
Qed.

Lemma public_url_iff_upload_returned_witness :
  process_video Samples.clip_env Samples.source = Return Samples.clip_run /\
  upload_of Samples.clip_env Samples.source = Return Samples.signed_url.
Proof.
  assert (H : process_video Samples.clip_env Samples.source
              = Return Samples.clip_run)
    by (vm_compute; reflexivity).
  split; [exact H|].
  apply (public_url_iff_upload_returned _ _ _ Samples.signed_url H).
  vm_compute. reflexivity.
Defined.

(** X18. When the writer has produced its file, the chain of stages always
    hands an existing file to the upload, so the run's [public_url] is just
    what the storage service answered: it is absent only if the service
    failed. When the writer has produced nothing and no file of that name
    was there, nothing is uploaded and the disk is left as it was. *)
Theorem public_url_depends_on_storage_only (env : Env) (video_path : string)
    (run : Run) :
  process_video env video_path = Return run ->
  (writer_creates env = true -> public_url (result run) = gcs env) /\
  (writer_creates env = false -> output_path env ∉ files env ->
   public_url (result run) = None /\ files_after run = files env).
Proof.
  intros Hrun.
  apply process_video_inv in Hrun as (cap & st & Hsrc & Hcap & Hloop & ->).
  pose proof (finish_upload env video_path st) as Hup.
  split.
  - intros Hw.
    assert (Hout : output_path env ∈ files_after_loop env).
    { unfold files_after_loop. rewrite Hw. set_solver. }
    destruct (stages_grow (files_after_loop env) (merge_run env)
                video_path (output_path env) (output_path env))
      as (_ & _ & Hm & _).
    specialize (Hm Hout). fold (merged env video_path) in Hm.
    assert (Hc : fst (compressed env video_path) ∈ snd (compressed env video_path)).
    { unfold compressed. destruct (merged env video_path) as [owa fs1].
      cbn [fst snd] in Hm.
      destruct (stages_grow fs1 (compress_run env) owa owa owa)
        as (_ & _ & _ & _ & _ & Hc).
      exact (Hc Hm). }
    assert (Hkeep : fst (merged env video_path) ∈ snd (compressed env video_path)).
    { unfold compressed in *. destruct (merged env video_path) as [owa fs1].
      cbn [fst]. apply compress_video_keeps_input. exact Hc. }
    unfold upload_of in Hup.
    destruct (compressed env video_path) as [cp fs2]. cbn [fst snd] in *.
    unfold upload_to_gcs in Hup.
    apply path_exists_true in Hc, Hkeep. rewrite Hc in Hup.
    destruct (gcs env) as [url|]; [rewrite Hkeep in Hup|];
      injection Hup as -> _; reflexivity.
  - intros Hw Hout.
    assert (Hfs : files_after_loop env = files env).
    { unfold files_after_loop. rewrite Hw. reflexivity. }
    assert (Hm : merged env video_path = (output_path env, files env)).
    { unfold merged, merge_audio. rewrite Hfs.
      apply path_exists_true in Hsrc. apply path_exists_false in Hout.
      rewrite Hsrc, Hout. reflexivity. }
    assert (Hc : compressed env video_path = (output_path env, files env)).
    { unfold compressed. rewrite Hm. unfold compress_video.
      apply path_exists_false in Hout. rewrite Hout. reflexivity. }
    unfold upload_of in Hup. rewrite Hc in Hup. cbn [fst snd] in Hup.
    unfold upload_to_gcs in Hup. apply path_exists_false in Hout.
    rewrite Hout in Hup. injection Hup as -> ->. split; reflexivity.
Qed.

Lemma public_url_depends_on_storage_only_witness :
  process_video Samples.clip_env Samples.source = Return Samples.clip_run /\
  writer_creates Samples.clip_env = true /\
  public_url (result Samples.clip_run) = gcs Samples.clip_env.
Proof.
  assert (H : process_video Samples.clip_env Samples.source
              = Return Samples.clip_run)
    by (vm_compute; reflexivity).
  split; [exact H|]. split; [reflexivity|].
  apply (proj1 (public_url_depends_on_storage_only _ _ _ H)). reflexivity.
Defined.

(** X19. A run removes at most one file, the one [merge_audio] returned:
    every other file that was on disk before the run is still there when
    it returns. *)
Theorem run_disk_footprint (env : Env) (video_path : string) (run : Run) :
  process_video env video_path = Return run ->
  files env ∖ {[fst (merged env video_path)]} ⊆ files_after run.
Proof.
  intros Hrun.
  apply process_video_inv in Hrun as (cap & st & Hsrc & Hcap & Hloop & ->).
  pose proof (finish_upload env video_path st) as Hup.
  assert (H0 : files env ⊆ files_after_loop env).
  { unfold files_after_loop. destruct (writer_creates env); set_solver. }
  pose proof (merge_audio_grows (files_after_loop env) (merge_run env)
                video_path (output_path env)) as Hm.
  fold (merged env video_path) in Hm.
  assert (Hc : snd (merged env video_path) ⊆ snd (compressed env video_path)).
  { unfold compressed. destruct (merged env video_path) as [owa fs1].
    cbn [fst snd]. apply compress_video_grows. }
  assert (Hfs : files_after (finish env video_path st)
                = snd (compressed env video_path) \/
                files_after (finish env video_path st)
                = snd (compressed env video_path) ∖ {[fst (merged env video_path)]}).
  { destruct (upload_of env video_path);
      [destruct (path_exists _ _)|]; injection Hup as _ ->; auto. }
  revert H0 Hm Hc Hfs.
  generalize (files_after (finish env video_path st))
             (snd (compressed env video_path))
             (snd (merged env video_path)) (fst (merged env video_path))
             (files_after_loop env) (files env).
  clear. intros F C M m L A HL HM HC [-> | ->]; set_solver.
Qed.

Lemma run_disk_footprint_witness :
  process_video Samples.clip_env Samples.source = Return Samples.clip_run /\
  files Samples.clip_env ∖ {[fst (merged Samples.clip_env Samples.source)]}
    ⊆ files_after Samples.clip_run.
Proof.
  assert (H : process_video Samples.clip_env Samples.source
              = Return Samples.clip_run)
    by (vm_compute; reflexivity).
  split; [exact H|].
  exact (run_disk_footprint _ _ _ H).
Defined.

End StagesMore.

(** ** youtube_dowload.py and youtube.py *)

Module ApiMore.
Import Text Uploader YoutubeDownload YoutubeApi.
Import VideoProcessorFacts.
Local Set Warnings "-clear-no-such-hyp".

(** *** The download *)

Lemma download_spec (fs : gset string)
    (output_path : string) (ydl : YdlRun) (url : string) :
  let r := download_youtube_video fs output_path ydl url in
  fs ⊆ snd r /\
  (forall p, fst r = Respond p -> p = output_path /\ (p ∈ snd r)) /\
  (forall code detail, fst r = HTTPException code detail -> code = 500) /\
  (ydl = YdlFinished false -> (output_path ∉ fs) ->
   fst r = HTTPException 500 (DownloadError true)).
Proof.
  cbv zeta. unfold download_youtube_video.
  destruct ydl as [|wrote].
  - cbn [fst snd].
    split; [set_solver|]. split; [discriminate|].
    split; [intros code detail [= <- _]; reflexivity | discriminate].
  - destruct (path_exists (if wrote then {[output_path]} ∪ fs else fs) output_path)
      eqn:Hp; cbn [negb fst snd].
    + apply path_exists_true in Hp.
      split; [destruct wrote; set_solver|].
      split; [intros p [= <-]; split; [reflexivity | exact Hp]|].
      split; [discriminate|].
      intros [= ->] Hout. contradiction.
    + split; [destruct wrote; set_solver|].
      split; [discriminate|].
      split; [intros code detail [= <- _]; reflexivity|].
      reflexivity.
Qed.

(** X20. [download_youtube_video] either returns the temporary path, and
    then the file is on disk, or raises an HTTP error with status 500; it
    removes no file; and when yt-dlp comes back without having written the
    file the call fails unless a file of that name was already there. *)
Theorem download_returns_an_existing_file (fs : gset string)
    (output_path : string) (ydl : YdlRun) (url : string) :
  let r := download_youtube_video fs output_path ydl url in
  fs ⊆ snd r /\
  (forall p, fst r = Respond p -> p = output_path /\ (p ∈ snd r)) /\
  (forall code detail, fst r = HTTPException code detail -> code = 500) /\
  (ydl = YdlFinished false -> (output_path ∉ fs) ->
   fst r = HTTPException 500 (DownloadError true)).
Proof.
  exact (download_spec fs output_path ydl url).
Qed.

(** *** The endpoint *)

Lemma prefix_empty (s : string) : String.prefix EmptyString s = true.
Proof. destruct s; reflexivity. Qed.

Lemma contains_middle (a b sub : string) :
  contains (a ++ sub ++ b) sub = true.
Proof.
  induction a as [|c a IH].
  - change (EmptyString ++ sub ++ b)%string with (sub ++ b)%string.
    assert (Hp : String.prefix sub (sub ++ b) = true).
    { induction sub as [|c sub IH]; [apply prefix_empty|].
      change (String c sub ++ b)%string with (String c (sub ++ b)%string).
      cbn [String.prefix]. destruct (Ascii.ascii_dec c c); [exact IH | contradiction]. }
    destruct (sub ++ b)%string; cbn [contains]; rewrite Hp; reflexivity.
  - change (String c a ++ sub ++ b)%string with (String c (a ++ sub ++ b)%string).
    cbn [contains]. rewrite IH. apply orb_true_r.
Qed.

(** X21. The endpoint answers 400 exactly when the stripped URL does not
    start with "http" or mentions neither "youtube.com" nor "youtu.be",
    and then whatever the download and the processing would have done.
    The test looks for the names anywhere in the text: every URL that
    starts with "http" and has "youtu.be" somewhere passes it. *)
Theorem url_is_rejected_iff_invalid (srv : Server) (request : YouTubeRequest) :
  let u := strip (url request) in
  ((exists detail, analyze_youtube_video srv request = HTTPException 400 detail)
   <-> String.prefix "http" u = false
       \/ (contains u "youtube.com" = false /\ contains u "youtu.be" = false)) /\
  (String.prefix "http" u = false
   \/ (contains u "youtube.com" = false /\ contains u "youtu.be" = false) ->
   analyze_youtube_video srv request = HTTPException 400 InvalidUrl) /\
  (forall a b, invalid_url ("http" ++ a ++ "youtu.be" ++ b) = false).
Proof.
  cbv zeta.
  assert (Hinv : invalid_url (strip (url request)) = true <->
                 String.prefix "http" (strip (url request)) = false
                 \/ (contains (strip (url request)) "youtube.com" = false /\
                     contains (strip (url request)) "youtu.be" = false)).
  { unfold invalid_url. rewrite orb_true_iff, andb_true_iff, !negb_true_iff.
    reflexivity. }
  split; [|split].
  - rewrite <- Hinv. unfold analyze_youtube_video.
    destruct (invalid_url (strip (url request))); [split; eauto|].
    split; [|discriminate]. intros [detail H]. exfalso.
    pose proof (download_spec
                  (VideoProcessor.files (env srv)) (download_path srv) (ydl srv)
                  (strip (url request))) as (_ & _ & H500 & _).
    destruct (download_youtube_video _ _ _ _) as [[p|code d] fs].
    + destruct (VideoProcessor.process_video _ p); discriminate.
    + cbn [fst] in H500. specialize (H500 code d eq_refl).
      injection H as -> _. discriminate.
  - intros H. apply Hinv in H. unfold analyze_youtube_video. rewrite H.
    reflexivity.
  - intros a b. unfold invalid_url.
    change ("http" ++ a ++ "youtu.be" ++ b)%string
      with (String "h" (String "t" (String "t" (String "p" (a ++ "youtu.be" ++ b)))))%string.
    assert (Hc : contains (String "h" (String "t" (String "t"
                   (String "p" (a ++ "youtu.be" ++ b)))))%string "youtu.be" = true).
    { change (String "h" (String "t" (String "t" (String "p" (a ++ "youtu.be" ++ b)))))%string
        with (("http" ++ a) ++ "youtu.be" ++ b)%string at 1.
      - apply contains_middle. }
    rewrite Hc. cbn [String.prefix].
    repeat (destruct (Ascii.ascii_dec _ _); [|contradiction]).
    rewrite prefix_empty, andb_false_r. reflexivity.
Qed.

(** X22. Whatever happens, the endpoint answers with a body or raises an
    HTTP error with status 400 or 500. It answers with a body exactly when
    the URL is valid, the download returns and [process_video] returns on
    the downloaded file; the body then has status "done" and the four
    fields of the run's result, [public_url] included even when it is
    absent. *)
Theorem endpoint_answers (srv : Server) (request : YouTubeRequest) :
  let u := strip (url request) in
  let d := download_youtube_video (VideoProcessor.files (env srv))
             (download_path srv) (ydl srv) u in
  (forall code detail,
     analyze_youtube_video srv request = HTTPException code detail ->
     code = 400 \/ code = 500) /\
  (forall body,
     analyze_youtube_video srv request = Respond body <->
     invalid_url u = false /\
     exists run,
       fst d = Respond (download_path srv) /\
       VideoProcessor.process_video (after_download (env srv) (snd d))
         (download_path srv) = Return run /\
       body = {| status := "done";
                 public_url := VideoProcessor.public_url (VideoProcessor.result run);
                 summary := VideoProcessor.summary (VideoProcessor.result run);
                 frames_analyzed :=
                   VideoProcessor.frames_analyzed (VideoProcessor.result run);
                 duration_sec := VideoProcessor.duration_sec (VideoProcessor.result run);
                 message := "Video procesado y subido correctamente a GCS." |}).
Proof.
  cbv zeta.
  pose proof (download_spec
                (VideoProcessor.files (env srv)) (download_path srv) (ydl srv)
                (strip (url request))) as (_ & Hpath & H500 & _).
  unfold analyze_youtube_video.
  destruct (invalid_url (strip (url request))).
  - split.
    + intros code detail [= <- _]. left. reflexivity.
    + intros body. split; [discriminate | intros [H _]; discriminate].
  - destruct (download_youtube_video _ _ _ _) as [[p|code d] fs]; cbn [fst snd] in *.
    + destruct (Hpath p eq_refl) as [-> _].
      destruct (VideoProcessor.process_video _ _) as [run|e].
      * split; [discriminate|]. intros body. split.
        -- intros [= <-]. split; [reflexivity|]. exists run. auto.
        -- intros (_ & run' & _ & [= <-] & ->). reflexivity.
      * split.
        -- intros code detail [= <- _]. right. reflexivity.
        -- intros body. split; [discriminate|].
           intros (_ & run' & _ & H & _). discriminate.
    + split.
      * intros code' detail [= <- _]. right. exact (H500 code d eq_refl).
      * intros body. split; [discriminate|].
        intros (_ & run' & H & _). discriminate.
Qed.

(** X23. Behind the endpoint [process_video] is only ever given a file
    that exists, because the download checked it: when the processing
    step fails, the error that is turned into the 500 answer is the
    failure to open the video or the division by zero of a zero sampling
    interval, never the missing-file error. *)
Theorem processing_errors_behind_the_endpoint (srv : Server)
    (request : YouTubeRequest) (e : exn) :
  analyze_youtube_video srv request = HTTPException 500 (StrOf e) ->
  e = VideoOpenError \/ e = ZeroDivisionError.
Proof.
  unfold analyze_youtube_video.
  destruct (invalid_url (strip (url request))); [discriminate|].
  pose proof (download_spec
                (VideoProcessor.files (env srv)) (download_path srv) (ydl srv)
                (strip (url request))) as (_ & Hpath & _ & _).
  destruct (download_youtube_video _ _ _ _) as [[p|code d] fs] eqn:Hd;
    cbn [fst snd] in *.
  - destruct (Hpath p eq_refl) as [-> Hin].
    destruct (VideoProcessor.process_video _ _) as [run|e'] eqn:Hrun;
      [discriminate|].
    intros [= <-].
    apply process_video_raises in Hrun
      as [[Hno _] | [(_ & _ & ->) | (cap & _ & _ & _ & _ & ->)]]; auto.
    exfalso. apply Hno. exact Hin.
  - unfold download_youtube_video in Hd.
    destruct (ydl srv) as [|wrote]; [injection Hd as <- <- _; discriminate|].
    destruct (negb _); [injection Hd as <- <- _; discriminate | discriminate].
Qed.

Lemma processing_errors_behind_the_endpoint_witness :
  analyze_youtube_video MoreSamples.slow_server MoreSamples.youtube_request
  = HTTPException 500 (StrOf ZeroDivisionError) /\
  (ZeroDivisionError = VideoOpenError \/ ZeroDivisionError = ZeroDivisionError).
Proof.
  assert (H : analyze_youtube_video MoreSamples.slow_server
                MoreSamples.youtube_request
              = HTTPException 500 (StrOf ZeroDivisionError))
    by (vm_compute; reflexivity).
  split; [exact H|].
  exact (processing_errors_behind_the_endpoint _ _ _ H).
Defined.

End ApiMore.
